(** * AppScaleTools: the deployment lifecycle orchestrator

    A shallow embedding of [lib/appscale_tools.py].  Every method of
    [AppScaleTools] is a sequence of calls into collaborators that live in
    other modules ([LocalState], [RemoteHelper], [AppControllerClient],
    [UserAppClient], [AppEngineHelper], [AppScaleLogger]) and of a few
    operations on the local file system.  The methods are embedded as
    programs of a state-and-exception monad:

    - the state holds the local paths the orchestrator tests, creates and
      removes, and the trace of everything it has called or logged so far;
    - a collaborator is an oracle ([respond]) that answers a call, given the
      state in which the call is made, with a value or with a raised
      exception; nothing is assumed about its answers;
    - [raise] and an exception answered by a collaborator propagate as in
      Python; [try_except] is the [try: ... except Exception as e: ...]
      block, which catches the subclasses of [Exception] and lets pass what
      is not one ([SystemExit], [KeyboardInterrupt]). *)

From Stdlib Require Import ZArith Ascii String List.
From stdpp Require Import base tactics option list strings gmap pretty.

Local Open Scope string_scope.
Local Open Scope list_scope.

(** ** Python values *)

(** The line feed, written [\n] in the source's literals. *)
Definition nl : string := String "010"%char EmptyString.

(** Python's truth value of a flag that is [None] or a string. *)
Definition truthy (v : option string) : bool :=
  match v with
  | None => false
  | Some s => negb (String.eqb s "")
  end.

(** The string of a flag in a position where the source has tested it. *)
Definition str_of (v : option string) : string := default "" v.

(** What Python can raise.  The two classes of [custom_exceptions] that the
    orchestrator raises itself, the [OSError] of the [os] module and every
    other subclass of [Exception], by name; and, by name too, the classes
    that derive from [BaseException] without deriving from [Exception]:
    [SystemExit], [KeyboardInterrupt], [GeneratorExit]. *)
Inductive exn : Type :=
| AppScaleException (msg : string)
| BadConfigurationException (msg : string)
| OSError (msg : string)
| OtherException (cls msg : string)
| OtherBaseException (cls msg : string).

(** [str(e)] *)
Definition str_exn (e : exn) : string :=
  match e with
  | AppScaleException m | BadConfigurationException m | OSError m
  | OtherException _ m | OtherBaseException _ m => m
  end.

(** [isinstance(e, Exception)]: what [except Exception] catches. *)
Definition is_Exception (e : exn) : bool :=
  match e with
  | OtherBaseException _ _ => false
  | _ => true
  end.

(** [sys.exit(status)] raises [SystemExit], which is not a subclass of
    [Exception]. *)
Definition SystemExit (status : Z) : exn :=
  OtherBaseException "SystemExit" (pretty status).

Inductive Result (A : Type) : Type :=
| Ok (a : A)
| Raise (e : exn).
Arguments Ok {A} a.
Arguments Raise {A} e.

Definition is_ok {A} (r : Result A) : bool :=
  match r with Ok _ => true | Raise _ => false end.

(** ** Regular expressions

    [TAR_GZ_REGEX = re.compile('.tar.gz\Z')]: a sequence of atoms, where a
    dot matches every character but the line feed, followed by the anchor
    [\Z] that matches at the end of the string only. *)
Inductive atom : Type :=
| Dot
| Lit (c : ascii).

(** The atoms match at the head of the string and the string ends there. *)
Fixpoint match_here (re : list atom) (s : string) : bool :=
  match re, s with
  | [], EmptyString => true
  | [], String _ _ => false
  | _ :: _, EmptyString => false
  | Dot :: re', String c s' => negb (Ascii.eqb c "010") && match_here re' s'
  | Lit a :: re', String c s' => Ascii.eqb a c && match_here re' s'
  end.

(** [re.search]: a match at some position of the string. *)
Fixpoint search (re : list atom) (s : string) : bool :=
  match_here re s ||
  match s with
  | EmptyString => false
  | String _ s' => search re s'
  end.

Definition TAR_GZ_REGEX : list atom :=
  [Dot; Lit "t"; Lit "a"; Lit "r"; Dot; Lit "g"; Lit "z"]%char.

(** ** Options and collaborators' objects *)

(** The [Namespace] of command-line options: the attributes that the
    orchestrator reads, and the remaining ones, which only the collaborators
    consume. *)
Record Options : Type := {
  ips : gmap string string;
  keyname : string;
  verbose : bool;
  location : string;
  infrastructure : option string;
  force : bool;
  admin_user : option string;
  admin_pass : option string;
  test : bool;
  file : string;
  email : option string;
  other_flags : gmap string string
}.

(** What the orchestrator asks of a [NodeLayout] object: [is_valid()],
    [str(errors())] and [is_supported()]. *)
Record node_layout : Type := {
  is_valid : bool;
  errors : string;
  is_supported : bool
}.

(** [AppControllerClient(host, secret)] and [UserAppClient(host, secret)]. *)
Record AppControllerClient : Type := { acc_host : string; acc_secret : string }.
Record UserAppClient : Type := { uac_host : string; uac_secret : string }.

(** ** Calls into collaborators

    One constructor per function or method that the orchestrator calls,
    indexed by the type of the value it returns. *)
Inductive Call : Type → Type :=
(* LocalState *)
| make_appscale_directory : Call unit
| ensure_appscale_isnt_running (keyname : string) (force : bool) : Call unit
| get_from_yaml (keyname tag : string) : Call string
| get_login_host (keyname : string) : Call string
| get_secret_key (keyname : string) : Call string
| get_infrastructure (keyname : string) : Call string
| get_credentials : Call (string * string)
| get_username_from_stdin (is_admin : bool) : Call string
| get_password_from_stdin : Call string
| update_local_metadata (options : Options) (layout : node_layout)
    (public_ip instance_id : string) : Call unit
| cleanup_appscale_files (keyname : string) : Call unit
| extract_app_to_dir (file : string) (verbose : bool) : Call string
(* RemoteHelper *)
| ssh (ip keyname command : string) (verbose : bool) : Call unit
| start_head_node (options : Options) (my_id : string) (layout : node_layout) :
    Call (string * string)
| copy_local_metadata (public_ip keyname : string) (verbose : bool) : Call unit
| sleep_until_port_is_open (host : string) (port : Z) (verbose : bool) : Call unit
| create_user_accounts (username password host keyname : string) : Call unit
| wait_for_machines_to_finish_loading (public_ip keyname : string) : Call unit
| terminate_cloud_infrastructure (keyname : string) (verbose : bool) : Call unit
| terminate_virtualized_cluster (keyname : string) (verbose : bool) : Call unit
| copy_app_to_host (file_location keyname : string) (verbose : bool) : Call string
| scp_remote_to_local (ip keyname source dest : string) (verbose : bool) : Call unit
(* AppControllerClient *)
| start_roles_on_nodes (acc : AppControllerClient) (roles : string) : Call unit
| get_all_public_ips (acc : AppControllerClient) : Call (list string)
| get_status (acc : AppControllerClient) : Call string
| get_uaserver_host (acc : AppControllerClient) (verbose : bool) : Call string
| done_uploading (acc : AppControllerClient) (app_id path : string) : Call unit
| update (acc : AppControllerClient) (apps : list string) : Call unit
(* UserAppClient *)
| does_user_exist (uac : UserAppClient) (username : string) : Call bool
| does_app_exist (uac : UserAppClient) (app_id : string) : Call bool
| get_app_admin (uac : UserAppClient) (app_id : string) : Call (option string)
| reserve_app_id (uac : UserAppClient) (username app_id language : string) : Call unit
| set_admin_role (uac : UserAppClient) (username : string) : Call unit
| get_serving_info (uac : UserAppClient) (app_id keyname : string) : Call (string * Z)
(* AppEngineHelper *)
| get_app_id_from_app_config (file_location : string) : Call string
| get_app_runtime_from_app_config (file_location : string) : Call string
| validate_app_id (app_id : string) : Call unit
(* AppScaleLogger.remote_log_tools_state *)
| remote_log_tools_state (options : Options) (my_id state version : string) : Call unit
(* os, shutil, time, uuid *)
| os_mkdir_call (path : string) : Call unit
| shutil_rmtree_call (path : string) : Call unit
| time_sleep (seconds : Z) : Call unit
| uuid4 : Call string.

(** The three printing methods of [AppScaleLogger]. *)
Inductive level : Type := LOG | WARN | SUCCESS.

(** What the trace records: a call with its answer, or a printed line. *)
Inductive Event : Type :=
| Called {T : Type} (c : Call T) (r : Result T)
| Logged (l : level) (msg : string).

Record State : Type := {
  paths : gset string;
  trace : list Event
}.

Definition record (e : Event) (s : State) : State :=
  {| paths := paths s; trace := trace s ++ [e] |}.

Definition with_paths (f : gset string → gset string) (s : State) : State :=
  {| paths := f (paths s); trace := trace s |}.

(** The events that were recorded between two states. *)
Definition new_events (s0 s1 : State) : list Event :=
  drop (length (trace s0)) (trace s1).

(** ** The world outside this file

    Constants and pure helpers of the modules that are imported, and the
    oracle that answers the calls.  [dict_values] is [d.values()]: the
    values of a dict in the order in which Python lists them, which the
    dict as a map does not determine; all that is known of it is that every
    key contributes its value once. *)
Record World : Type := {
  APPSCALE_VERSION : string;
  DEFAULT_USER : string;
  DEFAULT_PASSWORD : string;
  VALID_AGENTS : list string;
  UserAppClient_PORT : Z;
  APP_DASHBOARD_PORT : Z;
  get_locations_yaml_location : string → string;
  json_dumps : gmap string string → string;
  dict_values : gmap string string → list string;
  dict_values_perm : ∀ m, dict_values m ≡ₚ map snd (map_to_list m);
  NodeLayout : Options → node_layout;
  respond : ∀ T : Type, State → Call T → Result T
}.

(** ** The monad *)

Definition M (A : Type) : Type := State → Result A * State.

Global Instance M_ret : MRet M := λ A a s, (Ok a, s).

Global Instance M_bind : MBind M := λ A B f m s,
  match m s with
  | (Ok a, s') => f a s'
  | (Raise e, s') => (Raise e, s')
  end.

Definition raise {A} (e : exn) : M A := λ s, (Raise e, s).

(** [try: m except Exception as e: h e]: the handler runs for a subclass of
    [Exception]; anything else propagates. *)
Definition try_except {A} (m : M A) (h : exn → M A) : M A := λ s,
  match m s with
  | (Ok a, s') => (Ok a, s')
  | (Raise e, s') => if is_Exception e then h e s' else (Raise e, s')
  end.

(** [for x in l: body x] *)
Fixpoint for_ {A} (l : list A) (body : A → M unit) : M unit :=
  match l with
  | [] => mret tt
  | x :: l' => body x ;; for_ l' body
  end.

Definition logged (l : level) (msg : string) : M unit :=
  λ s, (Ok tt, record (Logged l msg) s).

Definition modify_paths (f : gset string → gset string) : M unit :=
  λ s, (Ok tt, with_paths f s).

(** [os.path.exists(path)] *)
Definition os_path_exists (path : string) : M bool :=
  λ s, (Ok (bool_decide (path ∈ paths s)), s).

(** [path] itself and, for a directory, everything below it. *)
Definition in_tree (dir path : string) : bool :=
  String.eqb dir path || String.prefix (dir +:+ "/") path.

Module AppScaleLogger.
Definition log := logged LOG.
Definition warn := logged WARN.
Definition success := logged SUCCESS.
End AppScaleLogger.

Section AppScaleTools.
Context (W : World).

(** A call is answered by the oracle in the current state and recorded
    with its answer; a raised exception propagates. *)
Definition call {T} (c : Call T) : M T := λ s,
  let r := respond W T s c in (r, record (Called c r) s).

(** [os.mkdir(path)] raises [OSError] when the path exists; it may fail for
    other reasons (a missing parent, permissions), which the oracle
    decides; the path exists afterwards when it returns. *)
Definition os_mkdir (path : string) : M unit :=
  e ← os_path_exists path;
  if e : bool then raise (OSError ("[Errno 17] File exists: '" +:+ path +:+ "'"))
  else call (os_mkdir_call path) ;; modify_paths (λ ps, {[ path ]} ∪ ps).

(** [shutil.rmtree(path)]: when it returns, the directory and everything
    below it are gone. *)
Definition shutil_rmtree (path : string) : M unit :=
  call (shutil_rmtree_call path) ;;
  modify_paths (filter (λ p, ¬ in_tree path p)).

(** Modelled from the spec: [LocalState.update_local_metadata], the
    [save(keyname, metadata)] of the deployment metadata store, is not part
    of this file.  When it returns, the record of the deployment exists:
    the file that [terminate_instances] tests for. *)
Definition LocalState_update_local_metadata (options : Options)
    (layout : node_layout) (public_ip instance_id : string) : M unit :=
  call (update_local_metadata options layout public_ip instance_id) ;;
  modify_paths (λ ps, {[ get_locations_yaml_location W (keyname options) ]} ∪ ps).

(** Modelled from the spec: [LocalState.cleanup_appscale_files], the
    [delete(keyname)] of the deployment metadata store, is not part of this
    file.  When it returns, the record of the deployment is gone. *)
Definition LocalState_cleanup_appscale_files (keyname : string) : M unit :=
  call (cleanup_appscale_files keyname) ;;
  modify_paths (λ ps, ps ∖ {[ get_locations_yaml_location W keyname ]}).

(** Modelled from the spec: [LocalState.extract_app_to_dir] is not part of
    this file.  It extracts the bundle to a temporary directory and
    returns that directory, which exists when it returns. *)
Definition LocalState_extract_app_to_dir (file : string) (verbose : bool) :
    M string :=
  dir ← call (extract_app_to_dir file verbose);
  modify_paths (λ ps, {[ dir ]} ∪ ps) ;;
  mret dir.

(** ** The methods of [AppScaleTools] *)

Definition add_instances (options : Options) : M unit :=
  if bool_decide ("master" ∈ dom (ips options)) then
    raise (BadConfigurationException ("Cannot add master nodes to an " +:+
      "already running AppScale deployment."))
  else
    let additional_nodes_layout := NodeLayout W options in
    infra ← call (get_from_yaml (keyname options) "infrastructure");
    (if String.eqb infra "xen" then
       for_ (dict_values W (ips options)) (λ ip,
         call (ssh ip (keyname options) "ls" (verbose options)))
     else mret tt) ;;
    AppScaleLogger.log "Sending request to add instances" ;;
    login_ip ← call (get_login_host (keyname options));
    secret ← call (get_secret_key (keyname options));
    let acc := {| acc_host := login_ip; acc_secret := secret |} in
    call (start_roles_on_nodes acc (json_dumps W (ips options))) ;;
    AppScaleLogger.success ("Successfully sent request to add instances " +:+
      "to this AppScale deployment.").

Definition describe_instances (options : Options) : M unit :=
  login_host ← call (get_login_host (keyname options));
  secret ← call (get_secret_key (keyname options));
  let login_acc := {| acc_host := login_host; acc_secret := secret |} in
  all_ips ← call (get_all_public_ips login_acc);
  for_ all_ips (λ ip,
    secret ← call (get_secret_key (keyname options));
    let acc := {| acc_host := ip; acc_secret := secret |} in
    AppScaleLogger.log ("Status of node at " +:+ ip +:+ ":") ;;
    try_except
      (status ← call (get_status acc); AppScaleLogger.log status)
      (λ e, AppScaleLogger.warn
              ("Unable to contact machine: " +:+ str_exn e +:+ nl))) ;;
  AppScaleLogger.success ("View status information about your AppScale " +:+
    "deployment at http://" +:+ login_host +:+ "/status").

Definition gather_logs (options : Options) : M unit :=
  e ← os_path_exists (location options);
  if e : bool then
    raise (AppScaleException ("Can't gather logs, as the location you " +:+
      "specified, " +:+ location options +:+ ", already exists."))
  else
    login_host ← call (get_login_host (keyname options));
    secret ← call (get_secret_key (keyname options));
    let acc := {| acc_host := login_host; acc_secret := secret |} in
    os_mkdir (location options) ;;
    all_ips ← call (get_all_public_ips acc);
    for_ all_ips (λ ip,
      let local_dir := location options +:+ "/" +:+ ip in
      os_mkdir local_dir ;;
      call (scp_remote_to_local ip (keyname options) "/var/log/appscale"
              local_dir (verbose options))) ;;
    AppScaleLogger.success ("Successfully copied logs to " +:+ location options).

Definition run_instances (options : Options) : M unit :=
  call make_appscale_directory ;;
  call (ensure_appscale_isnt_running (keyname options) (force options)) ;;
  (if truthy (infrastructure options) then
     AppScaleLogger.log ("Starting AppScale " +:+ APPSCALE_VERSION W +:+
       " over the " +:+ str_of (infrastructure options) +:+ " cloud.")
   else
     AppScaleLogger.log ("Starting AppScale " +:+ APPSCALE_VERSION W +:+
       " over a virtualized cluster.")) ;;
  my_id ← call uuid4;
  call (remote_log_tools_state options my_id "started" (APPSCALE_VERSION W)) ;;
  let layout := NodeLayout W options in
  if negb (is_valid layout) then
    raise (BadConfigurationException ("There were errors with your " +:+
      "placement strategy:" +:+ nl +:+ errors layout))
  else
    (if negb (is_supported layout) then
       AppScaleLogger.warn ("Warning: This deployment strategy is not " +:+
         "officially supported.")
     else mret tt) ;;
    '(public_ip, instance_id) ← call (start_head_node options my_id layout);
    AppScaleLogger.log (nl +:+ "Please wait for AppScale to prepare your machines " +:+
      "for use.") ;;
    LocalState_update_local_metadata options layout public_ip instance_id ;;
    call (copy_local_metadata public_ip (keyname options) (verbose options)) ;;
    secret ← call (get_secret_key (keyname options));
    let acc := {| acc_host := public_ip; acc_secret := secret |} in
    uaserver_host ← call (get_uaserver_host acc (verbose options));
    call (sleep_until_port_is_open uaserver_host (UserAppClient_PORT W)
            (verbose options)) ;;
    LocalState_update_local_metadata options layout public_ip instance_id ;;
    call (copy_local_metadata public_ip (keyname options) (verbose options)) ;;
    AppScaleLogger.log ("UserAppServer is at " +:+ uaserver_host) ;;
    secret ← call (get_secret_key (keyname options));
    let uaserver_client := {| uac_host := uaserver_host; uac_secret := secret |} in
    '(username, password) ←
      (if truthy (admin_user options) && truthy (admin_pass options) then
         AppScaleLogger.log "Using the provided admin username/password" ;;
         mret (str_of (admin_user options), str_of (admin_pass options))
       else if test options then
         AppScaleLogger.log "Using default admin username/password" ;;
         mret (DEFAULT_USER W, DEFAULT_PASSWORD W)
       else
         call get_credentials);
    call (create_user_accounts username password uaserver_host (keyname options)) ;;
    call (set_admin_role uaserver_client username) ;;
    call (wait_for_machines_to_finish_loading public_ip (keyname options)) ;;
    LocalState_update_local_metadata options layout public_ip instance_id ;;
    call (copy_local_metadata public_ip (keyname options) (verbose options)) ;;
    login_host ← call (get_login_host (keyname options));
    call (sleep_until_port_is_open login_host (APP_DASHBOARD_PORT W)
            (verbose options)) ;;
    AppScaleLogger.success "AppScale successfully started!" ;;
    login_host ← call (get_login_host (keyname options));
    AppScaleLogger.success ("View status information about your AppScale " +:+
      "deployment at http://" +:+ login_host +:+ "/status") ;;
    call (remote_log_tools_state options my_id "finished" (APPSCALE_VERSION W)).

Definition terminate_instances (options : Options) : M unit :=
  e ← os_path_exists (get_locations_yaml_location W (keyname options));
  if negb e then
    raise (AppScaleException ("AppScale is not running with the keyname " +:+
      keyname options))
  else
    infra ← call (get_infrastructure (keyname options));
    (if bool_decide (infra ∈ VALID_AGENTS W) then
       call (terminate_cloud_infrastructure (keyname options) (verbose options))
     else
       call (terminate_virtualized_cluster (keyname options) (verbose options))) ;;
    LocalState_cleanup_appscale_files (keyname options) ;;
    AppScaleLogger.success "Successfully shut down your AppScale deployment.".

Definition upload_app (options : Options) : M (string * Z) :=
  '(file_location, created_dir) ←
    (if search TAR_GZ_REGEX (file options) then
       dir ← LocalState_extract_app_to_dir (file options) (verbose options);
       mret (dir, true)
     else mret (file options, false));
  app_id ← call (get_app_id_from_app_config file_location);
  app_language ← call (get_app_runtime_from_app_config file_location);
  call (validate_app_id app_id) ;;
  login_host ← call (get_login_host (keyname options));
  secret ← call (get_secret_key (keyname options));
  let acc := {| acc_host := login_host; acc_secret := secret |} in
  userappserver_host ← call (get_uaserver_host acc (verbose options));
  secret ← call (get_secret_key (keyname options));
  let userappclient := {| uac_host := userappserver_host; uac_secret := secret |} in
  username ←
    (if test options then mret (DEFAULT_USER W)
     else if truthy (email options) then mret (str_of (email options))
     else call (get_username_from_stdin false));
  user_exists ← call (does_user_exist userappclient username);
  (if negb user_exists then
     password ← call get_password_from_stdin;
     call (create_user_accounts username password userappserver_host
             (keyname options))
   else mret tt) ;;
  app_exists ← call (does_app_exist userappclient app_id);
  app_admin ← call (get_app_admin userappclient app_id);
  if match app_admin with
     | Some owner => negb (String.eqb username owner)
     | None => false
     end
  then
    raise (AppScaleException ("The given user doesn't own this application" +:+
      ", so they can't upload an app with that application ID. Please " +:+
      "change the application ID and try again."))
  else
    (if app_exists : bool then
       AppScaleLogger.log ("Uploading new version of app " +:+ app_id)
     else
       AppScaleLogger.log ("Uploading initial version of app " +:+ app_id) ;;
       call (reserve_app_id userappclient username app_id app_language)) ;;
    remote_file_path ← call (copy_app_to_host file_location (keyname options)
                               (verbose options));
    call (done_uploading acc app_id remote_file_path) ;;
    call (update acc [app_id]) ;;
    AppScaleLogger.log "Please wait for your app to start serving." ;;
    (if app_exists : bool then call (time_sleep 20) else mret tt) ;;
    '(serving_host, serving_port) ← call (get_serving_info userappclient app_id
                                            (keyname options));
    call (sleep_until_port_is_open serving_host serving_port (verbose options)) ;;
    AppScaleLogger.success ("Your app can be reached at the following URL: " +:+
      "http://" +:+ serving_host +:+ ":" +:+ pretty serving_port) ;;
    (if created_dir : bool then shutil_rmtree file_location else mret tt) ;;
    mret (serving_host, serving_port).

(** ** [upload_app] in two parts

    For the proofs, [upload_app] is cut after the answer of
    [get_app_admin]: the first part ends with the values of its local
    variables, handed to whatever follows; the second part is the rest of
    the method.  [upload_app_parts] below shows that the two parts are the
    method. *)
Record upload_locals : Type := {
  file_location : string;
  created_dir : bool;
  app_id : string;
  app_language : string;
  acc : AppControllerClient;
  userappclient : UserAppClient;
  username : string;
  app_exists : bool;
  app_admin : option string
}.

Definition upload_app_until_owner {B} (options : Options)
    (k : upload_locals → M B) : M B :=
  '(file_location, created_dir) ←
    (if search TAR_GZ_REGEX (file options) then
       dir ← LocalState_extract_app_to_dir (file options) (verbose options);
       mret (dir, true)
     else mret (file options, false));
  app_id ← call (get_app_id_from_app_config file_location);
  app_language ← call (get_app_runtime_from_app_config file_location);
  call (validate_app_id app_id) ;;
  login_host ← call (get_login_host (keyname options));
  secret ← call (get_secret_key (keyname options));
  let acc := {| acc_host := login_host; acc_secret := secret |} in
  userappserver_host ← call (get_uaserver_host acc (verbose options));
  secret ← call (get_secret_key (keyname options));
  let userappclient := {| uac_host := userappserver_host; uac_secret := secret |} in
  username ←
    (if test options then mret (DEFAULT_USER W)
     else if truthy (email options) then mret (str_of (email options))
     else call (get_username_from_stdin false));
  user_exists ← call (does_user_exist userappclient username);
  (if negb user_exists then
     password ← call get_password_from_stdin;
     call (create_user_accounts username password userappserver_host
             (keyname options))
   else mret tt) ;;
  app_exists ← call (does_app_exist userappclient app_id);
  app_admin ← call (get_app_admin userappclient app_id);
  k {| file_location := file_location; created_dir := created_dir;
       app_id := app_id; app_language := app_language; acc := acc;
       userappclient := userappclient; username := username;
       app_exists := app_exists; app_admin := app_admin |}.

Definition upload_app_from_owner (options : Options) (v : upload_locals) :
    M (string * Z) :=
  if match app_admin v with
     | Some owner => negb (String.eqb (username v) owner)
     | None => false
     end
  then
    raise (AppScaleException ("The given user doesn't own this application" +:+
      ", so they can't upload an app with that application ID. Please " +:+
      "change the application ID and try again."))
  else
    (if app_exists v then
       AppScaleLogger.log ("Uploading new version of app " +:+ app_id v)
     else
       AppScaleLogger.log ("Uploading initial version of app " +:+ app_id v) ;;
       call (reserve_app_id (userappclient v) (username v) (app_id v)
               (app_language v))) ;;
    remote_file_path ← call (copy_app_to_host (file_location v) (keyname options)
                               (verbose options));
    call (done_uploading (acc v) (app_id v) remote_file_path) ;;
    call (update (acc v) [app_id v]) ;;
    AppScaleLogger.log "Please wait for your app to start serving." ;;
    (if app_exists v then call (time_sleep 20) else mret tt) ;;
    '(serving_host, serving_port) ← call (get_serving_info (userappclient v)
                                            (app_id v) (keyname options));
    call (sleep_until_port_is_open serving_host serving_port (verbose options)) ;;
    AppScaleLogger.success ("Your app can be reached at the following URL: " +:+
      "http://" +:+ serving_host +:+ ":" +:+ pretty serving_port) ;;
    (if created_dir v then shutil_rmtree (file_location v) else mret tt) ;;
    mret (serving_host, serving_port).
End AppScaleTools.

(** ** Reading a trace *)

Definition first_answer {A} (f : Event → option A) (evs : list Event) : option A :=
  head (omap f evs).

Definition app_admin_answer (e : Event) : option (option string) :=
  match e with
  | Called (get_app_admin _ _) (Ok owner) => Some owner
  | _ => None
  end.

Definition prompt_answer (e : Event) : option string :=
  match e with
  | Called (get_username_from_stdin _) (Ok u) => Some u
  | _ => None
  end.

Definition app_exists_answer (e : Event) : option bool :=
  match e with
  | Called (does_app_exist _ _) (Ok b) => Some b
  | _ => None
  end.

Definition app_id_answer (e : Event) : option string :=
  match e with
  | Called (get_app_id_from_app_config _) (Ok id) => Some id
  | _ => None
  end.

(** The owner that the registry reported for the application: [Some None]
    when it reported that there is none. *)
Definition reported_owner : list Event → option (option string) :=
  first_answer app_admin_answer.

(** Whether the registry reported that the application exists. *)
Definition app_existed : list Event → option bool :=
  first_answer app_exists_answer.

(** The application identifier read from the bundle's configuration. *)
Definition app_id_of : list Event → option string :=
  first_answer app_id_answer.

(** The username that [upload_app] resolves: the default one under the test
    flag, else the e-mail flag, else the answer of the prompt. *)
Definition resolved_username (W : World) (o : Options) (evs : list Event) :
    option string :=
  if test o then Some (DEFAULT_USER W)
  else if truthy (email o) then email o
  else first_answer prompt_answer evs.

(** A call to [reserve_app_id], [done_uploading] or [update]. *)
Definition registers_or_updates (e : Event) : bool :=
  match e with
  | Called (reserve_app_id _ _ _ _) _ => true
  | Called (done_uploading _ _ _) _ => true
  | Called (update _ _) _ => true
  | _ => false
  end.

Definition sleeps (e : Event) : bool :=
  match e with
  | Called (time_sleep _) _ => true
  | _ => false
  end.

(** A call that a collaborator answered by raising. *)
Definition raised (e : Event) : bool :=
  match e with
  | Called _ (Raise _) => true
  | _ => false
  end.

(** The last thing that happened is a call that raised: the exception that
    ends the method comes from a collaborator, not from a [raise] of the
    method itself. *)
Definition raised_by_callee (evs : list Event) : bool :=
  match last evs with
  | Some e => raised e
  | None => false
  end.

Definition ownership_message : string :=
  "The given user doesn't own this application" +:+
  ", so they can't upload an app with that application ID. Please " +:+
  "change the application ID and try again.".

Definition uploading_line (v : upload_locals) : string :=
  if app_exists v then "Uploading new version of app " +:+ app_id v
  else "Uploading initial version of app " +:+ app_id v.

(** What the second part of [upload_app] does, from a state [s]: it raises
    the ownership error at once, or a collaborator raises after the upload
    has begun, or it returns the serving address. *)
Inductive from_owner_outcome (o : Options) (v : upload_locals) (s : State) :
    Result (string * Z) * State → Prop :=
| fo_rejected owner :
    app_admin v = Some owner → username v ≠ owner →
    from_owner_outcome o v s (Raise (AppScaleException ownership_message), s)
| fo_failed {T} (c : Call T) e evs tr :
    app_admin v = None ∨ app_admin v = Some (username v) →
    last evs = Some (Called c (Raise e)) →
    tr = trace s ++ Logged LOG (uploading_line v) :: evs →
    from_owner_outcome o v s (Raise e, {| paths := paths s; trace := tr |})
| fo_served host port remote_file_path tr :
    app_admin v = None ∨ app_admin v = Some (username v) →
    tr = trace s ++
         Logged LOG (uploading_line v) ::
         (if app_exists v then []
          else [Called (reserve_app_id (userappclient v) (username v) (app_id v)
                          (app_language v)) (Ok tt)]) ++
         [Called (copy_app_to_host (file_location v) (keyname o) (verbose o))
            (Ok remote_file_path);
          Called (done_uploading (acc v) (app_id v) remote_file_path) (Ok tt);
          Called (update (acc v) [app_id v]) (Ok tt);
          Logged LOG "Please wait for your app to start serving."] ++
         (if app_exists v then [Called (time_sleep 20) (Ok tt)] else []) ++
         [Called (get_serving_info (userappclient v) (app_id v) (keyname o))
            (Ok (host, port));
          Called (sleep_until_port_is_open host port (verbose o)) (Ok tt);
          Logged SUCCESS ("Your app can be reached at the following URL: " +:+
                          "http://" +:+ host +:+ ":" +:+ pretty port)] ++
         (if created_dir v
          then [Called (shutil_rmtree_call (file_location v)) (Ok tt)] else []) →
    from_owner_outcome o v s
      (Ok (host, port),
       {| paths := if created_dir v
                   then filter (λ p, ¬ in_tree (file_location v) p) (paths s)
                   else paths s;
          trace := tr |}).

(** The directory that [extract_app_to_dir] answered. *)
Definition extraction_answer (e : Event) : option string :=
  match e with
  | Called (extract_app_to_dir _ _) (Ok dir) => Some dir
  | _ => None
  end.

(** Where the application is, locally: the directory that the bundle was
    extracted to when the file is taken for a compressed bundle, the file
    of the options otherwise. *)
Definition bundle_location (o : Options) (evs : list Event) : option string :=
  if search TAR_GZ_REGEX (file o) then first_answer extraction_answer evs
  else Some (file o).

(** The upload itself: the application at [location] is copied to the
    deployment, and the controller is told where the copy is and to update
    the application. *)
Definition upload_of (o : Options) (acc : AppControllerClient)
    (id location path : string) : list Event :=
  [Called (copy_app_to_host location (keyname o) (verbose o)) (Ok path);
   Called (done_uploading acc id path) (Ok tt);
   Called (update acc [id]) (Ok tt)].

(** A line printed by [AppScaleLogger.success]. *)
Definition reports_success (e : Event) : bool :=
  match e with
  | Logged SUCCESS _ => true
  | _ => false
  end.

(** An event that does not register or update, sleep, raise or report
    success. *)
Definition quiet (e : Event) : bool :=
  negb (registers_or_updates e || sleeps e || raised e || reports_success e).

(** What the first part of [upload_app] does, from a state [s0], whatever
    follows it: a collaborator raises before the registry has reported an
    owner, or the part hands its local variables to what follows. *)
Inductive until_owner_outcome {B} (W : World) (o : Options)
    (k : upload_locals → M B) (s0 : State) : Result B * State → Prop :=
| uo_failed {T} (c : Call T) e evs ps tr :
    tr = trace s0 ++ evs →
    last evs = Some (Called c (Raise e)) →
    reported_owner evs = None →
    (search TAR_GZ_REGEX (file o) = true →
     ∃ r, head evs = Some (Called (extract_app_to_dir (file o) (verbose o)) r)) →
    until_owner_outcome W o k s0 (Raise e, {| paths := ps; trace := tr |})
| uo_continues v evs ps tr :
    tr = trace s0 ++ evs →
    ps = (if created_dir v then {[ file_location v ]} ∪ paths s0 else paths s0) →
    created_dir v = search TAR_GZ_REGEX (file o) →
    (created_dir v = true →
     head evs = Some (Called (extract_app_to_dir (file o) (verbose o))
                        (Ok (file_location v)))) →
    (∀ rest, bundle_location o (evs ++ rest) = Some (file_location v)) →
    (∀ rest, reported_owner (evs ++ rest) = Some (app_admin v)) →
    (∀ rest, resolved_username W o (evs ++ rest) = Some (username v)) →
    (∀ rest, app_existed (evs ++ rest) = Some (app_exists v)) →
    (∀ rest, app_id_of (evs ++ rest) = Some (app_id v)) →
    forallb quiet evs = true →
    until_owner_outcome W o k s0 (k v {| paths := ps; trace := tr |}).

(** The body of the loop of [gather_logs]. *)
Definition gather_logs_node (W : World) (options : Options) (ip : string) : M unit :=
  let local_dir := location options +:+ "/" +:+ ip in
  os_mkdir W local_dir ;;
  call W (scp_remote_to_local ip (keyname options) "/var/log/appscale"
            local_dir (verbose options)).

(** A look-up of the login host or of the secret key that raised. *)
Definition failed_lookup (e : Event) : bool :=
  match e with
  | Called (get_login_host _) (Raise _) => true
  | Called (get_secret_key _) (Raise _) => true
  | _ => false
  end.

(** A call to [os.mkdir]. *)
Definition makes_dir (e : Event) : bool :=
  match e with
  | Called (os_mkdir_call _) _ => true
  | _ => false
  end.

(** The body of the loop of [describe_instances]. *)
Definition describe_instances_node (W : World) (options : Options) (ip : string) :
    M unit :=
  secret ← call W (get_secret_key (keyname options));
  let acc := {| acc_host := ip; acc_secret := secret |} in
  AppScaleLogger.log ("Status of node at " +:+ ip +:+ ":") ;;
  try_except
    (status ← call W (get_status acc); AppScaleLogger.log status)
    (λ e, AppScaleLogger.warn
            ("Unable to contact machine: " +:+ str_exn e +:+ nl)).

(** A status query. *)
Definition status_query (e : Event) : bool :=
  match e with
  | Called (get_status _) _ => true
  | _ => false
  end.

(** A call that raised a subclass of [Exception]. *)
Definition raised_Exception (e : Event) : bool :=
  match e with
  | Called _ (Raise x) => is_Exception x
  | _ => false
  end.

(** Nothing but status queries has raised, and what they raised are
    subclasses of [Exception]: failures of the query, not a [SystemExit] or
    a [KeyboardInterrupt]. *)
Definition only_status_queries_raised (evs : list Event) : bool :=
  forallb (λ e, implb (raised e) (status_query e && raised_Exception e)) evs.

Definition warns (e : Event) : bool :=
  match e with
  | Logged WARN _ => true
  | _ => false
  end.

Definition answered_status (e : Event) : bool :=
  match e with
  | Called (get_status _) (Ok _) => true
  | _ => false
  end.

Definition count (f : Event → bool) (evs : list Event) : nat :=
  length (List.filter f evs).

(** What [describe_instances] records for a list of nodes: for each node in
    turn the header line, the status query and then either the status or a
    warning with the text of the exception. *)
Inductive node_reports (keyname : string) : list string → list Event → Prop :=
| reports_nil : node_reports keyname [] []
| reports_status ip ips secret status evs :
    node_reports keyname ips evs →
    node_reports keyname (ip :: ips)
      (Called (get_secret_key keyname) (Ok secret) ::
       Logged LOG ("Status of node at " +:+ ip +:+ ":") ::
       Called (get_status {| acc_host := ip; acc_secret := secret |}) (Ok status) ::
       Logged LOG status :: evs)
| reports_warning ip ips secret e evs :
    node_reports keyname ips evs →
    node_reports keyname (ip :: ips)
      (Called (get_secret_key keyname) (Ok secret) ::
       Logged LOG ("Status of node at " +:+ ip +:+ ":") ::
       Called (get_status {| acc_host := ip; acc_secret := secret |}) (Raise e) ::
       Logged WARN ("Unable to contact machine: " +:+ str_exn e +:+ nl) :: evs).

(** ** [run_instances] in two parts: up to the second [UserAppClient], and
    from the choice of the admin credentials on. *)
Record run_locals : Type := {
  my_id : string;
  layout : node_layout;
  public_ip : string;
  instance_id : string;
  uaserver_host : string;
  uaserver_client : UserAppClient
}.

Definition run_instances_until_credentials {B} (W : World) (options : Options)
    (k : run_locals → M B) : M B :=
  call W make_appscale_directory ;;
  call W (ensure_appscale_isnt_running (keyname options) (force options)) ;;
  (if truthy (infrastructure options) then
     AppScaleLogger.log ("Starting AppScale " +:+ APPSCALE_VERSION W +:+
       " over the " +:+ str_of (infrastructure options) +:+ " cloud.")
   else
     AppScaleLogger.log ("Starting AppScale " +:+ APPSCALE_VERSION W +:+
       " over a virtualized cluster.")) ;;
  my_id ← call W uuid4;
  call W (remote_log_tools_state options my_id "started" (APPSCALE_VERSION W)) ;;
  let layout := NodeLayout W options in
  if negb (is_valid layout) then
    raise (BadConfigurationException ("There were errors with your " +:+
      "placement strategy:" +:+ nl +:+ errors layout))
  else
    (if negb (is_supported layout) then
       AppScaleLogger.warn ("Warning: This deployment strategy is not " +:+
         "officially supported.")
     else mret tt) ;;
    '(public_ip, instance_id) ← call W (start_head_node options my_id layout);
    AppScaleLogger.log (nl +:+ "Please wait for AppScale to prepare your machines " +:+
      "for use.") ;;
    LocalState_update_local_metadata W options layout public_ip instance_id ;;
    call W (copy_local_metadata public_ip (keyname options) (verbose options)) ;;
    secret ← call W (get_secret_key (keyname options));
    let acc := {| acc_host := public_ip; acc_secret := secret |} in
    uaserver_host ← call W (get_uaserver_host acc (verbose options));
    call W (sleep_until_port_is_open uaserver_host (UserAppClient_PORT W)
              (verbose options)) ;;
    LocalState_update_local_metadata W options layout public_ip instance_id ;;
    call W (copy_local_metadata public_ip (keyname options) (verbose options)) ;;
    AppScaleLogger.log ("UserAppServer is at " +:+ uaserver_host) ;;
    secret ← call W (get_secret_key (keyname options));
    let uaserver_client := {| uac_host := uaserver_host; uac_secret := secret |} in
    k {| my_id := my_id; layout := layout; public_ip := public_ip;
         instance_id := instance_id; uaserver_host := uaserver_host;
         uaserver_client := uaserver_client |}.

Definition run_instances_from_credentials (W : World) (options : Options)
    (v : run_locals) : M unit :=
  '(username, password) ←
    (if truthy (admin_user options) && truthy (admin_pass options) then
       AppScaleLogger.log "Using the provided admin username/password" ;;
       mret (str_of (admin_user options), str_of (admin_pass options))
     else if test options then
       AppScaleLogger.log "Using default admin username/password" ;;
       mret (DEFAULT_USER W, DEFAULT_PASSWORD W)
     else
       call W get_credentials);
  call W (create_user_accounts username password (uaserver_host v)
            (keyname options)) ;;
  call W (set_admin_role (uaserver_client v) username) ;;
  call W (wait_for_machines_to_finish_loading (public_ip v) (keyname options)) ;;
  LocalState_update_local_metadata W options (layout v) (public_ip v)
    (instance_id v) ;;
  call W (copy_local_metadata (public_ip v) (keyname options) (verbose options)) ;;
  login_host ← call W (get_login_host (keyname options));
  call W (sleep_until_port_is_open login_host (APP_DASHBOARD_PORT W)
            (verbose options)) ;;
  AppScaleLogger.success "AppScale successfully started!" ;;
  login_host ← call W (get_login_host (keyname options));
  AppScaleLogger.success ("View status information about your AppScale " +:+
    "deployment at http://" +:+ login_host +:+ "/status") ;;
  call W (remote_log_tools_state options (my_id v) "finished" (APPSCALE_VERSION W)).

(** The three sources of the admin credentials. *)
Inductive credential_source : Type :=
| ExplicitFlags
| TestDefaults
| InteractivePrompt.

(** The source that the specification names for given options: the explicit
    flags when both are given, otherwise the defaults under the test flag,
    otherwise the prompt. *)
Definition spec_credential_source (o : Options) : credential_source :=
  if truthy (admin_user o) && truthy (admin_pass o) then ExplicitFlags
  else if test o then TestDefaults
  else InteractivePrompt.

(** The username and password of the first [create_user_accounts]. *)
Definition account_request (e : Event) : option (string * string) :=
  match e with
  | Called (create_user_accounts u p _ _) _ => Some (u, p)
  | _ => None
  end.

Definition created_account : list Event → option (string * string) :=
  first_answer account_request.

(** A call to [LocalState.get_credentials], the prompt. *)
Definition asks_credentials (e : Event) : bool :=
  match e with
  | Called get_credentials _ => true
  | _ => false
  end.

Definition credentials_answer (e : Event) : option (string * string) :=
  match e with
  | Called get_credentials (Ok c) => Some c
  | _ => None
  end.

Definition prompted_credentials : list Event → option (string * string) :=
  first_answer credentials_answer.

(** What the first part of [run_instances] does, whatever follows it. *)
Inductive until_credentials_outcome {B} (W : World) (o : Options)
    (k : run_locals → M B) (s0 : State) : Result B * State → Prop :=
| uc_failed e evs ps tr :
    tr = trace s0 ++ evs →
    created_account evs = None →
    existsb asks_credentials evs = false →
    (is_valid (NodeLayout W o) = true → existsb raised evs = true) →
    until_credentials_outcome W o k s0 (Raise e, {| paths := ps; trace := tr |})
| uc_continues v evs tr :
    tr = trace s0 ++ evs →
    (∀ rest, created_account (evs ++ rest) = created_account rest) →
    (∀ rest, prompted_credentials (evs ++ rest) = prompted_credentials rest) →
    (∀ rest, existsb asks_credentials (evs ++ rest) =
             existsb asks_credentials rest) →
    existsb raised evs = false →
    until_credentials_outcome W o k s0
      (k v {| paths := {[ get_locations_yaml_location W (keyname o) ]} ∪
                       ({[ get_locations_yaml_location W (keyname o) ]} ∪ paths s0);
              trace := tr |}).

(** The credentials in a trace agree with the source that the specification
    names for the options. *)
Definition credentials_from_source (W : World) (o : Options) (evs : list Event) :
    Prop :=
  match spec_credential_source o with
  | ExplicitFlags =>
      existsb asks_credentials evs = false ∧
      ∀ u p, created_account evs = Some (u, p) →
             admin_user o = Some u ∧ admin_pass o = Some p
  | TestDefaults =>
      existsb asks_credentials evs = false ∧
      ∀ u p, created_account evs = Some (u, p) →
             u = DEFAULT_USER W ∧ p = DEFAULT_PASSWORD W
  | InteractivePrompt =>
      ∀ u p, created_account evs = Some (u, p) →
             prompted_credentials evs = Some (u, p)
  end.

(** The account has been created with the credentials of the source that
    the specification names for the options; for the prompt, with what the
    prompt answered. *)
Definition credentials_used (W : World) (o : Options) (evs : list Event) : Prop :=
  match spec_credential_source o with
  | ExplicitFlags =>
      ∃ u p, admin_user o = Some u ∧ admin_pass o = Some p ∧
             created_account evs = Some (u, p)
  | TestDefaults =>
      created_account evs = Some (DEFAULT_USER W, DEFAULT_PASSWORD W)
  | InteractivePrompt =>
      ∃ c, prompted_credentials evs = Some c ∧ created_account evs = Some c
  end.

(** What the second part of [run_instances] does, from a state [s]. *)
Inductive from_credentials_outcome (W : World) (o : Options) (s : State) :
    Result unit * State → Prop :=
| fc_done r evs ps tr :
    tr = trace s ++ evs →
    credentials_from_source W o evs →
    (r = Ok tt →
     is_Some (created_account evs) ∧
     ps = {[ get_locations_yaml_location W (keyname o) ]} ∪ paths s) →
    (existsb raised evs = false → r = Ok tt ∧ credentials_used W o evs) →
    from_credentials_outcome W o s (r, {| paths := ps; trace := tr |}).

(** ** Scenarios

    Concrete worlds, for running the methods on examples. *)

(** An answer for every call, used where a scenario says nothing else. *)
Definition usual_answer {T} (c : Call T) : T :=
  match c in Call T return T with
  | make_appscale_directory => tt
  | ensure_appscale_isnt_running _ _ => tt
  | get_from_yaml _ _ => "xen"
  | get_login_host _ => "192.168.1.1"
  | get_secret_key _ => "the-secret"
  | get_infrastructure _ => "xen"
  | get_credentials => ("admin@example.com", "prompted")
  | get_username_from_stdin _ => "user@example.com"
  | get_password_from_stdin => "prompted"
  | update_local_metadata _ _ _ _ => tt
  | cleanup_appscale_files _ => tt
  | extract_app_to_dir _ _ => "/tmp/appscale-app-1a2b3c4d"
  | ssh _ _ _ _ => tt
  | start_head_node _ _ _ => ("192.168.1.1", "i-000001")
  | copy_local_metadata _ _ _ => tt
  | sleep_until_port_is_open _ _ _ => tt
  | create_user_accounts _ _ _ _ => tt
  | wait_for_machines_to_finish_loading _ _ => tt
  | terminate_cloud_infrastructure _ _ => tt
  | terminate_virtualized_cluster _ _ => tt
  | copy_app_to_host _ _ _ => "/var/apps/guestbook/app.tar.gz"
  | scp_remote_to_local _ _ _ _ _ => tt
  | start_roles_on_nodes _ _ => tt
  | get_all_public_ips _ => ["192.168.1.1"; "192.168.1.2"; "192.168.1.3"]
  | get_status acc => "Node " +:+ acc_host acc +:+ " is up"
  | get_uaserver_host _ _ => "192.168.1.2"
  | done_uploading _ _ _ => tt
  | update _ _ => tt
  | does_user_exist _ _ => true
  | does_app_exist _ _ => false
  | get_app_admin _ _ => None
  | reserve_app_id _ _ _ _ => tt
  | set_admin_role _ _ => tt
  | get_serving_info _ _ _ => ("192.168.1.3", 8080%Z)
  | get_app_id_from_app_config _ => "guestbook"
  | get_app_runtime_from_app_config _ => "python27"
  | validate_app_id _ => tt
  | remote_log_tools_state _ _ _ _ => tt
  | os_mkdir_call _ => tt
  | shutil_rmtree_call _ => tt
  | time_sleep _ => tt
  | uuid4 => "0f8fad5b-d9cb-469f-a165-70867728950e"
  end.

(** What a scenario changes: the owner that the registry reports and whether
    the application exists, the nodes that do not answer a status query,
    and whether the teardown of a virtualized cluster and the look-up of the
    secret key raise. *)
Record scenario : Type := {
  registered_owner : option string;
  app_registered : bool;
  unreachable : list string;
  teardown_raises : bool;
  secret_missing : bool
}.

Definition scenario_respond (sc : scenario) (T : Type) (s : State) (c : Call T) :
    Result T :=
  match c in Call T return Result T with
  | get_app_admin _ _ => Ok (registered_owner sc)
  | does_app_exist _ _ => Ok (app_registered sc)
  | get_status acc =>
      if bool_decide (acc_host acc ∈ unreachable sc)
      then Raise (OtherException "socket.error" "[Errno 111] Connection refused")
      else Ok (usual_answer (get_status acc))
  | terminate_virtualized_cluster k v =>
      if teardown_raises sc
      then Raise (OtherException "ShellException" "Could not stop AppScale")
      else Ok tt
  | get_secret_key k =>
      if secret_missing sc
      then Raise (OtherException "IOError" "[Errno 2] No such file or directory")
      else Ok (usual_answer (get_secret_key k))
  | c' => Ok (usual_answer c')
  end.

(** The world of a scenario.  Its dicts list their values in the reverse of
    the order of [map_to_list]: one of the orders that a dict can have. *)
Definition scenario_world (sc : scenario) : World := {|
  APPSCALE_VERSION := "1.6.9";
  DEFAULT_USER := "a@a.a";
  DEFAULT_PASSWORD := "aaaaaa";
  VALID_AGENTS := ["ec2"; "euca"];
  UserAppClient_PORT := 4343;
  APP_DASHBOARD_PORT := 80;
  get_locations_yaml_location := λ k, "~/.appscale/locations-" +:+ k +:+ ".yaml";
  json_dumps := λ m, "{}";
  dict_values := λ m, reverse (map snd (map_to_list m));
  dict_values_perm := λ m, reverse_Permutation (map snd (map_to_list m));
  NodeLayout := λ _, {| is_valid := true; errors := "[]"; is_supported := true |};
  respond := scenario_respond sc
|}.

Definition calm : scenario := {|
  registered_owner := None; app_registered := false; unreachable := [];
  teardown_raises := false; secret_missing := false
|}.

Definition some_options : Options := {|
  ips := ∅; keyname := "appscale"; verbose := false; location := "/tmp/logs";
  infrastructure := None; force := false; admin_user := None;
  admin_pass := None; test := true; file := "guestbook.tar.gz";
  email := None; other_flags := ∅
|}.

(** Both admin flags are given, and the test flag is set too. *)
Definition flag_options : Options := {|
  ips := ∅; keyname := "appscale"; verbose := false; location := "/tmp/logs";
  infrastructure := None; force := false;
  admin_user := Some "boss@example.com"; admin_pass := Some "chosen";
  test := true; file := "guestbook.tar.gz"; email := None; other_flags := ∅
|}.

(** Neither the admin flags nor the test flag. *)
Definition prompt_options : Options := {|
  ips := ∅; keyname := "appscale"; verbose := false; location := "/tmp/logs";
  infrastructure := None; force := false; admin_user := None;
  admin_pass := None; test := false; file := "guestbook.tar.gz";
  email := None; other_flags := ∅
|}.

Definition fresh_state : State := {| paths := ∅; trace := [] |}.

(** The registry knows the application and somebody else owns it. *)
Definition foreign_owner : scenario := {|
  registered_owner := Some "bob@example.com"; app_registered := true;
  unreachable := []; teardown_raises := false; secret_missing := false
|}.

(** The teardown of the virtualized cluster raises. *)
Definition stuck_teardown : scenario := {|
  registered_owner := None; app_registered := false; unreachable := [];
  teardown_raises := true; secret_missing := false
|}.

(** Two of the three nodes do not answer. *)
Definition two_unreachable : scenario := {|
  registered_owner := None; app_registered := false;
  unreachable := ["192.168.1.2"; "192.168.1.3"];
  teardown_raises := false; secret_missing := false
|}.

(** Options that ask for a master node. *)
Definition master_options : Options := {|
  ips := {[ "master" := "192.168.1.9" ]}; keyname := "appscale";
  verbose := false; location := "/tmp/logs"; infrastructure := None;
  force := false; admin_user := None; admin_pass := None; test := true;
  file := "guestbook.tar.gz"; email := None; other_flags := ∅
|}.

(** The secret key of the deployment cannot be read. *)
Definition no_secret : scenario := {|
  registered_owner := None; app_registered := false; unreachable := [];
  teardown_raises := false; secret_missing := true
|}.

(** A state in which the destination of [gather_logs] exists. *)
Definition logs_exist : State := {| paths := {[ "/tmp/logs" ]}; trace := [] |}.

(** A teardown call that raised. *)
Definition teardown_raised (e : Event) : bool :=
  match e with
  | Called (terminate_cloud_infrastructure _ _) (Raise _) => true
  | Called (terminate_virtualized_cluster _ _) (Raise _) => true
  | _ => false
  end.

(** The exception of a teardown call that raised. *)
Definition teardown_exception (e : Event) : option exn :=
  match e with
  | Called (terminate_cloud_infrastructure _ _) (Raise x) => Some x
  | Called (terminate_virtualized_cluster _ _) (Raise x) => Some x
  | _ => None
  end.

Definition teardown_failure : list Event → option exn :=
  first_answer teardown_exception.

(** ** Further observations of a trace *)

(** The body of the loop of [add_instances]: the SSH probe of one address. *)
Definition add_instances_probe (W : World) (options : Options) (ip : string) :
    M unit :=
  call W (ssh ip (keyname options) "ls" (verbose options)).

(** An SSH probe. *)
Definition probes (e : Event) : bool :=
  match e with
  | Called (ssh _ _ _ _) _ => true
  | _ => false
  end.

(** The request to start roles on nodes. *)
Definition requests_roles (e : Event) : bool :=
  match e with
  | Called (start_roles_on_nodes _ _) _ => true
  | _ => false
  end.

(** The local directory that [gather_logs] fills for a node. *)
Definition local_dir (options : Options) (ip : string) : string :=
  location options +:+ "/" +:+ ip.

(** What the loop of [gather_logs] records when every node is fetched. *)
Definition fetched (options : Options) (ip : string) : list Event :=
  [Called (os_mkdir_call (local_dir options ip)) (Ok tt);
   Called (scp_remote_to_local ip (keyname options) "/var/log/appscale"
             (local_dir options ip) (verbose options)) (Ok tt)].

(** A call to [cleanup_appscale_files]. *)
Definition cleans_up (e : Event) : bool :=
  match e with
  | Called (cleanup_appscale_files _) _ => true
  | _ => false
  end.

(** A teardown call that returned. *)
Definition teardown_returned (e : Event) : bool :=
  match e with
  | Called (terminate_cloud_infrastructure _ _) (Ok _) => true
  | Called (terminate_virtualized_cluster _ _) (Ok _) => true
  | _ => false
  end.

(** The teardown call that [terminate_instances] makes for an
    infrastructure: the cloud one for the agents of the factory, the
    virtualized one for everything else. *)
Definition teardown_for (W : World) (o : Options) (infra : string) : Event :=
  if bool_decide (infra ∈ VALID_AGENTS W)
  then Called (terminate_cloud_infrastructure (keyname o) (verbose o)) (Ok tt)
  else Called (terminate_virtualized_cluster (keyname o) (verbose o)) (Ok tt).

(** A look-up, the list of addresses, a status query or a printed line:
    what [describe_instances] may do. *)
Definition only_reads (e : Event) : bool :=
  match e with
  | Called (get_login_host _) _ => true
  | Called (get_secret_key _) _ => true
  | Called (get_all_public_ips _) _ => true
  | Called (get_status _) _ => true
  | Logged _ _ => true
  | _ => false
  end.

(** A call to [start_head_node]. *)
Definition starts_head_node (e : Event) : bool :=
  match e with
  | Called (start_head_node _ _ _) _ => true
  | _ => false
  end.

(** An [update_local_metadata] that returned. *)
Definition metadata_saved (e : Event) : bool :=
  match e with
  | Called (update_local_metadata _ _ _ _) (Ok _) => true
  | _ => false
  end.

(** A call to the controller for the address of the registry. *)
Definition asks_controller (e : Event) : bool :=
  match e with
  | Called (get_uaserver_host _ _) _ => true
  | _ => false
  end.

(** The username of the first [set_admin_role]. *)
Definition admin_request (e : Event) : option string :=
  match e with
  | Called (set_admin_role _ u) _ => Some u
  | _ => None
  end.

Definition granted_admin : list Event → option string :=
  first_answer admin_request.

(** A call to [update_local_metadata]. *)
Definition writes_metadata (e : Event) : bool :=
  match e with
  | Called (update_local_metadata _ _ _ _) _ => true
  | _ => false
  end.

(** What [run_instances] does before it looks at the layout, when nothing
    raises: it makes the AppScale directory, checks that no deployment is
    running, prints the line that says what it starts, and reports the
    start under a fresh identifier. *)
Definition before_layout (W : World) (o : Options) (id : string) : list Event :=
  [Called make_appscale_directory (Ok tt);
   Called (ensure_appscale_isnt_running (keyname o) (force o)) (Ok tt);
   Logged LOG (if truthy (infrastructure o)
               then "Starting AppScale " +:+ APPSCALE_VERSION W +:+
                    " over the " +:+ str_of (infrastructure o) +:+ " cloud."
               else "Starting AppScale " +:+ APPSCALE_VERSION W +:+
                    " over a virtualized cluster.");
   Called uuid4 (Ok id);
   Called (remote_log_tools_state o id "started" (APPSCALE_VERSION W)) (Ok tt)].

(** The message of the error that [run_instances] raises for a layout that
    is not valid. *)
Definition layout_message (W : World) (o : Options) : string :=
  "There were errors with your " +:+ "placement strategy:" +:+ nl +:+
  errors (NodeLayout W o).

(** What the first part of [run_instances] does, in more detail than
    [until_credentials_outcome]. *)
Inductive run_prefix_outcome {B} (W : World) (o : Options)
    (k : run_locals → M B) (s0 : State) : Result B * State → Prop :=
| rp_failed e evs ps tr :
    tr = trace s0 ++ evs →
    (is_valid (NodeLayout W o) = false →
     existsb starts_head_node evs = false ∧
     existsb writes_metadata evs = false ∧
     (existsb raised evs = false →
      e = BadConfigurationException (layout_message W o) ∧
      ∃ id, evs = before_layout W o id)) →
    (is_valid (NodeLayout W o) = true →
     ∃ T (c : Call T), last evs = Some (Called c (Raise e))) →
    (existsb metadata_saved evs = true →
     get_locations_yaml_location W (keyname o) ∈ ps) →
    (existsb asks_controller evs = true → existsb metadata_saved evs = true) →
    created_account evs = None →
    run_prefix_outcome W o k s0 (Raise e, {| paths := ps; trace := tr |})
| rp_continues v evs tr :
    tr = trace s0 ++ evs →
    is_valid (NodeLayout W o) = true →
    existsb raised evs = false →
    existsb metadata_saved evs = true →
    existsb warns evs = negb (is_supported (NodeLayout W o)) →
    (∀ rest, granted_admin (evs ++ rest) = granted_admin rest) →
    (∀ rest, created_account (evs ++ rest) = created_account rest) →
    run_prefix_outcome W o k s0
      (k v {| paths := {[ get_locations_yaml_location W (keyname o) ]} ∪
                       ({[ get_locations_yaml_location W (keyname o) ]} ∪ paths s0);
              trace := tr |}).

(** What the second part of [run_instances] does, in more detail than
    [from_credentials_outcome]. *)
Inductive run_suffix_outcome (W : World) (o : Options) (s : State) :
    Result unit * State → Prop :=
| rs_done r evs ps tr :
    tr = trace s ++ evs →
    (existsb raised evs = false → r = Ok tt) →
    (∀ e, r = Raise e → ∃ T (c : Call T), last evs = Some (Called c (Raise e))) →
    (ps = paths s ∨
     ps = {[ get_locations_yaml_location W (keyname o) ]} ∪ paths s) →
    existsb warns evs = false →
    existsb asks_controller evs = false →
    (∀ u p u', created_account evs = Some (u, p) →
               granted_admin evs = Some u' → u' = u) →
    run_suffix_outcome W o s (r, {| paths := ps; trace := tr |}).

(** The username of the first [does_user_exist], and its answer. *)
Definition user_request (e : Event) : option string :=
  match e with
  | Called (does_user_exist _ u) _ => Some u
  | _ => None
  end.

Definition user_answer (e : Event) : option bool :=
  match e with
  | Called (does_user_exist _ _) (Ok b) => Some b
  | _ => None
  end.

Definition asked_user : list Event → option string := first_answer user_request.
Definition user_known : list Event → option bool := first_answer user_answer.

(** The password that the prompt answered. *)
Definition password_answer (e : Event) : option string :=
  match e with
  | Called get_password_from_stdin (Ok p) => Some p
  | _ => None
  end.

Definition prompted_password : list Event → option string :=
  first_answer password_answer.

Definition creates_account (e : Event) : bool :=
  match e with
  | Called (create_user_accounts _ _ _ _) _ => true
  | _ => false
  end.

Definition prompts_username (e : Event) : bool :=
  match e with
  | Called (get_username_from_stdin _) _ => true
  | _ => false
  end.

Definition prompts_password (e : Event) : bool :=
  match e with
  | Called get_password_from_stdin _ => true
  | _ => false
  end.

Definition extracts (e : Event) : bool :=
  match e with
  | Called (extract_app_to_dir _ _) _ => true
  | _ => false
  end.

Definition removes_tree (e : Event) : bool :=
  match e with
  | Called (shutil_rmtree_call _) _ => true
  | _ => false
  end.

Definition reserves (e : Event) : bool :=
  match e with
  | Called (reserve_app_id _ _ _ _) _ => true
  | _ => false
  end.

(** What the first part of [upload_app] has done about the user and about
    the bundle when it ends, by an exception or not. *)
Record user_facts (W : World) (o : Options) (evs : list Event) : Prop := {
  uf_resolved : ∀ u, asked_user evs = Some u → resolved_username W o evs = Some u;
  uf_no_prompt :
    test o || truthy (email o) = true → existsb prompts_username evs = false;
  uf_known :
    user_known evs = Some true →
    existsb creates_account evs = false ∧ existsb prompts_password evs = false;
  uf_created :
    ∀ u p, created_account evs = Some (u, p) →
           user_known evs = Some false ∧ asked_user evs = Some u ∧
           prompted_password evs = Some p;
  uf_directory :
    search TAR_GZ_REGEX (file o) = false → existsb extracts evs = false;
  uf_early :
    existsb removes_tree evs = false ∧ existsb reserves evs = false
}.

(** The first part of [upload_app], in more detail than
    [until_owner_outcome]. *)
Inductive upload_prefix_outcome {B} (W : World) (o : Options)
    (k : upload_locals → M B) (s0 : State) : Result B * State → Prop :=
| upf_failed e evs ps tr :
    tr = trace s0 ++ evs →
    user_facts W o evs →
    (search TAR_GZ_REGEX (file o) = false → ps = paths s0) →
    upload_prefix_outcome W o k s0 (Raise e, {| paths := ps; trace := tr |})
| upf_continues v evs ps tr :
    tr = trace s0 ++ evs →
    user_facts W o evs →
    ps = (if created_dir v then {[ file_location v ]} ∪ paths s0 else paths s0) →
    created_dir v = search TAR_GZ_REGEX (file o) →
    (∀ rest, asked_user (evs ++ rest) = asked_user evs) →
    (∀ rest, user_known (evs ++ rest) = user_known evs) →
    (∀ rest, resolved_username W o (evs ++ rest) = resolved_username W o evs) →
    (existsb creates_account evs = false →
     ∀ rest, created_account (evs ++ rest) = created_account rest) →
    (existsb creates_account evs = true →
     ∀ rest, created_account (evs ++ rest) = created_account evs ∧
             prompted_password (evs ++ rest) = prompted_password evs) →
    (∀ rest, app_existed (evs ++ rest) = Some (app_exists v)) →
    upload_prefix_outcome W o k s0 (k v {| paths := ps; trace := tr |}).

(** An event of the second part of [upload_app]: none of what the first part
    does about the user and the bundle. *)
Definition late (e : Event) : bool :=
  negb (creates_account e || prompts_username e || prompts_password e ||
        extracts e).

(** The second part of [upload_app], in more detail than
    [from_owner_outcome]. *)
Inductive upload_suffix_outcome (o : Options) (v : upload_locals) (s : State) :
    Result (string * Z) * State → Prop :=
| ups_done r evs ps tr :
    tr = trace s ++ evs →
    forallb late evs = true →
    (created_dir v = false → ps = paths s ∧ existsb removes_tree evs = false) →
    (app_exists v = true → existsb reserves evs = false) →
    upload_suffix_outcome o v s (r, {| paths := ps; trace := tr |}).

(** * The methods that talk to the operator: [add_keypair], [remove_app],
    [reset_password]

    These three methods call collaborators that the six methods above do not
    ([raw_input], [getpass], [LocalState.shell], [RemoteHelper.scp], ...), and
    they read options that the others do not.  They are embedded in the same
    way, over a larger type of calls; they do not touch the local paths that
    the state above holds, so that their state is the trace alone. *)

(** The options of the three methods: the ones above, and [appname],
    [confirm], [auto], [add_to_existing] and [root_password], which is [None]
    when the [Namespace] has no such attribute. *)
Record MoreOptions : Type := {
  common : Options;
  appname : string;
  confirm : bool;
  auto : bool;
  add_to_existing : bool;
  root_password : option string
}.

(** The calls of the three methods: the calls above, and the new ones. *)
Inductive MoreCall : Type → Type :=
| known {T} (c : Call T) : MoreCall T
(* LocalState *)
| require_ssh_commands (auto verbose : bool) : MoreCall unit
| generate_rsa_key (keyname : string) (verbose : bool) : MoreCall (string * string)
| shell (command : string) (verbose : bool) : MoreCall unit
| get_credentials_as (is_admin : bool) : MoreCall (string * string)
| encrypt_password (username password : string) : MoreCall string
(* RemoteHelper *)
| scp (ip keyname source dest : string) (verbose : bool) : MoreCall unit
(* AppControllerClient *)
| stop_app (acc : AppControllerClient) (appname : string) : MoreCall unit
| is_app_running (acc : AppControllerClient) (appname : string) : MoreCall bool
(* UserAppClient *)
| change_password (uac : UserAppClient) (username encrypted : string) : MoreCall unit
(* getpass, raw_input *)
| getpass : MoreCall string
| raw_input (prompt : string) : MoreCall string.

Inductive MoreEvent : Type :=
| Did {T : Type} (c : MoreCall T) (r : Result T)
| Said (l : level) (msg : string).

(** The world of the three methods: the world above, the constants that
    [add_keypair] reads, the public addresses of the nodes of a layout, and
    the oracle, which answers a call given the trace so far. *)
Record MoreWorld : Type := {
  world : World;
  LOCAL_APPSCALE_PATH : string;
  module_dirname : string;
  os_sep : string;
  layout_public_ips : MoreOptions → list string;
  answer : ∀ T : Type, list MoreEvent → MoreCall T → Result T
}.

Definition MoreM (A : Type) : Type := list MoreEvent → Result A * list MoreEvent.

Global Instance MoreM_ret : MRet MoreM := λ A a tr, (Ok a, tr).

Global Instance MoreM_bind : MBind MoreM := λ A B f m tr,
  match m tr with
  | (Ok a, tr') => f a tr'
  | (Raise e, tr') => (Raise e, tr')
  end.

Definition more_raise {A} (e : exn) : MoreM A := λ tr, (Raise e, tr).

(** [try: m except Exception as e: h e], as [try_except] above. *)
Definition more_try_except {A} (m : MoreM A) (h : exn → MoreM A) : MoreM A := λ tr,
  match m tr with
  | (Ok a, tr') => (Ok a, tr')
  | (Raise e, tr') => if is_Exception e then h e tr' else (Raise e, tr')
  end.

Fixpoint more_for {A} (l : list A) (body : A → MoreM unit) : MoreM unit :=
  match l with
  | [] => mret tt
  | x :: l' => body x ;; more_for l' body
  end.

Definition said (l : level) (msg : string) : MoreM unit :=
  λ tr, (Ok tt, tr ++ [Said l msg]).

(** [sys.exit(status)] *)
Definition sys_exit {A} (status : Z) : MoreM A := more_raise (SystemExit status).

(** [SLEEP_TIME = 5] *)
Definition SLEEP_TIME : Z := 5.

(** [EXPECT_SCRIPT], from the directory of the module and [os.sep]. *)
Definition EXPECT_SCRIPT (dirname sep : string) : string :=
  dirname +:+ sep +:+ ".." +:+ sep +:+ "templates" +:+ sep +:+ "sshcopyid".

(** [response in ['y', 'yes', 'Y', 'YES']] *)
Definition says_yes (response : string) : bool :=
  bool_decide (response ∈ ["y"; "yes"; "Y"; "YES"]).

Section MoreTools.
Context (X : MoreWorld).

Definition more_call {T} (c : MoreCall T) : MoreM T := λ tr,
  let r := answer X T tr c in (r, tr ++ [Did c r]).

(** The [while True] loop of [remove_app], for at most [fuel] polls: [None]
    when the application is still running after that many. *)
Fixpoint wait_for_shutdown (fuel : nat) (acc : AppControllerClient)
    (appname : string) : MoreM (option unit) :=
  match fuel with
  | O => mret None
  | S fuel' =>
      running ← more_call (is_app_running acc appname);
      if running : bool then
        more_call (known (time_sleep SLEEP_TIME)) ;;
        wait_for_shutdown fuel' acc appname
      else mret (Some tt)
  end.

(** [add_keypair].  ['root_password' in options] holds when the [Namespace]
    has the attribute.  The source binds [password] under [options.auto]
    only, and reads it under [options.auto] only: without [auto] the model
    gives it the empty string, which nothing reads. *)
Definition add_keypair (options : MoreOptions) : MoreM unit :=
  let o := common options in
  more_call (require_ssh_commands (auto options) (verbose o)) ;;
  more_call (known make_appscale_directory) ;;
  let path := LOCAL_APPSCALE_PATH X +:+ keyname o in
  '(public_key, private_key) ←
    (if add_to_existing options then mret (path +:+ ".pub", path)
     else more_call (generate_rsa_key (keyname o) (verbose o)));
  password ←
    (if auto options then
       match root_password options with
       | Some given =>
           said LOG ("Using the provided root password to log into " +:+
                     "your VMs.") ;;
           mret given
       | None =>
           said LOG ("Please enter the password for the root user on" +:+
                     " your VMs:") ;;
           more_call getpass
       end
     else mret "");
  let layout := NodeLayout (world X) o in
  if negb (is_valid layout) then
    more_raise (BadConfigurationException ("There were problems with your " +:+
      "placement strategy: " +:+ errors layout))
  else
    let all_ips := layout_public_ips X options in
    more_for all_ips (λ ip,
      said LOG ("Executing ssh-copy-id for host: " +:+ ip) ;;
      (if auto options then
         more_call (shell (EXPECT_SCRIPT (module_dirname X) (os_sep X) +:+
                           " root@" +:+ ip +:+ " " +:+ private_key +:+ " " +:+
                           password) (verbose o))
       else
         more_call (shell ("ssh-copy-id -i " +:+ private_key +:+ " root@" +:+ ip)
                      (verbose o))) ;;
      more_call (scp ip (keyname o) public_key "/root/.ssh/id_rsa.pub"
                   (verbose o)) ;;
      more_call (scp ip (keyname o) private_key "/root/.ssh/id_rsa"
                   (verbose o))) ;;
    said SUCCESS ("Generated a new SSH key for this deployment " +:+
                  "at " +:+ private_key).

(** [remove_app], with [fuel] polls at most: it returns [None] when the
    application is still running after that many, where the source would
    go on polling. *)
Definition remove_app (fuel : nat) (options : MoreOptions) : MoreM (option unit) :=
  let o := common options in
  (if negb (confirm options) then
     response ← more_call (raw_input ("Are you sure you want to remove this " +:+
                                      "application? (Y/N) "));
     if negb (says_yes response) then
       more_raise (AppScaleException "Cancelled application removal.")
     else mret tt
   else mret tt) ;;
  login_host ← more_call (known (get_login_host (keyname o)));
  secret ← more_call (known (get_secret_key (keyname o)));
  let acc := {| acc_host := login_host; acc_secret := secret |} in
  userappserver_host ← more_call (known (get_uaserver_host acc (verbose o)));
  secret ← more_call (known (get_secret_key (keyname o)));
  let userappclient := {| uac_host := userappserver_host; uac_secret := secret |} in
  app_exists ← more_call (known (does_app_exist userappclient (appname options)));
  if negb app_exists then
    more_raise (AppScaleException "The given application is not currently running.")
  else
    more_call (stop_app acc (appname options)) ;;
    said LOG "Please wait for your app to shut down." ;;
    stopped ← wait_for_shutdown fuel acc (appname options);
    match stopped with
    | None => mret None
    | Some _ =>
        said SUCCESS ("Done shutting down " +:+ appname options) ;;
        mret (Some tt)
    end.

(** [reset_password].  [LocalState.get_credentials(is_admin=False)] is the
    call [get_credentials_as false]. *)
Definition reset_password (options : MoreOptions) : MoreM unit :=
  let o := common options in
  secret ← more_call (known (get_secret_key (keyname o)));
  '(username, password) ← more_call (get_credentials_as false);
  encrypted_password ← more_call (encrypt_password username password);
  login_host ← more_call (known (get_login_host (keyname o)));
  let acc := {| acc_host := login_host; acc_secret := secret |} in
  userappserver_ip ← more_call (known (get_uaserver_host acc (verbose o)));
  let uac := {| uac_host := userappserver_ip; uac_secret := secret |} in
  more_try_except
    (more_call (change_password uac username encrypted_password) ;;
     said SUCCESS ("The password was successfully changed for the " +:+
                   "given user."))
    (λ e,
       said WARN ("Could not change the user's password for the " +:+
                  "following reason: " +:+ str_exn e) ;;
       sys_exit 1).
End MoreTools.

(** ** Reading a trace of the three methods *)

Definition more_raised (e : MoreEvent) : bool :=
  match e with
  | Did _ (Raise _) => true
  | _ => false
  end.

Definition asks_operator (e : MoreEvent) : bool :=
  match e with
  | Did (raw_input _) _ => true
  | _ => false
  end.

Definition stops_app (e : MoreEvent) : bool :=
  match e with
  | Did (stop_app _ _) _ => true
  | _ => false
  end.

(** The answer of the first [does_app_exist]. *)
Definition more_app_exists_answer (e : MoreEvent) : option bool :=
  match e with
  | Did (known (does_app_exist _ _)) (Ok b) => Some b
  | _ => None
  end.

Definition registry_knows_app (evs : list MoreEvent) : option bool :=
  head (omap more_app_exists_answer evs).

(** One round of the loop of [remove_app] in which the application is still
    running: the poll and the sleep. *)
Definition still_running (acc : AppControllerClient) (appname : string) :
    list MoreEvent :=
  [Did (is_app_running acc appname) (Ok true);
   Did (known (time_sleep SLEEP_TIME)) (Ok tt)].

(** [n] such rounds. *)
Fixpoint rounds (n : nat) (acc : AppControllerClient) (appname : string) :
    list MoreEvent :=
  match n with
  | O => []
  | S n' => still_running acc appname ++ rounds n' acc appname
  end.

(** The events that a method has added to a trace. *)
Definition added (tr0 tr1 : list MoreEvent) : list MoreEvent :=
  drop (length tr0) tr1.

(** The question of [remove_app]. *)
Definition removal_question : string :=
  "Are you sure you want to remove this " +:+ "application? (Y/N) ".

Definition unknown_app_message : string :=
  "The given application is not currently running.".

(** What [remove_app] has done when it reaches [stop_app]: it has asked the
    operator exactly when [confirm] is not set, the answer was a yes, and
    the registry knows the application. *)
Record before_stop (o : MoreOptions) (pre : list MoreEvent) : Prop := {
  bs_confirmed : confirm o = true → existsb asks_operator pre = false;
  bs_asked :
    confirm o = false →
    ∃ response, head pre = Some (Did (raw_input removal_question) (Ok response)) ∧
                says_yes response = true;
  bs_no_stop : existsb stops_app pre = false;
  bs_known : ∀ rest, registry_knows_app (pre ++ rest) = Some true
}.

(** The runs of [remove_app] with [fuel] polls at most. *)
Inductive remove_outcome (fuel : nat) (o : MoreOptions) (tr : list MoreEvent) :
    Result (option unit) * list MoreEvent → Prop :=
| ro_early e evs tr' :
    tr' = tr ++ evs →
    existsb stops_app evs = false →
    (confirm o = true → existsb asks_operator evs = false) →
    (registry_knows_app evs = Some false →
     e = AppScaleException unknown_app_message) →
    registry_knows_app evs ≠ Some true →
    remove_outcome fuel o tr (Raise e, tr')
| ro_stop_failed pre acc e tr' :
    before_stop o pre →
    tr' = tr ++ pre ++ [Did (stop_app acc (appname o)) (Raise e)] →
    remove_outcome fuel o tr (Raise e, tr')
| ro_done pre acc n tr' :
    before_stop o pre → n < fuel →
    tr' = tr ++ pre ++
          [Did (stop_app acc (appname o)) (Ok tt);
           Said LOG "Please wait for your app to shut down."] ++
          rounds n acc (appname o) ++
          [Did (is_app_running acc (appname o)) (Ok false);
           Said SUCCESS ("Done shutting down " +:+ appname o)] →
    remove_outcome fuel o tr (Ok (Some tt), tr')
| ro_out_of_fuel pre acc tr' :
    before_stop o pre →
    tr' = tr ++ pre ++
          [Did (stop_app acc (appname o)) (Ok tt);
           Said LOG "Please wait for your app to shut down."] ++
          rounds fuel acc (appname o) →
    remove_outcome fuel o tr (Ok None, tr')
| ro_wait_failed pre acc n e final tr' :
    before_stop o pre → n < fuel →
    final = [Did (is_app_running acc (appname o)) (Raise e)] ∨
    final = [Did (is_app_running acc (appname o)) (Ok true);
             Did (known (time_sleep SLEEP_TIME)) (Raise e)] →
    tr' = tr ++ pre ++
          [Did (stop_app acc (appname o)) (Ok tt);
           Said LOG "Please wait for your app to shut down."] ++
          rounds n acc (appname o) ++ final →
    remove_outcome fuel o tr (Raise e, tr').

(** ** [reset_password] and [add_keypair] *)

(** The username and password of the first [change_password]. *)
Definition password_change (e : MoreEvent) : option (string * string) :=
  match e with
  | Did (change_password _ u p) _ => Some (u, p)
  | _ => None
  end.

(** The credentials that the operator gave. *)
Definition credentials_given (e : MoreEvent) : option (string * string) :=
  match e with
  | Did (get_credentials_as _) (Ok c) => Some c
  | _ => None
  end.

(** An encryption: the username, the password and the answer. *)
Definition encryption (e : MoreEvent) : option (string * string * string) :=
  match e with
  | Did (encrypt_password u p) (Ok enc) => Some (u, p, enc)
  | _ => None
  end.

Definition first_of {A} (f : MoreEvent → option A) (evs : list MoreEvent) :
    option A :=
  head (omap f evs).

(** A [change_password] that raised. *)
Definition change_refused (e : MoreEvent) : option exn :=
  match e with
  | Did (change_password _ _ _) (Raise x) => Some x
  | _ => None
  end.

(** A [change_password] that returned. *)
Definition change_accepted (e : MoreEvent) : bool :=
  match e with
  | Did (change_password _ _ _) (Ok _) => true
  | _ => false
  end.

Definition changes_password (e : MoreEvent) : bool :=
  match e with
  | Did (change_password _ _ _) _ => true
  | _ => false
  end.

(** The body of the loop of [add_keypair], for the keys and the password
    that the method has by then. *)
Definition add_keypair_host (X : MoreWorld) (options : MoreOptions)
    (public_key private_key password ip : string) : MoreM unit :=
  let o := common options in
  said LOG ("Executing ssh-copy-id for host: " +:+ ip) ;;
  (if auto options then
     more_call X (shell (EXPECT_SCRIPT (module_dirname X) (os_sep X) +:+
                         " root@" +:+ ip +:+ " " +:+ private_key +:+ " " +:+
                         password) (verbose o))
   else
     more_call X (shell ("ssh-copy-id -i " +:+ private_key +:+ " root@" +:+ ip)
                    (verbose o))) ;;
  more_call X (scp ip (keyname o) public_key "/root/.ssh/id_rsa.pub"
                 (verbose o)) ;;
  more_call X (scp ip (keyname o) private_key "/root/.ssh/id_rsa"
                 (verbose o)).

(** The command that copies the key to a host. *)
Definition copy_id_command (X : MoreWorld) (options : MoreOptions)
    (private_key password ip : string) : string :=
  if auto options then
    EXPECT_SCRIPT (module_dirname X) (os_sep X) +:+
    " root@" +:+ ip +:+ " " +:+ private_key +:+ " " +:+ password
  else "ssh-copy-id -i " +:+ private_key +:+ " root@" +:+ ip.

(** What [add_keypair] records for a host that it sets up. *)
Definition host_setup (X : MoreWorld) (options : MoreOptions)
    (public_key private_key password ip : string) : list MoreEvent :=
  [Said LOG ("Executing ssh-copy-id for host: " +:+ ip);
   Did (shell (copy_id_command X options private_key password ip)
          (verbose (common options))) (Ok tt);
   Did (scp ip (keyname (common options)) public_key "/root/.ssh/id_rsa.pub"
          (verbose (common options))) (Ok tt);
   Did (scp ip (keyname (common options)) private_key "/root/.ssh/id_rsa"
          (verbose (common options))) (Ok tt)].

(** A command on a host or a copy to a host. *)
Definition touches_host (e : MoreEvent) : bool :=
  match e with
  | Did (shell _ _) _ => true
  | Did (scp _ _ _ _ _) _ => true
  | _ => false
  end.

Definition asks_password (e : MoreEvent) : bool :=
  match e with
  | Did getpass _ => true
  | _ => false
  end.

Definition generates_key (e : MoreEvent) : bool :=
  match e with
  | Did (generate_rsa_key _ _) _ => true
  | _ => false
  end.

(** [add_keypair] in two parts: up to the password, and from the layout on.
    The first part hands the keys and the password to the second one. *)
Definition add_keypair_until_hosts {A} (X : MoreWorld) (options : MoreOptions)
    (k : string → string → string → MoreM A) : MoreM A :=
  let o := common options in
  more_call X (require_ssh_commands (auto options) (verbose o)) ;;
  more_call X (known make_appscale_directory) ;;
  let path := LOCAL_APPSCALE_PATH X +:+ keyname o in
  '(public_key, private_key) ←
    (if add_to_existing options then mret (path +:+ ".pub", path)
     else more_call X (generate_rsa_key (keyname o) (verbose o)));
  password ←
    (if auto options then
       match root_password options with
       | Some given =>
           said LOG ("Using the provided root password to log into " +:+
                     "your VMs.") ;;
           mret given
       | None =>
           said LOG ("Please enter the password for the root user on" +:+
                     " your VMs:") ;;
           more_call X getpass
       end
     else mret "");
  k public_key private_key password.

Definition add_keypair_hosts (X : MoreWorld) (options : MoreOptions)
    (public_key private_key password : string) : MoreM unit :=
  let layout := NodeLayout (world X) (common options) in
  if negb (is_valid layout) then
    more_raise (BadConfigurationException ("There were problems with your " +:+
      "placement strategy: " +:+ errors layout))
  else
    let all_ips := layout_public_ips X options in
    more_for all_ips (add_keypair_host X options public_key private_key password) ;;
    said SUCCESS ("Generated a new SSH key for this deployment " +:+
                  "at " +:+ private_key).

(** What [add_keypair] records for the keys: nothing when it adds to an
    existing deployment, the generation of the pair otherwise. *)
Definition key_events (options : MoreOptions) (public_key private_key : string) :
    list MoreEvent :=
  if add_to_existing options then []
  else [Did (generate_rsa_key (keyname (common options))
               (verbose (common options))) (Ok (public_key, private_key))].

(** What [add_keypair] records for the password. *)
Definition password_events (options : MoreOptions) (password : string) :
    list MoreEvent :=
  if auto options then
    match root_password options with
    | Some _ =>
        [Said LOG ("Using the provided root password to log into " +:+
                   "your VMs.")]
    | None =>
        [Said LOG ("Please enter the password for the root user on" +:+
                   " your VMs:");
         Did getpass (Ok password)]
    end
  else [].

(** The keys of a deployment that exists. *)
Definition existing_keys (X : MoreWorld) (options : MoreOptions) : string * string :=
  let path := LOCAL_APPSCALE_PATH X +:+ keyname (common options) in
  (path +:+ ".pub", path).

(** ** Further scenarios *)

(** A world with another oracle, and one with another layout. *)
Definition with_respond (W : World)
    (r : ∀ T : Type, State → Call T → Result T) : World := {|
  APPSCALE_VERSION := APPSCALE_VERSION W;
  DEFAULT_USER := DEFAULT_USER W;
  DEFAULT_PASSWORD := DEFAULT_PASSWORD W;
  VALID_AGENTS := VALID_AGENTS W;
  UserAppClient_PORT := UserAppClient_PORT W;
  APP_DASHBOARD_PORT := APP_DASHBOARD_PORT W;
  get_locations_yaml_location := get_locations_yaml_location W;
  json_dumps := json_dumps W;
  dict_values := dict_values W;
  dict_values_perm := dict_values_perm W;
  NodeLayout := NodeLayout W;
  respond := r
|}.

Definition with_layout (W : World) (l : Options → node_layout) : World := {|
  APPSCALE_VERSION := APPSCALE_VERSION W;
  DEFAULT_USER := DEFAULT_USER W;
  DEFAULT_PASSWORD := DEFAULT_PASSWORD W;
  VALID_AGENTS := VALID_AGENTS W;
  UserAppClient_PORT := UserAppClient_PORT W;
  APP_DASHBOARD_PORT := APP_DASHBOARD_PORT W;
  get_locations_yaml_location := get_locations_yaml_location W;
  json_dumps := json_dumps W;
  dict_values := dict_values W;
  dict_values_perm := dict_values_perm W;
  NodeLayout := l;
  respond := respond W
|}.

(** No address answers an SSH probe. *)
Definition no_route_respond (T : Type) (s : State) (c : Call T) : Result T :=
  match c in Call T return Result T with
  | ssh _ _ _ _ =>
      Raise (OtherException "ShellException" "ssh: No route to host")
  | c' => scenario_respond calm _ s c'
  end.

Definition no_route_world : World :=
  with_respond (scenario_world calm) no_route_respond.

(** A status query exits the interpreter. *)
Definition exiting_respond (T : Type) (s : State) (c : Call T) : Result T :=
  match c in Call T return Result T with
  | get_status _ => Raise (SystemExit 1)
  | c' => scenario_respond calm _ s c'
  end.

Definition exiting_world : World :=
  with_respond (scenario_world calm) exiting_respond.

(** The layout of the nodes is not valid. *)
Definition invalid_layout_world : World :=
  with_layout (scenario_world calm)
    (λ _, {| is_valid := false; errors := "['No master was specified']";
             is_supported := true |}).

(** The registry knows the application, and the default user owns it. *)
Definition own_app : scenario := {|
  registered_owner := Some "a@a.a"; app_registered := true;
  unreachable := []; teardown_raises := false; secret_missing := false
|}.

(** Options that ask for two more nodes. *)
Definition new_nodes_options : Options := {|
  ips := {[ "appengine" := "192.168.1.4"; "database" := "192.168.1.5" ]};
  keyname := "appscale"; verbose := false; location := "/tmp/logs";
  infrastructure := None; force := false; admin_user := None;
  admin_pass := None; test := true; file := "guestbook.tar.gz";
  email := None; other_flags := ∅
|}.

(** Options whose file is a directory. *)
Definition directory_options : Options := {|
  ips := ∅; keyname := "appscale"; verbose := false; location := "/tmp/logs";
  infrastructure := None; force := false; admin_user := None;
  admin_pass := None; test := true; file := "guestbook";
  email := None; other_flags := ∅
|}.

(** A state in which the record of the deployment exists. *)
Definition deployed_state : State := {|
  paths := {[ "~/.appscale/locations-appscale.yaml" ]}; trace := []
|}.

(** An answer for every call of the three methods. *)
Definition more_usual_answer {T} (c : MoreCall T) : T :=
  match c in MoreCall T return T with
  | known c' => usual_answer c'
  | require_ssh_commands _ _ => tt
  | generate_rsa_key k _ =>
      ("~/.appscale/" +:+ k +:+ ".pub", "~/.appscale/" +:+ k +:+ ".key")
  | shell _ _ => tt
  | get_credentials_as _ => ("user@example.com", "new-password")
  | encrypt_password u p => "sha1:" +:+ u +:+ p
  | scp _ _ _ _ _ => tt
  | stop_app _ _ => tt
  | is_app_running _ _ => false
  | change_password _ _ _ => tt
  | getpass => "root-password"
  | raw_input _ => "yes"
  end.

(** A poll of [is_app_running]. *)
Definition polls_app (e : MoreEvent) : bool :=
  match e with
  | Did (is_app_running _ _) _ => true
  | _ => false
  end.

(** What a scenario of the three methods changes: the answer of the
    operator, the registry, the number of polls that find the application
    running, and whether the registry refuses a change of password. *)
Record more_scenario : Type := {
  operator_answer : string;
  registry : scenario;
  busy_polls : nat;
  change_is_refused : bool
}.

Definition more_scenario_answer (sc : more_scenario) (T : Type)
    (tr : list MoreEvent) (c : MoreCall T) : Result T :=
  match c in MoreCall T return Result T with
  | known c' => scenario_respond (registry sc) _ fresh_state c'
  | raw_input _ => Ok (operator_answer sc)
  | is_app_running _ _ =>
      Ok (bool_decide (length (List.filter polls_app tr) < busy_polls sc))
  | change_password _ _ _ =>
      if change_is_refused sc
      then Raise (AppScaleException "The given user does not exist.")
      else Ok tt
  | c' => Ok (more_usual_answer c')
  end.

Definition more_world (sc : more_scenario) (W : World) : MoreWorld := {|
  world := W;
  LOCAL_APPSCALE_PATH := "~/.appscale/";
  module_dirname := "/usr/local/appscale-tools/lib";
  os_sep := "/";
  layout_public_ips := λ _, ["192.168.1.1"; "192.168.1.2"];
  answer := more_scenario_answer sc
|}.

(** The operator agrees, the registry knows the application, which stops
    after two polls, and accepts a change of password. *)
Definition agreeable : more_scenario := {|
  operator_answer := "yes"; registry := own_app; busy_polls := 2;
  change_is_refused := false
|}.

(** The operator declines. *)
Definition declining : more_scenario := {|
  operator_answer := "n"; registry := own_app; busy_polls := 2;
  change_is_refused := false
|}.

(** The registry does not know the application. *)
Definition unknown_app : more_scenario := {|
  operator_answer := "yes"; registry := calm; busy_polls := 2;
  change_is_refused := false
|}.

(** The registry refuses the change of password. *)
Definition refusing : more_scenario := {|
  operator_answer := "yes"; registry := own_app; busy_polls := 2;
  change_is_refused := true
|}.

Definition more_options : MoreOptions := {|
  common := some_options; appname := "guestbook"; confirm := true;
  auto := true; add_to_existing := false; root_password := None
|}.

Definition unconfirmed_options : MoreOptions := {|
  common := some_options; appname := "guestbook"; confirm := false;
  auto := true; add_to_existing := false; root_password := None
|}.

Definition existing_options : MoreOptions := {|
  common := some_options; appname := "guestbook"; confirm := true;
  auto := false; add_to_existing := true; root_password := None
|}.

(** * Proofs *)

(** ** Symbolic execution *)

Lemma new_events_app s0 s1 evs :
  trace s1 = trace s0 ++ evs → new_events s0 s1 = evs.
Proof. unfold new_events. intros ->. apply drop_app_length. Qed.

Lemma upload_app_parts W (options : Options) :
  upload_app W options =
  upload_app_until_owner W options (upload_app_from_owner W options).
Proof. reflexivity. Qed.

Ltac unfold_monad :=
  cbv beta iota zeta delta
    [mbind M_bind mret M_ret call raise try_except logged modify_paths
     os_path_exists os_mkdir shutil_rmtree record with_paths
     AppScaleLogger.log AppScaleLogger.warn AppScaleLogger.success
     LocalState_update_local_metadata LocalState_cleanup_appscale_files
     LocalState_extract_app_to_dir];
  cbn [paths trace fst snd].

Ltac exec_step :=
  match goal with
  | |- context [respond ?W ?T ?s ?c] => destruct (respond W T s c) as [?|?]
  | |- context [match ?p with pair _ _ => _ end] => is_var p; destruct p
  | |- context [match ?x with Some _ => _ | None => _ end] => is_var x; destruct x
  | |- context [if negb ?b then _ else _] => destruct b eqn:?
  | |- context [if ?b then _ else _] => destruct b eqn:?
  end; cbv beta iota zeta; cbn [negb paths trace fst snd].

Ltac exec := unfold_monad; repeat exec_step.

Ltac destruct_units :=
  repeat match goal with u : unit |- _ => destruct u end.

Ltac rewrite_flags :=
  repeat match goal with
         | H : _ = true |- _ => rewrite H
         | H : _ = false |- _ => rewrite H
         end.

Ltac trace_eq := rewrite_flags; rewrite <- ?app_assoc; reflexivity.

Ltac owner_passes :=
  first
    [ left; reflexivity
    | right; cbn [app_admin username];
      match goal with
      | H : String.eqb _ _ = true |- _ => apply String.eqb_eq in H; subst; reflexivity
      end ].

Lemma upload_app_from_owner_outcome W o v s :
  from_owner_outcome o v s (upload_app_from_owner W o v s).
Proof.
  unfold upload_app_from_owner. destruct v as [fl cd id lang ac uac u ex adm].
  cbn [app_admin username app_exists app_id userappclient app_language
       file_location acc created_dir].
  exec; destruct_units.
  all: try (eapply fo_rejected; [reflexivity |];
            match goal with
            | H : String.eqb _ _ = false |- _ => apply String.eqb_neq in H; exact H
            end).
  all: try (eapply fo_failed; [owner_passes | | trace_eq]; reflexivity).
  all: match goal with
       | |- from_owner_outcome ?o ?v ?s _ =>
           eapply (fo_served o v s); [owner_passes | trace_eq]
       end.
Qed.

Lemma truthy_Some (v : option string) : truthy v = true → v = Some (str_of v).
Proof. destruct v; [reflexivity | discriminate]. Qed.

Ltac resolve_username :=
  intros; unfold resolved_username; rewrite_flags;
  first [ reflexivity | apply truthy_Some; assumption ].

Lemma upload_app_until_owner_outcome {B} W o (k : upload_locals → M B) s0 :
  until_owner_outcome W o k s0 (upload_app_until_owner W o k s0).
Proof.
  unfold upload_app_until_owner. exec; destruct_units.
  all: try (eapply uo_failed;
            [ trace_eq | reflexivity | reflexivity
            | intros; first [ congruence | eexists; reflexivity ] ]).
  all: match goal with
       | |- until_owner_outcome ?W ?o ?k ?s (?k ?v _) =>
           eapply (uo_continues W o k s v);
           [ trace_eq | reflexivity | cbn [created_dir]; congruence
           | cbn [created_dir file_location]; intros;
             first [ discriminate | reflexivity ]
           | intros; unfold bundle_location; rewrite_flags; reflexivity
           | intros; reflexivity | resolve_username
           | intros; reflexivity | intros; reflexivity | reflexivity ]
       end.
Qed.

Lemma new_events_ext s0 ps evs :
  new_events s0 {| paths := ps; trace := trace s0 ++ evs |} = evs.
Proof. apply new_events_app. reflexivity. Qed.

Lemma new_events_ext2 s0 ps evs evs' :
  new_events s0 {| paths := ps; trace := (trace s0 ++ evs) ++ evs' |} = evs ++ evs'.
Proof. apply new_events_app. cbn. symmetry. apply app_assoc. Qed.

Lemma quiet_spec evs :
  forallb quiet evs = true →
  existsb registers_or_updates evs = false ∧ existsb sleeps evs = false ∧
  existsb raised evs = false ∧ existsb reports_success evs = false.
Proof.
  induction evs as [|e evs IH]; [repeat split|]. cbn. unfold quiet at 1.
  intros H. apply andb_prop in H as [He H].
  destruct (IH H) as (-> & -> & -> & ->).
  destruct (registers_or_updates e), (sleeps e), (raised e),
    (reports_success e); try discriminate He. repeat split.
Qed.

Lemma quiet_no_register evs :
  forallb quiet evs = true → existsb registers_or_updates evs = false.
Proof. intros H. apply quiet_spec in H. tauto. Qed.


Lemma head_app_l {A} (l1 l2 : list A) x :
  head l1 = Some x → head (l1 ++ l2) = Some x.
Proof. intros H. rewrite head_app, H. reflexivity. Qed.

(** The cases of a run of [upload_app]: the outcome of its first part and,
    when that part continues, the outcome of its second part. *)
Ltac upload_cases W o s0 :=
  rewrite upload_app_parts;
  generalize (upload_app_until_owner_outcome W o (upload_app_from_owner W o) s0);
  generalize (upload_app_until_owner W o (upload_app_from_owner W o) s0);
  let r := fresh "r" in
  let H := fresh "H" in
  intros r H;
  destruct H as [T1 c1 e1 evs1 ps1 tr1 Htr1 Hlast1 Hown1 Hhead1
                |v evs1 ps1 tr1 Htr1 Hps1 Hcd Hhead1 Hloc Hown1 Huser Hex Hid Hquiet];
  [ | match goal with
      | |- context [upload_app_from_owner W o v ?s] =>
          generalize (upload_app_from_owner_outcome W o v s);
          generalize (upload_app_from_owner W o v s)
      end;
      let r' := fresh "r" in
      let H' := fresh "H" in
      intros r' H';
      destruct H' as [owner2 Hadm Hne
                     |T2 c2 e2 evs2 tr2 Hpass Hlast2 Htr2
                     |host2 port2 remote2 tr2 Hpass Htr2] ];
  cbn [fst snd trace paths] in *;
  subst; rewrite ?new_events_ext, ?new_events_ext2.

(** A passed ownership check contradicts a reported owner who is not the
    resolved user. *)
Lemma passed_not_foreign (v : upload_locals) (u owner : string) :
  app_admin v = None ∨ app_admin v = Some (username v) →
  Some (username v) = Some u → Some (app_admin v) = Some (Some owner) →
  u = owner.
Proof. intros [H|H] Hu Ho; congruence. Qed.

(** C1. When the registry reports an owner of the application who is not
    the resolved user, [upload_app] raises the ownership [AppScaleException]
    and has called none of [reserve_app_id], [done_uploading], [update]. *)
Theorem upload_app_rejects_foreign_owner W o s0 u owner :
  let res := upload_app W o s0 in
  let evs := new_events s0 res.2 in
  resolved_username W o evs = Some u →
  reported_owner evs = Some (Some owner) →
  u ≠ owner →
  res.1 = Raise (AppScaleException ownership_message) ∧
  existsb registers_or_updates evs = false.
Proof.
  cbv zeta. upload_cases W o s0; intros Hu Ho Hneq.
  - congruence.
  - split; [reflexivity|]. apply quiet_no_register, Hquiet.
  - rewrite Huser in Hu. rewrite Hown1 in Ho.
    destruct Hneq. eapply passed_not_foreign; eassumption.
  - rewrite Huser in Hu. rewrite Hown1 in Ho.
    destruct Hneq. eapply passed_not_foreign; eassumption.
Qed.



(** C8. A successful [upload_app] returns the host and port that
    [get_serving_info] answered for the application.  It reports success
    once, right after [sleep_until_port_is_open] has returned for that host
    and port.  The registry has said whether the application existed: when
    it did, [time.sleep(20)] comes right before the serving address is asked
    for, and otherwise the method does not sleep.  Nothing but the removal
    of the temporary directory follows. *)
Theorem upload_app_returns_serving_address W o s0 host port :
  let res := upload_app W o s0 in
  let evs := new_events s0 res.2 in
  res.1 = Ok (host, port) →
  ∃ uac id existed before after,
    app_id_of evs = Some id ∧
    app_existed evs = Some existed ∧
    evs = before ++
          [Called (get_serving_info uac id (keyname o)) (Ok (host, port));
           Called (sleep_until_port_is_open host port (verbose o)) (Ok tt);
           Logged SUCCESS ("Your app can be reached at the following URL: " +:+
                           "http://" +:+ host +:+ ":" +:+ pretty port)] ++
          after ∧
    existsb reports_success before = false ∧
    (app_existed evs = Some true →
     last before = Some (Called (time_sleep 20) (Ok tt))) ∧
    (app_existed evs = Some false → existsb sleeps evs = false) ∧
    (after = [] ∨ ∃ dir, after = [Called (shutil_rmtree_call dir) (Ok tt)]).
Proof.
  cbv zeta. upload_cases W o s0; intros Hres; try discriminate Hres.
  injection Hres as -> ->.
  destruct (quiet_spec _ Hquiet) as (_ & Hsl & _ & Hsucc).
  exists (userappclient v), (app_id v), (app_exists v).
  exists (evs1 ++ Logged LOG (uploading_line v) ::
          (if app_exists v then []
           else [Called (reserve_app_id (userappclient v) (username v) (app_id v)
                           (app_language v)) (Ok tt)]) ++
          [Called (copy_app_to_host (file_location v) (keyname o) (verbose o))
             (Ok remote2);
           Called (done_uploading (acc v) (app_id v) remote2) (Ok tt);
           Called (update (acc v) [app_id v]) (Ok tt);
           Logged LOG "Please wait for your app to start serving."] ++
          (if app_exists v then [Called (time_sleep 20) (Ok tt)] else [])).
  exists (if created_dir v
          then [Called (shutil_rmtree_call (file_location v)) (Ok tt)] else []).
  split; [apply Hid|]. rewrite !Hex. split; [reflexivity|].
  split; [|split; [|split; [|split]]].
  - destruct (app_exists v); cbn [app]; rewrite <- app_assoc; reflexivity.
  - rewrite existsb_app, Hsucc. destruct (app_exists v); reflexivity.
  - intros [= ->]. rewrite app_comm_cons, !app_assoc. apply last_snoc.
  - intros [= ->]. rewrite existsb_app, Hsl. destruct (created_dir v); reflexivity.
  - destruct (created_dir v); eauto.
Qed.

Lemma in_tree_refl dir : in_tree dir dir = true.
Proof. unfold in_tree. rewrite String.eqb_refl. reflexivity. Qed.

(** C5, as the code has it.  For a file that [TAR_GZ_REGEX] matches,
    [upload_app] begins by extracting the bundle; when it succeeds, the
    extraction has answered a directory, the last thing done is the removal
    of that directory, and neither it nor anything below it exists
    afterwards. *)
Theorem upload_app_removes_bundle_dir_on_success W o s0 :
  let res := upload_app W o s0 in
  let evs := new_events s0 res.2 in
  search TAR_GZ_REGEX (file o) = true →
  (∃ r, head evs = Some (Called (extract_app_to_dir (file o) (verbose o)) r)) ∧
  (∀ addr, res.1 = Ok addr →
   ∃ dir,
     head evs = Some (Called (extract_app_to_dir (file o) (verbose o)) (Ok dir)) ∧
     last evs = Some (Called (shutil_rmtree_call dir) (Ok tt)) ∧
     (dir ∉ paths res.2) ∧
     ∀ p, in_tree dir p = true → p ∉ paths res.2).
Proof.
  cbv zeta. upload_cases W o s0; intros Hre.
  - split; [auto|]. intros; discriminate.
  - rewrite Hre in Hcd. split; [eauto|]. intros; discriminate.
  - rewrite Hre in Hcd. split; [|intros; discriminate].
    eexists. apply head_app_l. eauto.
  - rewrite Hre in Hcd. pose proof (Hhead1 Hcd) as Hh.
    split; [eexists; apply head_app_l; eassumption|].
    intros addr _. exists (file_location v). rewrite Hcd.
    split; [apply head_app_l; assumption|].
    assert (Hgone : ∀ p, in_tree (file_location v) p = true →
              p ∉ filter (λ p, ¬ in_tree (file_location v) p)
                    ({[file_location v]} ∪ paths s0)).
    { intros p Hp Hin. apply elem_of_filter in Hin as [Hn _].
      apply Hn. rewrite Hp. exact I. }
    split; [|split; [apply Hgone, in_tree_refl | exact Hgone]].
    rewrite app_comm_cons, !app_assoc. apply last_snoc.
Qed.

Lemma for_cons {A} (x : A) l (body : A → M unit) s :
  for_ (x :: l) body s =
  match body x s with
  | (Ok _, s') => for_ l body s'
  | (Raise e, s') => (Raise e, s')
  end.
Proof. reflexivity. Qed.

Lemma gather_logs_node_trace W o ip s :
  ∃ evs, trace (gather_logs_node W o ip s).2 = trace s ++ evs ∧
         existsb failed_lookup evs = false.
Proof.
  unfold gather_logs_node. exec; cbn [snd trace].
  all: eexists; split; [first [trace_eq | symmetry; apply app_nil_r] | reflexivity].
Qed.

Lemma gather_logs_loop_trace W o ips s :
  ∃ evs, trace (for_ ips (gather_logs_node W o) s).2 = trace s ++ evs ∧
         existsb failed_lookup evs = false.
Proof.
  revert s. induction ips as [|ip ips IH]; intros s.
  - exists []. split; [symmetry; apply app_nil_r | reflexivity].
  - rewrite for_cons.
    destruct (gather_logs_node_trace W o ip s) as (evs1 & Ht1 & Hf1).
    destruct (gather_logs_node W o ip s) as [[[]|e] s1]; cbn [snd] in Ht1.
    + destruct (IH s1) as (evs2 & Ht2 & Hf2). exists (evs1 ++ evs2).
      rewrite Ht2, Ht1, existsb_app, Hf1, Hf2, app_assoc. split; reflexivity.
    + exists evs1. split; assumption.
Qed.

(** C9. [gather_logs] creates the destination only after it has the login
    host and the secret key: when the destination exists already it raises
    [AppScaleException] in the state it started from; when one of the two
    look-ups raises, it ends with an exception, [os.mkdir] has not been
    called and the local paths are the ones it started from; and a path that
    is new afterwards comes after both look-ups have answered. *)
Theorem gather_logs_mkdir_after_secret W o s0 :
  let res := gather_logs W o s0 in
  let evs := new_events s0 res.2 in
  (location o ∈ paths s0 →
   res = (Raise (AppScaleException
            ("Can't gather logs, as the location you " +:+ "specified, " +:+
             location o +:+ ", already exists.")), s0)) ∧
  (existsb failed_lookup evs = true →
   is_ok res.1 = false ∧ paths res.2 = paths s0 ∧ existsb makes_dir evs = false) ∧
  (∀ p, p ∈ paths res.2 → p ∉ paths s0 →
   ∃ host secret rest,
     evs = Called (get_login_host (keyname o)) (Ok host) ::
           Called (get_secret_key (keyname o)) (Ok secret) :: rest).
Proof.
  cbv zeta. unfold gather_logs. unfold_monad.
  destruct (bool_decide (location o ∈ paths s0)) eqn:Hex; cbn [fst snd].
  { apply bool_decide_eq_true_1 in Hex.
    rewrite (new_events_app s0 s0 []) by (symmetry; apply app_nil_r).
    split; [reflexivity|]. split; [discriminate|]. intros p Hp Hn. contradiction. }
  apply bool_decide_eq_false_1 in Hex. split; [intros; contradiction|].
  repeat exec_step; cbn [fst snd paths trace].
  all: try (rewrite (new_events_app s0 _ _) by trace_eq; cbn [app];
            split;
            [ first [ discriminate | intros _; repeat split; reflexivity ]
            | first [ intros p Hp Hn; contradiction | intros; eauto ] ]).
  match goal with
  | |- context [for_ ?l ?b ?s] =>
      change (for_ l b s) with (for_ l (gather_logs_node W o) s);
      destruct (gather_logs_loop_trace W o l s) as (evs & Ht & Hf);
      destruct (for_ l (gather_logs_node W o) s) as [[[]|e] s1]
  end; cbn [fst snd paths trace] in *.
  all: rewrite (new_events_app s0 _ _)
         by (cbn [trace]; rewrite Ht; rewrite <- ?app_assoc; reflexivity);
       cbn [app].
  all: split; [|intros; eauto].
  all: cbn [existsb failed_lookup orb]; rewrite ?existsb_app, Hf; cbn;
       discriminate.
Qed.

Lemma node_reports_count k ips evs :
  node_reports k ips evs →
  count answered_status evs + count warns evs = length ips ∧
  count warns evs = count raised evs.
Proof.
  unfold count. induction 1 as [|ip ips sec st evs _ [IH1 IH2]
                               |ip ips sec e evs _ [IH1 IH2]]; cbn.
  - split; reflexivity.
  - rewrite <- IH1, IH2. split; reflexivity.
  - rewrite <- IH1, IH2, Nat.add_succ_r. split; reflexivity.
Qed.

Lemma describe_instances_node_trace W o ip s :
  let r := describe_instances_node W o ip s in
  ∃ evs, trace r.2 = trace s ++ evs ∧
    (only_status_queries_raised evs = true →
     r.1 = Ok tt ∧
     ∃ secret,
       (∃ status,
          evs = [Called (get_secret_key (keyname o)) (Ok secret);
                 Logged LOG ("Status of node at " +:+ ip +:+ ":");
                 Called (get_status {| acc_host := ip; acc_secret := secret |})
                   (Ok status);
                 Logged LOG status]) ∨
       (∃ e,
          evs = [Called (get_secret_key (keyname o)) (Ok secret);
                 Logged LOG ("Status of node at " +:+ ip +:+ ":");
                 Called (get_status {| acc_host := ip; acc_secret := secret |})
                   (Raise e);
                 Logged WARN ("Unable to contact machine: " +:+ str_exn e +:+ nl)])).
Proof.
  cbv zeta. unfold describe_instances_node. exec; cbn [fst snd trace].
  all: eexists; split; [trace_eq|]; cbn [app].
  all: first [ discriminate
             | intros _; split; [reflexivity|]; eauto
             | unfold only_status_queries_raised; cbn; rewrite_flags;
               discriminate ].
Qed.

Lemma describe_instances_loop_trace W o ips s :
  let r := for_ ips (describe_instances_node W o) s in
  ∃ evs, trace r.2 = trace s ++ evs ∧
    (only_status_queries_raised evs = true →
     r.1 = Ok tt ∧ node_reports (keyname o) ips evs).
Proof.
  cbv zeta. revert s. induction ips as [|ip ips IH]; intros s.
  - exists []. split; [symmetry; apply app_nil_r|]. intros _.
    split; [reflexivity | constructor].
  - rewrite for_cons.
    destruct (describe_instances_node_trace W o ip s) as (evs1 & Ht1 & H1).
    destruct (describe_instances_node W o ip s) as [[[]|e] s1];
      cbn [fst snd] in Ht1, H1.
    + destruct (IH s1) as (evs2 & Ht2 & H2). exists (evs1 ++ evs2).
      rewrite Ht2, Ht1, app_assoc. split; [reflexivity|].
      unfold only_status_queries_raised in *. rewrite forallb_app.
      intros [Ha Hb]%andb_prop. destruct (H2 Hb) as [-> Hr]. split; [reflexivity|].
      destruct (H1 Ha) as (_ & secret & [[st ->]|[e ->]]); constructor; exact Hr.
    + exists evs1. split; [assumption|]. intros H. destruct (H1 H) as [[=] _].
Qed.

(** C6. In a run of [describe_instances] in which nothing but status queries
    raises, the method returns normally: after the look-ups and the list of
    addresses, every address of the list is queried in turn and gets either
    its status or a warning, and the success line closes the report.  A
    status query that raises thus costs a warning and nothing else: the
    statuses and the warnings together are as many as the addresses, and
    the warnings as many as the queries that raised. *)
Theorem describe_instances_reports_every_node W o s0 :
  let res := describe_instances W o s0 in
  let evs := new_events s0 res.2 in
  only_status_queries_raised evs = true →
  res.1 = Ok tt ∧
  ∃ login_host secret all_ips reports,
    evs = Called (get_login_host (keyname o)) (Ok login_host) ::
          Called (get_secret_key (keyname o)) (Ok secret) ::
          Called (get_all_public_ips
                    {| acc_host := login_host; acc_secret := secret |})
            (Ok all_ips) ::
          reports ++
          [Logged SUCCESS ("View status information about your AppScale " +:+
                           "deployment at http://" +:+ login_host +:+ "/status")] ∧
    node_reports (keyname o) all_ips reports ∧
    count answered_status reports + count warns reports = length all_ips ∧
    count warns reports = count raised reports.
Proof.
  cbv zeta. unfold describe_instances. exec; cbn [fst snd paths trace].
  all: try (rewrite (new_events_app s0 _ _) by trace_eq; discriminate).
  match goal with
  | |- context [for_ ?l ?b ?s] =>
      change (for_ l b s) with (for_ l (describe_instances_node W o) s);
      destruct (describe_instances_loop_trace W o l s) as (evs & Ht & Hr);
      destruct (for_ l (describe_instances_node W o) s) as [[[]|e] s1]
  end; cbn [fst snd paths trace] in *.
  all: rewrite (new_events_app s0 _ _)
         by (cbn [trace]; rewrite Ht; rewrite <- ?app_assoc; reflexivity);
       cbn [app].
  - unfold only_status_queries_raised in *. cbn [forallb raised status_query implb andb].
    rewrite forallb_app. intros [Ha _]%andb_prop. destruct (Hr Ha) as [_ Hn].
    split; [reflexivity|]. eexists _, _, _, evs. split; [reflexivity|].
    split; [exact Hn|]. exact (node_reports_count _ _ _ Hn).
  - unfold only_status_queries_raised in *. cbn [forallb raised status_query implb andb].
    intros Ha. destruct (Hr Ha) as [[=] _].
Qed.

Lemma run_instances_parts W (options : Options) :
  run_instances W options =
  run_instances_until_credentials W options
    (run_instances_from_credentials W options).
Proof. reflexivity. Qed.

Lemma run_instances_until_credentials_outcome {B} W o (k : run_locals → M B) s0 :
  until_credentials_outcome W o k s0 (run_instances_until_credentials W o k s0).
Proof.
  unfold run_instances_until_credentials. exec; destruct_units.
  all: try (eapply uc_failed;
            [ trace_eq | reflexivity | reflexivity
            | first [ intros; congruence | intros _; reflexivity ] ]).
  all: match goal with
       | |- until_credentials_outcome ?W ?o ?k ?s (?k ?v _) =>
           eapply (uc_continues W o k s v);
           [ trace_eq | intros; reflexivity .. ]
       end.
Qed.

Lemma truthy_both (a b : option string) :
  truthy a && truthy b = true → a = Some (str_of a) ∧ b = Some (str_of b).
Proof. intros [Ha Hb]%andb_prop. split; apply truthy_Some; assumption. Qed.

Lemma run_instances_from_credentials_outcome W o v s :
  from_credentials_outcome W o s (run_instances_from_credentials W o v s).
Proof.
  unfold run_instances_from_credentials.
  destruct (truthy (admin_user o) && truthy (admin_pass o)) eqn:Hflags;
    [pose proof (truthy_both _ _ Hflags) as [Hu Hp]|destruct (test o) eqn:Htest].
  all: exec; destruct_units.
  all: eapply fc_done;
       [ trace_eq | | first [discriminate | intros _; split; eauto]
       | first
           [ discriminate
           | intros _; split; [reflexivity|];
             unfold credentials_used, spec_credential_source; rewrite_flags;
             first [ reflexivity
                   | eexists; split; reflexivity
                   | eexists _, _; split; [eassumption|];
                     split; [eassumption | reflexivity] ] ] ].
  all: unfold credentials_from_source, spec_credential_source; rewrite_flags.
  all: cbn; repeat split; try reflexivity; try discriminate.
  all: intros; simplify_eq; auto.
Qed.

Ltac run_cases W o s0 :=
  rewrite run_instances_parts;
  generalize (run_instances_until_credentials_outcome W o
                (run_instances_from_credentials W o) s0);
  generalize (run_instances_until_credentials W o
                (run_instances_from_credentials W o) s0);
  let r := fresh "r" in
  let H := fresh "H" in
  intros r H;
  destruct H as [e1 evs1 ps1 tr1 Htr1 Hacc1 Hask1 Hraise1
                |v evs1 tr1 Htr1 Hacc1 Hprompt1 Hask1 Hcalm1];
  [ | match goal with
      | |- context [run_instances_from_credentials W o v ?s] =>
          generalize (run_instances_from_credentials_outcome W o v s);
          generalize (run_instances_from_credentials W o v s)
      end;
      let r' := fresh "r" in
      let H' := fresh "H" in
      intros r' H';
      destruct H' as [r2 evs2 ps2 tr2 Htr2 Hsrc Hok Hused] ];
  cbn [fst snd trace paths] in *;
  subst; rewrite ?new_events_ext, ?new_events_ext2.

(** C7. [run_instances] takes the admin credentials from exactly one source,
    the one that the specification names: the two flags when both are given
    (set and not empty), otherwise the defaults when the test flag is set,
    otherwise the prompt.  The account it creates has the credentials of
    that source, the prompt is not called when one of the first two sources
    applies, and a run that succeeds has created the account.  The
    credentials of the source are used: with a valid layout and no
    collaborator that raises, the run returns and has created the account
    with the two flags, with the defaults, or with what the prompt, which
    was called, has answered. *)
Theorem run_instances_credential_precedence W o s0 :
  let res := run_instances W o s0 in
  let evs := new_events s0 res.2 in
  match spec_credential_source o with
  | ExplicitFlags =>
      existsb asks_credentials evs = false ∧
      ∀ u p, created_account evs = Some (u, p) →
             admin_user o = Some u ∧ admin_pass o = Some p
  | TestDefaults =>
      existsb asks_credentials evs = false ∧
      ∀ u p, created_account evs = Some (u, p) →
             u = DEFAULT_USER W ∧ p = DEFAULT_PASSWORD W
  | InteractivePrompt =>
      ∀ u p, created_account evs = Some (u, p) →
             prompted_credentials evs = Some (u, p)
  end ∧
  (res.1 = Ok tt → is_Some (created_account evs)) ∧
  (is_valid (NodeLayout W o) = true → existsb raised evs = false →
   res.1 = Ok tt ∧
   match spec_credential_source o with
   | ExplicitFlags =>
       ∃ u p, admin_user o = Some u ∧ admin_pass o = Some p ∧
              created_account evs = Some (u, p)
   | TestDefaults =>
       created_account evs = Some (DEFAULT_USER W, DEFAULT_PASSWORD W)
   | InteractivePrompt =>
       ∃ c, prompted_credentials evs = Some c ∧ created_account evs = Some c
   end).
Proof.
  cbv zeta. run_cases W o s0.
  - rewrite Hacc1, Hask1. split; [|split; [intros; discriminate|]].
    + destruct (spec_credential_source o); repeat split; intros; discriminate.
    + intros Hv Hr. rewrite (Hraise1 Hv) in Hr. discriminate.
  - rewrite Hacc1, Hprompt1, Hask1. split; [exact Hsrc|].
    split; [intros H; apply Hok, H|].
    intros _ Hr. rewrite existsb_app in Hr.
    apply orb_false_elim in Hr as [_ Hr]. exact (Hused Hr).
Qed.

(** A run of [run_instances] that succeeds leaves the record of the
    deployment. *)
Lemma run_instances_persists_metadata W o s0 :
  (run_instances W o s0).1 = Ok tt →
  get_locations_yaml_location W (keyname o) ∈ paths (run_instances W o s0).2.
Proof.
  run_cases W o s0; [discriminate|]. intros H. destruct (Hok H) as [_ ->].
  apply elem_of_union_l, elem_of_singleton. reflexivity.
Qed.

(** [terminate_instances] from a state in which the record of the deployment
    exists: it returns normally exactly when none of its calls raises, the
    record is gone when it returns normally, and when the teardown call
    raises the method ends with the exception of that call and the record
    is still there. *)
Lemma terminate_instances_outcome W o s :
  let res := terminate_instances W o s in
  let evs := new_events s res.2 in
  let yaml := get_locations_yaml_location W (keyname o) in
  yaml ∈ paths s →
  (existsb raised evs = false → res.1 = Ok tt) ∧
  (res.1 = Ok tt → yaml ∉ paths res.2) ∧
  (existsb teardown_raised evs = true →
   ∃ e, teardown_failure evs = Some e ∧ res.1 = Raise e ∧ yaml ∈ paths res.2).
Proof.
  cbv zeta. intros Hin. unfold terminate_instances. unfold_monad.
  rewrite (bool_decide_eq_true_2 _ Hin). cbn [negb].
  repeat exec_step; destruct_units; cbn [fst snd paths trace].
  all: rewrite (new_events_app s _ _) by trace_eq; cbn.
  all: split; [first [discriminate | reflexivity]|].
  all: split;
       [ first [ discriminate
               | intros _ [_ H]%elem_of_difference; apply H, elem_of_singleton;
                 reflexivity ]
       | first [ discriminate
               | intros _; eexists; split; [reflexivity|];
                 split; [reflexivity | assumption] ] ].
Qed.

(** C2, as the code has it.  After a run of [run_instances] that succeeded
    the record of the deployment exists.  A [terminate_instances] that
    follows, for options with the same keyname, returns normally when none
    of its calls raises, and then the record is gone, whatever the teardown
    achieved remotely; when the teardown call raises, the method fails with
    the exception of that call and the record is still there. *)
Theorem run_then_terminate_removes_metadata W o o' s0 :
  let r1 := run_instances W o s0 in
  let r2 := terminate_instances W o' r1.2 in
  let evs := new_events r1.2 r2.2 in
  let yaml := get_locations_yaml_location W (keyname o) in
  keyname o' = keyname o →
  r1.1 = Ok tt →
  yaml ∈ paths r1.2 ∧
  (existsb raised evs = false → r2.1 = Ok tt) ∧
  (r2.1 = Ok tt → yaml ∉ paths r2.2) ∧
  (existsb teardown_raised evs = true →
   ∃ e, teardown_failure evs = Some e ∧ r2.1 = Raise e ∧ yaml ∈ paths r2.2).
Proof.
  cbv zeta. intros Hk Hok.
  pose proof (run_instances_persists_metadata W o s0 Hok) as Hin.
  split; [exact Hin|]. rewrite <- Hk in *.
  exact (terminate_instances_outcome W o' _ Hin).
Qed.

(** C3. When the requested roles contain [master], [add_instances] raises
    [BadConfigurationException] at once: the state is the one it started
    from, so that no collaborator has been called. *)
Theorem add_instances_rejects_master W o s :
  "master" ∈ dom (ips o) →
  add_instances W o s =
    (Raise (BadConfigurationException
       "Cannot add master nodes to an already running AppScale deployment."), s) ∧
  new_events s (add_instances W o s).2 = [].
Proof.
  intros Hm. unfold add_instances. rewrite (bool_decide_eq_true_2 _ Hm).
  split; [reflexivity|]. apply new_events_app. cbn. symmetry. apply app_nil_r.
Qed.

(** C4. When no metadata of the deployment exists, [terminate_instances]
    raises [AppScaleException] at once: the state is the one it started from,
    so that no collaborator has been called. *)
Theorem terminate_instances_requires_metadata W o s :
  get_locations_yaml_location W (keyname o) ∉ paths s →
  terminate_instances W o s =
    (Raise (AppScaleException
       ("AppScale is not running with the keyname " +:+ keyname o)), s) ∧
  new_events s (terminate_instances W o s).2 = [].
Proof.
  intros Hm. unfold terminate_instances. unfold_monad.
  rewrite (bool_decide_eq_false_2 _ Hm). cbn.
  split; [reflexivity|]. apply new_events_app. symmetry. apply app_nil_r.
Qed.

(** ** The suffix that [TAR_GZ_REGEX] recognises *)

Lemma search_app re (a b : string) : search re b = true → search re (a +:+ b) = true.
Proof.
  intros H. induction a as [|c a IH]; [exact H|].
  change (String c a +:+ b) with (String c (a +:+ b)).
  cbn [search]. rewrite IH. apply orb_true_r.
Qed.

(** A file name that ends in [.tar.gz] is taken for a compressed bundle. *)
Lemma tar_gz_suffix_matched (base : string) :
  search TAR_GZ_REGEX (base +:+ ".tar.gz") = true.
Proof. apply search_app. reflexivity. Qed.

(** The dots of the expression are not escaped: other names match too. *)
Lemma tar_gz_regex_dots : search TAR_GZ_REGEX "guestbook-tar-gz" = true.
Proof. reflexivity. Qed.

(** ** The methods on examples *)

Lemma upload_app_rejects_foreign_owner_witness :
  (upload_app (scenario_world foreign_owner) some_options fresh_state).1 =
    Raise (AppScaleException ownership_message) ∧
  existsb registers_or_updates
    (new_events fresh_state
       (upload_app (scenario_world foreign_owner) some_options fresh_state).2) =
    false.
Proof.
  apply (upload_app_rejects_foreign_owner (scenario_world foreign_owner)
           some_options fresh_state "a@a.a" "bob@example.com").
  - vm_compute. reflexivity.
  - vm_compute. reflexivity.
  - discriminate.
Defined.

(** C5 as the specification states it does not hold: the registry reports a foreign owner, the
    upload of a [.tar.gz] bundle is rejected, and the directory that the
    bundle was extracted to is still there. *)
Lemma upload_app_leaves_bundle_dir_on_failure :
  search TAR_GZ_REGEX (file some_options) = true ∧
  head (new_events fresh_state
          (upload_app (scenario_world foreign_owner) some_options fresh_state).2) =
    Some (Called (extract_app_to_dir "guestbook.tar.gz" false)
            (Ok "/tmp/appscale-app-1a2b3c4d")) ∧
  (upload_app (scenario_world foreign_owner) some_options fresh_state).1 =
    Raise (AppScaleException ownership_message) ∧
  "/tmp/appscale-app-1a2b3c4d" ∈
    paths (upload_app (scenario_world foreign_owner) some_options fresh_state).2.
Proof. vm_compute. repeat split. Qed.

Lemma upload_app_removes_bundle_dir_on_success_witness :
  ∃ dir,
    head (new_events fresh_state
            (upload_app (scenario_world calm) some_options fresh_state).2) =
      Some (Called (extract_app_to_dir "guestbook.tar.gz" false) (Ok dir)) ∧
    dir ∉ paths (upload_app (scenario_world calm) some_options fresh_state).2.
Proof.
  destruct (upload_app_removes_bundle_dir_on_success (scenario_world calm)
              some_options fresh_state) as [_ H]; [reflexivity|].
  destruct (H ("192.168.1.3", 8080%Z)) as (dir & Hd & _ & Hn & _).
  - vm_compute. reflexivity.
  - exists dir. split; assumption.
Defined.

(** A new version of an application that the user owns: the address is
    asked for right after the sleep of twenty seconds. *)
Lemma upload_app_returns_serving_address_witness :
  ∃ uac id before after,
    app_existed
      (new_events fresh_state
         (upload_app (scenario_world own_app) some_options fresh_state).2) =
      Some true ∧
    new_events fresh_state
      (upload_app (scenario_world own_app) some_options fresh_state).2 =
      before ++
      [Called (get_serving_info uac id "appscale") (Ok ("192.168.1.3", 8080%Z));
       Called (sleep_until_port_is_open "192.168.1.3" 8080 false) (Ok tt);
       Logged SUCCESS ("Your app can be reached at the following URL: " +:+
                       "http://" +:+ "192.168.1.3" +:+ ":" +:+ pretty 8080%Z)] ++
      after ∧
    last before = Some (Called (time_sleep 20) (Ok tt)).
Proof.
  destruct (upload_app_returns_serving_address (scenario_world own_app)
              some_options fresh_state "192.168.1.3" 8080%Z)
    as (uac & id & existed & before & after & _ & H1 & H2 & _ & H3 & _).
  - vm_compute. reflexivity.
  - exists uac, id, before, after.
    assert (existed = true) as -> by (vm_compute in H1; congruence).
    split; [exact H1|]. split; [exact H2|]. apply H3, H1.
Defined.


(** C2 as the specification states it does not hold: [run_instances] succeeds, the teardown of
    the virtualized cluster raises, [terminate_instances] ends with that
    exception and the record of the deployment is still there. *)
Lemma terminate_instances_keeps_metadata_when_teardown_raises :
  (run_instances (scenario_world stuck_teardown) some_options fresh_state).1 =
    Ok tt ∧
  (terminate_instances (scenario_world stuck_teardown) some_options
     (run_instances (scenario_world stuck_teardown) some_options fresh_state).2).1 =
    Raise (OtherException "ShellException" "Could not stop AppScale") ∧
  "~/.appscale/locations-appscale.yaml" ∈
    paths (terminate_instances (scenario_world stuck_teardown) some_options
             (run_instances (scenario_world stuck_teardown) some_options
                fresh_state).2).2.
Proof. vm_compute. repeat split. Qed.

(** When nothing raises the record is gone; when the teardown raises,
    [terminate_instances] ends with the exception of the teardown. *)
Lemma run_then_terminate_removes_metadata_witness :
  ("~/.appscale/locations-appscale.yaml" ∉
     paths (terminate_instances (scenario_world calm) some_options
              (run_instances (scenario_world calm) some_options fresh_state).2).2) ∧
  (terminate_instances (scenario_world stuck_teardown) some_options
     (run_instances (scenario_world stuck_teardown) some_options
        fresh_state).2).1 =
    Raise (OtherException "ShellException" "Could not stop AppScale").
Proof.
  split.
  - destruct (run_then_terminate_removes_metadata (scenario_world calm)
                some_options some_options fresh_state) as (_ & H1 & H2 & _).
    + reflexivity.
    + vm_compute. reflexivity.
    + apply H2, H1. vm_compute. reflexivity.
  - destruct (run_then_terminate_removes_metadata (scenario_world stuck_teardown)
                some_options some_options fresh_state) as (_ & _ & _ & H).
    + reflexivity.
    + vm_compute. reflexivity.
    + destruct H as (e & He & Hr & _); [vm_compute; reflexivity|].
      rewrite Hr. vm_compute in He. congruence.
Defined.

Lemma add_instances_rejects_master_witness :
  add_instances (scenario_world calm) master_options fresh_state =
    (Raise (BadConfigurationException
       "Cannot add master nodes to an already running AppScale deployment."),
     fresh_state) ∧
  new_events fresh_state
    (add_instances (scenario_world calm) master_options fresh_state).2 = [].
Proof.
  apply (add_instances_rejects_master (scenario_world calm) master_options
           fresh_state).
  vm_compute. reflexivity.
Defined.

Lemma terminate_instances_requires_metadata_witness :
  terminate_instances (scenario_world calm) some_options fresh_state =
    (Raise (AppScaleException
       ("AppScale is not running with the keyname " +:+ "appscale")),
     fresh_state) ∧
  new_events fresh_state
    (terminate_instances (scenario_world calm) some_options fresh_state).2 = [].
Proof.
  apply (terminate_instances_requires_metadata (scenario_world calm)
           some_options fresh_state).
  vm_compute. discriminate.
Defined.

Lemma gather_logs_mkdir_after_secret_witness :
  gather_logs (scenario_world calm) some_options logs_exist =
    (Raise (AppScaleException
       ("Can't gather logs, as the location you " +:+ "specified, " +:+
        "/tmp/logs" +:+ ", already exists.")), logs_exist).
Proof.
  destruct (gather_logs_mkdir_after_secret (scenario_world calm) some_options
              logs_exist) as [H _].
  apply H. vm_compute. reflexivity.
Defined.

(** Two of three nodes do not answer: one status, two warnings, and the
    method returns normally. *)
Lemma describe_instances_reports_every_node_witness :
  (describe_instances (scenario_world two_unreachable) some_options
     fresh_state).1 = Ok tt ∧
  ∃ login_host secret all_ips reports,
    new_events fresh_state
      (describe_instances (scenario_world two_unreachable) some_options
         fresh_state).2 =
      Called (get_login_host "appscale") (Ok login_host) ::
      Called (get_secret_key "appscale") (Ok secret) ::
      Called (get_all_public_ips
                {| acc_host := login_host; acc_secret := secret |})
        (Ok all_ips) ::
      reports ++
      [Logged SUCCESS ("View status information about your AppScale " +:+
                       "deployment at http://" +:+ login_host +:+ "/status")] ∧
    node_reports "appscale" all_ips reports ∧
    count answered_status reports + count warns reports = length all_ips ∧
    count warns reports = count raised reports.
Proof.
  apply (describe_instances_reports_every_node (scenario_world two_unreachable)
           some_options fresh_state).
  vm_compute. reflexivity.
Defined.

Lemma describe_instances_two_of_three_unreachable :
  (describe_instances (scenario_world two_unreachable) some_options
     fresh_state).1 = Ok tt ∧
  count answered_status
    (new_events fresh_state
       (describe_instances (scenario_world two_unreachable) some_options
          fresh_state).2) = 1 ∧
  count warns
    (new_events fresh_state
       (describe_instances (scenario_world two_unreachable) some_options
          fresh_state).2) = 2.
Proof. vm_compute. repeat split. Qed.

(** The three sources: the flags, which win over the test flag; the
    defaults of the test flag; the prompt. *)
Lemma run_instances_credential_precedence_witness :
  created_account
    (new_events fresh_state
       (run_instances (scenario_world calm) flag_options fresh_state).2) =
    Some ("boss@example.com", "chosen") ∧
  created_account
    (new_events fresh_state
       (run_instances (scenario_world calm) some_options fresh_state).2) =
    Some ("a@a.a", "aaaaaa") ∧
  created_account
    (new_events fresh_state
       (run_instances (scenario_world calm) prompt_options fresh_state).2) =
    Some ("admin@example.com", "prompted").
Proof.
  split; [|split].
  - destruct (run_instances_credential_precedence (scenario_world calm)
                flag_options fresh_state) as (_ & _ & H).
    destruct H as [_ (u & p & Hu & Hp & Hc)];
      [reflexivity | vm_compute; reflexivity |].
    rewrite Hc. cbn in Hu, Hp. congruence.
  - destruct (run_instances_credential_precedence (scenario_world calm)
                some_options fresh_state) as (_ & _ & H).
    destruct H as [_ Hc]; [reflexivity | vm_compute; reflexivity |].
    exact Hc.
  - destruct (run_instances_credential_precedence (scenario_world calm)
                prompt_options fresh_state) as (_ & _ & H).
    destruct H as [_ (c & Hp & Hc)]; [reflexivity | vm_compute; reflexivity |].
    rewrite Hc, <- Hp. vm_compute. reflexivity.
Defined.

(** A status query that raises [SystemExit] is not caught: the method ends
    with it at the first node, without a warning. *)
Lemma describe_instances_lets_an_exit_pass :
  (describe_instances exiting_world some_options fresh_state).1 =
    Raise (SystemExit 1) ∧
  count status_query
    (new_events fresh_state
       (describe_instances exiting_world some_options fresh_state).2) = 1 ∧
  count warns
    (new_events fresh_state
       (describe_instances exiting_world some_options fresh_state).2) = 0.
Proof. vm_compute. repeat split. Qed.

(** Without the secret key [gather_logs] ends after the two look-ups and
    creates nothing. *)
Lemma gather_logs_without_secret :
  gather_logs (scenario_world no_secret) some_options fresh_state =
    (Raise (OtherException "IOError" "[Errno 2] No such file or directory"),
     {| paths := ∅;
        trace :=
          [Called (get_login_host "appscale") (Ok "192.168.1.1");
           Called (get_secret_key "appscale")
             (Raise (OtherException "IOError"
                       "[Errno 2] No such file or directory"))] |}).
Proof. vm_compute. reflexivity. Qed.

(** * Further properties of the methods *)

(** ** The names that [TAR_GZ_REGEX] matches *)

Lemma match_here_tar_gz (s : string) :
  match_here TAR_GZ_REGEX s = true ↔
  ∃ a b, s = String a ("tar" +:+ String b "gz") ∧ a ≠ "010"%char ∧ b ≠ "010"%char.
Proof.
  unfold TAR_GZ_REGEX. split.
  - do 7 (destruct s as [|? s]; [cbn; rewrite ?andb_false_r; discriminate|]).
    destruct s; [|cbn; rewrite !andb_false_r; discriminate].
    cbn [match_here]. rewrite !andb_true_r.
    intros H. repeat apply andb_prop in H as [? H].
    repeat match goal with
           | H : Ascii.eqb _ _ = true |- _ => apply Ascii.eqb_eq in H; subst
           | H : negb (Ascii.eqb _ _) = true |- _ =>
               apply negb_true_iff, Ascii.eqb_neq in H
           end.
    eexists _, _. split; [reflexivity|]. split; assumption.
  - intros (a & b & -> & Ha & Hb).
    apply Ascii.eqb_neq in Ha, Hb.
    change (negb (Ascii.eqb a "010") && (negb (Ascii.eqb b "010") && true) = true).
    rewrite Ha, Hb. reflexivity.
Qed.

(** X1. [TAR_GZ_REGEX.search] succeeds exactly on the names that end in seven
    characters of the form [?tar?gz], where [?] is any character but a line
    feed: the dots of the expression are not escaped. *)
Theorem tar_gz_regex_search (s : string) :
  search TAR_GZ_REGEX s = true ↔
  ∃ base a b, s = base +:+ String a ("tar" +:+ String b "gz") ∧
              a ≠ "010"%char ∧ b ≠ "010"%char.
Proof.
  split.
  - induction s as [|c s IH]; [discriminate|].
    cbn [search]. intros [H|H]%orb_prop.
    + apply match_here_tar_gz in H as (a & b & H & Ha & Hb).
      exists "", a, b. auto.
    + destruct (IH H) as (base & a & b & -> & Ha & Hb).
      exists (String c base), a, b. auto.
  - intros (base & a & b & -> & Ha & Hb). apply search_app.
    cbn [search]. apply orb_true_intro. left.
    apply match_here_tar_gz. eauto.
Qed.

(** ** [add_instances] past the check of the roles *)

Lemma add_instances_probes_trace W o ips s :
  let r := for_ ips (add_instances_probe W o) s in
  let probed ip := Called (ssh ip (keyname o) "ls" (verbose o)) (Ok tt) in
  paths r.2 = paths s ∧
  ((r.1 = Ok tt ∧ trace r.2 = trace s ++ map probed ips) ∨
   (∃ e n ip, ips !! n = Some ip ∧ r.1 = Raise e ∧
              trace r.2 = trace s ++ map probed (take n ips) ++
                          [Called (ssh ip (keyname o) "ls" (verbose o)) (Raise e)])).
Proof.
  cbv zeta. revert s. induction ips as [|ip ips IH]; intros s.
  - split; [reflexivity|]. left. split; [reflexivity|]. symmetry. apply app_nil_r.
  - rewrite for_cons.
    change (add_instances_probe W o ip s)
      with (respond W () s (ssh ip (keyname o) "ls" (verbose o)),
            record (Called (ssh ip (keyname o) "ls" (verbose o))
                      (respond W () s (ssh ip (keyname o) "ls" (verbose o)))) s).
    destruct (respond W () s (ssh ip (keyname o) "ls" (verbose o))) as [[]|e];
      cbv beta iota; unfold record.
    + destruct (IH {| paths := paths s;
                      trace := trace s ++
                        [Called (ssh ip (keyname o) "ls" (verbose o)) (Ok ())] |})
        as [Hp [[Hr Ht]|(e & n & ip' & Hn & Hr & Ht)]]; cbn [paths trace] in *.
      * split; [exact Hp|]. left. split; [exact Hr|].
        rewrite Ht, <- app_assoc. reflexivity.
      * split; [exact Hp|]. right. exists e, (S n), ip'.
        split; [exact Hn|]. split; [exact Hr|].
        rewrite Ht, <- app_assoc. reflexivity.
    + split; [reflexivity|]. right. exists e, 0, ip. repeat split.
Qed.

Lemma existsb_map_false {A} (f : Event → bool) (g : A → Event) (l : list A) :
  (∀ x, f (g x) = false) → existsb f (map g l) = false.
Proof.
  intros H. induction l as [|x l IH]; [reflexivity|].
  cbn. rewrite H, IH. reflexivity.
Qed.

Ltac probe_loop W o :=
  match goal with
  | |- context [for_ ?l ?b ?st] =>
      change (for_ l b st) with (for_ l (add_instances_probe W o) st);
      let Hp := fresh "Hp" in
      let Hr := fresh "Hr" in
      let Ht := fresh "Ht" in
      let Hn := fresh "Hn" in
      destruct (add_instances_probes_trace W o l st)
        as [Hp [[Hr Ht]|(?e & ?n & ?ip & Hn & Hr & Ht)]];
      destruct (for_ l (add_instances_probe W o) st) as [[[]|?e] ?s];
      cbn [fst snd paths trace] in *; try discriminate Hr
  end.

(** X2. A run of [add_instances] that succeeds has, in this order: read the
    infrastructure of the deployment; on [xen], and only there, probed over
    SSH the addresses of [options.ips.values()], in the order of that list,
    which has the address of every role once; looked up the login host and
    the secret key; and sent one [start_roles_on_nodes] with the JSON text
    of [options.ips] to the controller at the login host.  It leaves the
    local paths as they were. *)
Theorem add_instances_probes_then_requests W o s0 :
  let res := add_instances W o s0 in
  let evs := new_events s0 res.2 in
  res.1 = Ok tt →
  paths res.2 = paths s0 ∧
  dict_values W (ips o) ≡ₚ map snd (map_to_list (ips o)) ∧
  ∃ infra login_ip secret,
    evs = Called (get_from_yaml (keyname o) "infrastructure") (Ok infra) ::
          (if String.eqb infra "xen"
           then map (λ ip, Called (ssh ip (keyname o) "ls" (verbose o)) (Ok tt))
                  (dict_values W (ips o))
           else []) ++
          [Logged LOG "Sending request to add instances";
           Called (get_login_host (keyname o)) (Ok login_ip);
           Called (get_secret_key (keyname o)) (Ok secret);
           Called (start_roles_on_nodes
                     {| acc_host := login_ip; acc_secret := secret |}
                     (json_dumps W (ips o))) (Ok tt);
           Logged SUCCESS ("Successfully sent request to add instances " +:+
                           "to this AppScale deployment.")].
Proof.
  cbv zeta. unfold add_instances.
  destruct (bool_decide ("master" ∈ dom (ips o))); [discriminate|].
  unfold_monad.
  destruct (respond W string s0 (get_from_yaml (keyname o) "infrastructure"))
    as [infra|e]; cbv beta iota zeta; cbn [fst snd paths trace]; [|discriminate].
  destruct (String.eqb infra "xen") eqn:Hxen.
  - probe_loop W o; repeat exec_step; destruct_units; try discriminate.
    intros _. split; [assumption|]. split; [apply dict_values_perm|].
    exists infra, a, a0.
    apply new_events_app. cbn [trace]. rewrite Ht, Hxen, <- !app_assoc. reflexivity.
  - repeat exec_step; destruct_units; try discriminate.
    intros _. split; [reflexivity|]. split; [apply dict_values_perm|].
    exists infra, a, a0.
    apply new_events_app. cbn [trace]. rewrite Hxen, <- !app_assoc. reflexivity.
Qed.

(** X3. When an SSH probe raises, [add_instances] ends with an exception and
    has sent no [start_roles_on_nodes]; the local paths are as they were. *)
Theorem add_instances_failed_probe_sends_nothing W o s0 :
  let res := add_instances W o s0 in
  let evs := new_events s0 res.2 in
  existsb (λ e, probes e && raised e) evs = true →
  is_ok res.1 = false ∧ existsb requests_roles evs = false ∧
  paths res.2 = paths s0.
Proof.
  cbv zeta. unfold add_instances.
  destruct (bool_decide ("master" ∈ dom (ips o))).
  { cbn. rewrite (new_events_app s0 s0 []) by (symmetry; apply app_nil_r).
    discriminate. }
  unfold_monad.
  destruct (respond W string s0 (get_from_yaml (keyname o) "infrastructure"))
    as [infra|e]; cbv beta iota zeta; cbn [fst snd paths trace].
  2: { rewrite (new_events_app s0 _ _) by reflexivity. discriminate. }
  destruct (String.eqb infra "xen") eqn:Hxen.
  - probe_loop W o.
    + repeat exec_step; destruct_units; cbn [fst snd paths trace].
      all: rewrite (new_events_app s0 _ _)
             by (cbn [trace]; rewrite Ht, <- ?app_assoc; reflexivity).
      all: cbn [app existsb]; rewrite !existsb_app;
           rewrite existsb_map_false by reflexivity; discriminate.
    + intros _. rewrite (new_events_app s0 _ _)
        by (cbn [trace]; rewrite Ht, <- ?app_assoc; reflexivity).
      split; [reflexivity|]. split; [|assumption].
      cbn [app existsb]. rewrite !existsb_app.
      rewrite existsb_map_false by reflexivity. reflexivity.
  - repeat exec_step; destruct_units; cbn [fst snd paths trace].
    all: rewrite (new_events_app s0 _ _) by trace_eq; discriminate.
Qed.

(** ** [gather_logs] past the look-ups *)

Lemma append_inj_r (a b c : string) : a +:+ b = a +:+ c → b = c.
Proof. induction a as [|x a IH]; cbn; [auto|]. intros [= H]. auto. Qed.

Lemma local_dir_inj o ip1 ip2 : local_dir o ip1 = local_dir o ip2 → ip1 = ip2.
Proof. unfold local_dir. intros H. do 2 apply append_inj_r in H. exact H. Qed.

Lemma gather_logs_node_cases W o ip s :
  let r := gather_logs_node W o ip s in
  (r.1 = Ok tt ∧ (local_dir o ip ∉ paths s) ∧
   r.2 = {| paths := {[ local_dir o ip ]} ∪ paths s;
            trace := trace s ++ fetched o ip |}) ∨
  (∃ e evs, r.1 = Raise e ∧ trace r.2 = trace s ++ evs ∧
     (existsb raised evs = true →
      ∃ T (c : Call T), last evs = Some (Called c (Raise e)))).
Proof.
  cbv zeta. unfold gather_logs_node. unfold_monad.
  change (location o +:+ "/" +:+ ip) with (local_dir o ip).
  destruct (bool_decide (local_dir o ip ∈ paths s)) eqn:Hex.
  - right. eexists _, []. cbn. split; [reflexivity|].
    split; [symmetry; apply app_nil_r | discriminate].
  - apply bool_decide_eq_false_1 in Hex.
    repeat exec_step; destruct_units; cbn [fst snd].
    + left. split; [reflexivity|]. split; [assumption|].
      unfold fetched. rewrite <- app_assoc. reflexivity.
    + right. eexists _, [_; _]. split; [reflexivity|].
      split; [rewrite <- app_assoc; reflexivity|]. intros _. eexists _, _. reflexivity.
    + right. eexists _, [_]. split; [reflexivity|].
      split; [reflexivity|]. intros _. eexists _, _. reflexivity.
Qed.

Lemma existsb_raised_fetched o ip : existsb raised (fetched o ip) = false.
Proof. reflexivity. Qed.

Lemma gather_logs_loop_cases W o ips s :
  let r := for_ ips (gather_logs_node W o) s in
  (r.1 = Ok tt →
   NoDup ips ∧ (∀ ip, ip ∈ ips → local_dir o ip ∉ paths s) ∧
   paths r.2 = list_to_set (map (local_dir o) ips) ∪ paths s ∧
   trace r.2 = trace s ++ flat_map (fetched o) ips) ∧
  (∃ evs, trace r.2 = trace s ++ evs ∧
     (existsb raised evs = true →
      ∃ T (c : Call T) e, last evs = Some (Called c (Raise e)) ∧ r.1 = Raise e)).
Proof.
  cbv zeta. revert s. induction ips as [|ip ips IH]; intros s.
  - split.
    + intros _. split; [constructor|]. split; [intros ? []%elem_of_nil|].
      cbn. split; [symmetry; apply (left_id_L ∅ (∪)) | symmetry; apply app_nil_r].
    + exists []. split; [symmetry; apply app_nil_r | discriminate].
  - rewrite for_cons.
    destruct (gather_logs_node_cases W o ip s)
      as [(Hr & Hnew & Hs)|(e & evs1 & Hr & Ht & Hl)];
      destruct (gather_logs_node W o ip s) as [[[]|e'] s1];
      cbn [fst snd] in *; try discriminate.
    + subst s1. specialize (IH {| paths := {[local_dir o ip]} ∪ paths s;
                                  trace := trace s ++ fetched o ip |}).
      destruct IH as [IHok (evs2 & Ht2 & Hl2)]. cbn [paths trace] in *. split.
      * intros Hok. destruct (IHok Hok) as (Hnd & Hfresh & Hp & Ht).
        split; [|split; [|split]].
        -- constructor; [|exact Hnd]. intros Hin. apply (Hfresh _ Hin).
           apply elem_of_union_l, elem_of_singleton. reflexivity.
        -- intros ip' [->|Hin]%elem_of_cons; [exact Hnew|].
           intros Hp'. apply (Hfresh _ Hin). apply elem_of_union_r, Hp'.
        -- rewrite Hp. cbn [map list_to_set].
           rewrite (assoc_L (∪)), (comm_L (∪) (list_to_set _)). reflexivity.
        -- rewrite Ht, <- app_assoc. reflexivity.
      * exists (fetched o ip ++ evs2). split; [rewrite Ht2, <- app_assoc; reflexivity|].
        rewrite existsb_app, existsb_raised_fetched. cbn [orb]. intros H.
        destruct (Hl2 H) as (T & c & e & Hlast & Hres). exists T, c, e.
        split; [rewrite last_app, Hlast; reflexivity | exact Hres].
    + injection Hr as ->. split; [discriminate|]. exists evs1. split; [exact Ht|].
      intros H. destruct (Hl H) as (T & c & Hlast). eauto.
Qed.

Ltac gather_loop W o :=
  match goal with
  | |- context [for_ ?l ?b ?st] =>
      change (for_ l b st) with (for_ l (gather_logs_node W o) st);
      let Hok := fresh "Hok" in
      let Ht := fresh "Ht" in
      let Hl := fresh "Hl" in
      destruct (gather_logs_loop_cases W o l st) as [Hok (?evs & Ht & Hl)];
      destruct (for_ l (gather_logs_node W o) st) as [[[]|?e] ?s];
      cbn [fst snd paths trace] in *
  end.

(** X4. A run of [gather_logs] that succeeds has created the destination and,
    below it, one directory per address that the controller listed, and has
    fetched [/var/log/appscale] of every node into its directory, in the
    order of the list.  The destination did not exist before, and the list
    has no address twice: [os.mkdir] raises on the second. *)
Theorem gather_logs_one_directory_per_node W o s0 :
  let res := gather_logs W o s0 in
  let evs := new_events s0 res.2 in
  res.1 = Ok tt →
  ∃ login_host secret all_ips,
    evs = Called (get_login_host (keyname o)) (Ok login_host) ::
          Called (get_secret_key (keyname o)) (Ok secret) ::
          Called (os_mkdir_call (location o)) (Ok tt) ::
          Called (get_all_public_ips
                    {| acc_host := login_host; acc_secret := secret |})
            (Ok all_ips) ::
          flat_map (fetched o) all_ips ++
          [Logged SUCCESS ("Successfully copied logs to " +:+ location o)] ∧
    NoDup all_ips ∧
    (location o ∉ paths s0) ∧
    paths res.2 =
      list_to_set (map (local_dir o) all_ips) ∪ ({[ location o ]} ∪ paths s0).
Proof.
  cbv zeta. unfold gather_logs. unfold_monad.
  destruct (bool_decide (location o ∈ paths s0)) eqn:Hex; cbn [fst snd];
    [discriminate|].
  apply bool_decide_eq_false_1 in Hex.
  repeat exec_step; destruct_units; cbn [fst snd paths trace]; try discriminate.
  gather_loop W o; [|discriminate]. intros _.
  destruct (Hok eq_refl) as (Hnd & _ & Hp & Ht'). exists a, a0, a2.
  split; [|split; [exact Hnd|split; [exact Hex|exact Hp]]].
  apply new_events_app. cbn [trace]. rewrite Ht', <- !app_assoc. reflexivity.
Qed.

(** X5. [gather_logs] does not go on after a failure: when a call raises, for
    one node or before, that call is the last thing it does and its
    exception is the one that ends the method. *)
Theorem gather_logs_stops_at_first_failure W o s0 :
  let res := gather_logs W o s0 in
  let evs := new_events s0 res.2 in
  existsb raised evs = true →
  ∃ T (c : Call T) e, last evs = Some (Called c (Raise e)) ∧ res.1 = Raise e.
Proof.
  cbv zeta. unfold gather_logs. unfold_monad.
  destruct (bool_decide (location o ∈ paths s0)) eqn:Hex; cbn [fst snd].
  { rewrite (new_events_app s0 s0 []) by (symmetry; apply app_nil_r).
    discriminate. }
  repeat exec_step; destruct_units; cbn [fst snd paths trace].
  all: try (rewrite (new_events_app s0 _ _) by trace_eq; cbn;
            first [discriminate | intros _; eexists _, _, _; split; reflexivity]).
  gather_loop W o.
  all: rewrite (new_events_app s0 _ _)
         by (cbn [trace]; rewrite Ht, <- ?app_assoc; reflexivity);
       cbn [app existsb raised orb]; rewrite ?existsb_app; cbn [existsb raised orb].
  - rewrite orb_false_r. intros H. destruct (Hl H) as (? & ? & ? & _ & [=]).
  - intros H. destruct (Hl H) as (T & c & e' & Hlast & [= ->]).
    exists T, c, e'. split; [|reflexivity].
    rewrite !last_cons, Hlast. reflexivity.
Qed.

(** ** [terminate_instances] and [describe_instances] *)

(** X6. A run of [terminate_instances] that succeeds has read the
    infrastructure of the deployment, made the one teardown call that goes
    with it (the cloud one for an infrastructure among [VALID_AGENTS], the
    virtualized one otherwise) and then removed the record, which existed
    before.  In every run the clean-up is called only after a teardown call
    has returned. *)
Theorem terminate_instances_tears_down_by_infrastructure W o s0 :
  let res := terminate_instances W o s0 in
  let evs := new_events s0 res.2 in
  let yaml := get_locations_yaml_location W (keyname o) in
  (res.1 = Ok tt →
   ∃ infra,
     evs = [Called (get_infrastructure (keyname o)) (Ok infra);
            teardown_for W o infra;
            Called (cleanup_appscale_files (keyname o)) (Ok tt);
            Logged SUCCESS "Successfully shut down your AppScale deployment."] ∧
     yaml ∈ paths s0 ∧ paths res.2 = paths s0 ∖ {[ yaml ]}) ∧
  (existsb cleans_up evs = true → existsb teardown_returned evs = true).
Proof.
  cbv zeta. unfold terminate_instances, teardown_for. unfold_monad.
  destruct (bool_decide (get_locations_yaml_location W (keyname o) ∈ paths s0))
    eqn:Hex; cbn [negb fst snd].
  2: { rewrite (new_events_app s0 s0 []) by (symmetry; apply app_nil_r).
       split; discriminate. }
  apply bool_decide_eq_true_1 in Hex.
  repeat exec_step; destruct_units; cbn [fst snd paths trace].
  all: rewrite (new_events_app s0 _ _) by trace_eq; cbn [app].
  all: split; [first [discriminate | intros _; eexists; rewrite_flags; auto]
              | first [discriminate | reflexivity]].
Qed.

Lemma describe_instances_loop_reads W o ips s :
  let r := for_ ips (describe_instances_node W o) s in
  paths r.2 = paths s ∧
  ∃ evs, trace r.2 = trace s ++ evs ∧ forallb only_reads evs = true.
Proof.
  cbv zeta. revert s. induction ips as [|ip ips IH]; intros s.
  - split; [reflexivity|]. exists []. split; [symmetry; apply app_nil_r|reflexivity].
  - rewrite for_cons.
    assert (Hnode : paths (describe_instances_node W o ip s).2 = paths s ∧
              ∃ evs, trace (describe_instances_node W o ip s).2 = trace s ++ evs ∧
                     forallb only_reads evs = true).
    { unfold describe_instances_node. exec; cbn [fst snd paths trace].
      all: split; [reflexivity|]; eexists; split; [trace_eq|reflexivity]. }
    destruct Hnode as (Hp1 & evs1 & Ht1 & Hf1).
    destruct (describe_instances_node W o ip s) as [[[]|e] s1];
      cbn [fst snd] in *.
    + destruct (IH s1) as (Hp2 & evs2 & Ht2 & Hf2). split; [congruence|].
      exists (evs1 ++ evs2). rewrite Ht2, Ht1, forallb_app, Hf1, Hf2, app_assoc.
      split; reflexivity.
    + split; [assumption|]. exists evs1. split; assumption.
Qed.

(** X7. [describe_instances] only reads: in every run it leaves the local
    paths as they were, and it calls nothing but the look-ups of the login
    host and of the secret key, the list of addresses and the status
    queries. *)
Theorem describe_instances_only_reads W o s0 :
  let res := describe_instances W o s0 in
  let evs := new_events s0 res.2 in
  paths res.2 = paths s0 ∧ forallb only_reads evs = true.
Proof.
  cbv zeta. unfold describe_instances. exec; cbn [fst snd paths trace].
  all: try (rewrite (new_events_app s0 _ _) by trace_eq; split; reflexivity).
  match goal with
  | |- context [for_ ?l ?b ?st] =>
      change (for_ l b st) with (for_ l (describe_instances_node W o) st);
      destruct (describe_instances_loop_reads W o l st) as (Hp & evs & Ht & Hf);
      destruct (for_ l (describe_instances_node W o) st) as [[[]|e] s1]
  end; cbn [fst snd paths trace] in *.
  all: rewrite (new_events_app s0 _ _)
         by (cbn [trace]; rewrite Ht, <- ?app_assoc; reflexivity).
  all: split; [assumption|]; cbn [app forallb only_reads andb];
       rewrite ?forallb_app, Hf; reflexivity.
Qed.

(** ** [run_instances] in more detail *)

Lemma run_instances_prefix_outcome {B} W o (k : run_locals → M B) s0 :
  run_prefix_outcome W o k s0 (run_instances_until_credentials W o k s0).
Proof.
  unfold run_instances_until_credentials. exec; destruct_units.
  all: try (eapply rp_failed;
            [ trace_eq
            | intros;
              first [ congruence
                    | split; [reflexivity|]; split; [reflexivity|];
                      first [ discriminate
                            | intros _; split; [reflexivity|]; eexists;
                              unfold before_layout; rewrite_flags;
                              reflexivity ] ]
            | intros; first [ congruence | eexists _, _; reflexivity ]
            | first [ discriminate
                    | intros _; apply elem_of_union_l, elem_of_singleton; reflexivity ]
            | first [ discriminate | reflexivity ]
            | reflexivity ]).
  all: match goal with
       | |- run_prefix_outcome ?W ?o ?k ?s (?k ?v _) =>
           eapply (rp_continues W o k s v);
           [ trace_eq | congruence | reflexivity | reflexivity
           | rewrite_flags; reflexivity | intros; reflexivity | intros; reflexivity ]
       end.
Qed.

Lemma run_instances_suffix_outcome W o v s :
  run_suffix_outcome W o s (run_instances_from_credentials W o v s).
Proof.
  unfold run_instances_from_credentials. exec; destruct_units.
  all: eapply rs_done;
       [ trace_eq
       | first [ discriminate | reflexivity ]
       | intros ? [= <-]; eexists _, _; rewrite <- ?app_assoc; reflexivity
       | first [ left; reflexivity | right; reflexivity ]
       | reflexivity | reflexivity
       | cbn; intros; congruence ].
Qed.

Ltac run_cases' W o s0 :=
  rewrite run_instances_parts;
  generalize (run_instances_prefix_outcome W o
                (run_instances_from_credentials W o) s0);
  generalize (run_instances_until_credentials W o
                (run_instances_from_credentials W o) s0);
  let r := fresh "r" in
  let H := fresh "H" in
  intros r H;
  destruct H as [e1 evs1 ps1 tr1 Htr1 Hbad Hgood Hsaved Hfirst Hnoacc
                |v evs1 tr1 Htr1 Hvalid Hcalm Hsaved Hwarn Hadm Hacc];
  [ | match goal with
      | |- context [run_instances_from_credentials W o v ?s] =>
          generalize (run_instances_suffix_outcome W o v s);
          generalize (run_instances_from_credentials W o v s)
      end;
      let r' := fresh "r" in
      let H' := fresh "H" in
      intros r' H';
      destruct H' as [r2 evs2 ps2 tr2 Htr2 Hok Hraise Hps Hwarn2 Hctl2 Hsame] ];
  cbn [fst snd trace paths] in *;
  subst; rewrite ?new_events_ext, ?new_events_ext2.

(** X8. When the layout of the nodes is not valid, [run_instances] ends with
    an exception without having started a head node or called
    [update_local_metadata].  Unless a collaborator raised before the layout
    is looked at, the exception is the [BadConfigurationException] with the
    errors of the layout, and what the method has done by then is this: it
    has made the AppScale directory, checked that no deployment is running,
    printed what it starts and reported the start. *)
Theorem run_instances_rejects_invalid_layout W o s0 :
  let res := run_instances W o s0 in
  let evs := new_events s0 res.2 in
  is_valid (NodeLayout W o) = false →
  is_ok res.1 = false ∧
  existsb starts_head_node evs = false ∧
  existsb writes_metadata evs = false ∧
  (existsb raised evs = false →
   res.1 = Raise (BadConfigurationException (layout_message W o)) ∧
   ∃ id, evs = before_layout W o id).
Proof.
  cbv zeta. run_cases' W o s0; intros Hinv; [|congruence].
  destruct (Hbad Hinv) as (Hh & Hm & He).
  split; [reflexivity|]. split; [exact Hh|]. split; [exact Hm|].
  intros Hr. destruct (He Hr) as [-> Hevs]. split; [reflexivity | exact Hevs].
Qed.

(** X9. [run_instances] writes the record of the deployment before it
    contacts the controller, and the record stays when the run fails
    later: in every run, a call to [get_uaserver_host] comes after an
    [update_local_metadata] that returned, and when one has returned the
    record exists at the end. *)
Theorem run_instances_saves_metadata_first W o s0 :
  let res := run_instances W o s0 in
  let evs := new_events s0 res.2 in
  (existsb asks_controller evs = true → existsb metadata_saved evs = true) ∧
  (existsb metadata_saved evs = true →
   get_locations_yaml_location W (keyname o) ∈ paths res.2).
Proof.
  cbv zeta. run_cases' W o s0; [split; assumption|].
  rewrite !existsb_app, Hsaved. split; [reflexivity|]. intros _.
  destruct Hps as [->| ->]; repeat (apply elem_of_union; left);
    apply elem_of_singleton; reflexivity.
Qed.

(** X10. With a valid layout [run_instances] raises nothing itself: it
    succeeds whenever no collaborator raises, an exception that ends it is
    the one of the last call, and a layout that is not supported costs a
    warning and nothing else. *)
Theorem run_instances_fails_only_with_a_collaborator W o s0 :
  let res := run_instances W o s0 in
  let evs := new_events s0 res.2 in
  is_valid (NodeLayout W o) = true →
  (existsb raised evs = false →
   res.1 = Ok tt ∧ existsb warns evs = negb (is_supported (NodeLayout W o))) ∧
  (∀ e, res.1 = Raise e → ∃ T (c : Call T), last evs = Some (Called c (Raise e))).
Proof.
  cbv zeta. run_cases' W o s0; intros Hv.
  - destruct (Hgood Hv) as (T & c & Hl). split; [|intros e [= <-]; eauto].
    intros Hr. unfold raised_by_callee in *.
    assert (existsb raised evs1 = true) as Hc; [|congruence].
    apply existsb_exists. exists (Called c (Raise e1)). split; [|reflexivity].
    apply list_elem_of_In, last_Some_elem_of, Hl.
  - rewrite !existsb_app, Hcalm, Hwarn, Hwarn2, orb_false_r. cbn [orb]. split.
    + intros Hr. split; [exact (Hok Hr) | reflexivity].
    + intros e He. destruct (Hraise e He) as (T & c & Hl). exists T, c.
      rewrite last_app, Hl. reflexivity.
Qed.

(** X11. The user that [run_instances] makes an administrator is the one
    whose account it has created. *)
Theorem run_instances_admin_is_the_created_user W o s0 u p u' :
  let res := run_instances W o s0 in
  let evs := new_events s0 res.2 in
  created_account evs = Some (u, p) → granted_admin evs = Some u' → u' = u.
Proof.
  cbv zeta. run_cases' W o s0.
  - congruence.
  - rewrite Hadm, Hacc. apply Hsame.
Qed.

(** ** [upload_app] in more detail *)

Ltac absurd_premise :=
  let H := fresh in intros H; vm_compute in H; discriminate H.

Ltac account_premise :=
  let H := fresh in
  intros ? ? H; vm_compute in H; injection H as <- <-; repeat split.

Ltac user_facts_leaf :=
  constructor;
  [ intros ? [= <-]; unfold resolved_username; rewrite_flags;
    first [ reflexivity | apply truthy_Some; assumption ]
  | first [ reflexivity | rewrite_flags; discriminate ]
  | first [ absurd_premise | intros _; split; reflexivity ]
  | first [ discriminate | account_premise ]
  | first [ reflexivity | congruence ]
  | split; reflexivity ].

Lemma upload_app_prefix_outcome {B} W o (k : upload_locals → M B) s0 :
  upload_prefix_outcome W o k s0 (upload_app_until_owner W o k s0).
Proof.
  unfold upload_app_until_owner. exec; destruct_units; subst.
  all: try (eapply upf_failed;
            [ trace_eq | user_facts_leaf
            | first [ reflexivity | congruence ] ]).
  all: try match goal with
       | |- upload_prefix_outcome ?W ?o ?k ?s (?k ?v _) =>
           eapply (upf_continues W o k s v);
           [ trace_eq | user_facts_leaf | reflexivity
           | cbn [created_dir]; congruence
           | intros; reflexivity | intros; reflexivity
           | intros; unfold resolved_username; rewrite_flags; reflexivity
           | first [ absurd_premise | intros _ ?; reflexivity ]
           | first [ absurd_premise | intros _ ?; split; reflexivity ]
           | intros; reflexivity ]
       end.
Qed.

Lemma upload_app_suffix_outcome W o v s :
  upload_suffix_outcome o v s (upload_app_from_owner W o v s).
Proof.
  unfold upload_app_from_owner. destruct v as [fl cd id lang ac uac u ex adm].
  destruct s as [ps tr].
  cbn [app_admin username app_exists app_id userappclient app_language
       file_location acc created_dir].
  exec; destruct_units; subst.
  all: eapply ups_done; cbn [paths trace];
       [ first [ trace_eq | symmetry; apply app_nil_r ]
       | reflexivity
       | cbn [created_dir]; first [ discriminate | intros _; split; reflexivity ]
       | cbn [app_exists]; first [ discriminate | intros _; reflexivity ] ].
Qed.

Ltac upload_cases' W o s0 :=
  rewrite upload_app_parts;
  generalize (upload_app_prefix_outcome W o (upload_app_from_owner W o) s0);
  generalize (upload_app_until_owner W o (upload_app_from_owner W o) s0);
  let r := fresh "r" in
  let H := fresh "H" in
  intros r H;
  destruct H as [e1 evs1 ps1 tr1 Htr1 Hfacts Hdir
                |v evs1 ps1 tr1 Htr1 Hfacts Hps1 Hcd Hasked Hknown Hres
                   Hnone Hsome Hex];
  [ | match goal with
      | |- context [upload_app_from_owner W o v ?s] =>
          generalize (upload_app_suffix_outcome W o v s);
          generalize (upload_app_from_owner W o v s)
      end;
      let r' := fresh "r" in
      let H' := fresh "H" in
      intros r' H';
      destruct H' as [r2 evs2 ps2 tr2 Htr2 Hlate Hkeep Hnores] ];
  cbn [fst snd trace paths] in *;
  subst; rewrite ?new_events_ext, ?new_events_ext2;
  destruct Hfacts as [Hf1 Hf2 Hf3 Hf4 Hf5 [Hf6 Hf7]].

Lemma late_spec evs :
  forallb late evs = true →
  existsb creates_account evs = false ∧ existsb prompts_username evs = false ∧
  existsb prompts_password evs = false ∧ existsb extracts evs = false ∧
  created_account evs = None.
Proof.
  induction evs as [|e evs IH]; [repeat split|]. cbn [forallb].
  intros [He H]%andb_prop. destruct (IH H) as (H1 & H2 & H3 & H4 & H5).
  cbn [existsb]. rewrite H1, H2, H3, H4. unfold late in He.
  destruct (creates_account e) eqn:E1, (prompts_username e),
    (prompts_password e), (extracts e); try discriminate He.
  repeat split. unfold created_account, first_answer in *.
  change (omap account_request (e :: evs))
    with (match account_request e with
          | Some y => y :: omap account_request evs
          | None => omap account_request evs
          end).
  destruct (account_request e) eqn:E2; [|exact H5].
  destruct e as [T c r|]; [|discriminate]. destruct c; discriminate.
Qed.

(** X12. The username that [upload_app] looks up in the registry is the one
    it resolves: the default one under the test flag, whatever the e-mail
    flag says, else the e-mail flag, else the answer of the prompt; and the
    prompt is not called when one of the two flags applies. *)
Theorem upload_app_username_precedence W o s0 :
  let res := upload_app W o s0 in
  let evs := new_events s0 res.2 in
  (∀ u, asked_user evs = Some u → resolved_username W o evs = Some u) ∧
  (test o || truthy (email o) = true → existsb prompts_username evs = false).
Proof.
  cbv zeta. upload_cases' W o s0; [split; assumption|].
  destruct (late_spec _ Hlate) as (_ & Hp & _).
  rewrite Hasked, Hres, existsb_app, Hp, orb_false_r. split; assumption.
Qed.

(** X13. [upload_app] creates an account only for a user that the registry
    does not know: when the registry knows the user, no password is asked
    for and no account is created; an account that is created is for the
    user that was looked up, with the password that the prompt answered. *)
Theorem upload_app_creates_unknown_users_only W o s0 :
  let res := upload_app W o s0 in
  let evs := new_events s0 res.2 in
  (user_known evs = Some true →
   existsb creates_account evs = false ∧ existsb prompts_password evs = false) ∧
  (∀ u p, created_account evs = Some (u, p) →
          user_known evs = Some false ∧ asked_user evs = Some u ∧
          prompted_password evs = Some p).
Proof.
  cbv zeta. upload_cases' W o s0; [split; assumption|].
  destruct (late_spec _ Hlate) as (Hc & _ & Hpw & _ & Hca).
  rewrite Hknown, Hasked, !existsb_app, Hc, Hpw, !orb_false_r.
  split; [assumption|]. intros u p.
  destruct (existsb creates_account evs1) eqn:E.
  - destruct (Hsome eq_refl evs2) as [-> ->]. apply Hf4.
  - rewrite (Hnone eq_refl), Hca. discriminate.
Qed.

(** X14. When the file is not taken for a compressed bundle, [upload_app]
    leaves the local paths as they were in every run: it extracts nothing
    and removes nothing. *)
Theorem upload_app_leaves_a_directory_alone W o s0 :
  let res := upload_app W o s0 in
  let evs := new_events s0 res.2 in
  search TAR_GZ_REGEX (file o) = false →
  paths res.2 = paths s0 ∧
  existsb extracts evs = false ∧ existsb removes_tree evs = false.
Proof.
  cbv zeta. upload_cases' W o s0; intros Hs.
  - split; [auto|]. split; auto.
  - destruct (late_spec _ Hlate) as (_ & _ & _ & Hx & _).
    rewrite Hs in Hcd. rewrite Hcd in *. destruct (Hkeep eq_refl) as [-> Hrm].
    rewrite !existsb_app, Hx, Hrm, Hf6, (Hf5 Hs). repeat split.
Qed.

(** X15. [upload_app] reserves the application identifier for new
    applications only: when the registry says that the application exists,
    [reserve_app_id] is not called, in any run. *)
Theorem upload_app_reserves_new_applications_only W o s0 :
  let res := upload_app W o s0 in
  let evs := new_events s0 res.2 in
  app_existed evs = Some true → existsb reserves evs = false.
Proof.
  cbv zeta. upload_cases' W o s0.
  - intros _. assumption.
  - rewrite Hex, existsb_app, Hf7. intros [= Ht]. apply Hnores, Ht.
Qed.

Lemma quiet_no_reserve evs :
  forallb quiet evs = true → existsb reserves evs = false.
Proof.
  induction evs as [|e evs IH]; [reflexivity|]. cbn [forallb existsb].
  intros [He H]%andb_prop. rewrite (IH H), orb_false_r.
  destruct e as [T c r|l msg]; [|reflexivity].
  destruct c; try reflexivity. discriminate He.
Qed.

(** X16. In a run of [upload_app] that succeeds, the application is copied to
    the deployment from where it is locally (the directory that the bundle
    was extracted to, or the file of the options when it is not taken for a
    bundle), and the controller is then told, for the application
    identifier, where the copy is and to update.  A new application has
    been reserved for the resolved user right before the copy, and only
    there; an existing one has not been reserved at all. *)
Theorem upload_app_announces_the_copied_bundle W o s0 addr :
  let res := upload_app W o s0 in
  let evs := new_events s0 res.2 in
  res.1 = Ok addr →
  ∃ before after uac acc u id lang location path existed,
    resolved_username W o evs = Some u ∧
    app_id_of evs = Some id ∧
    app_existed evs = Some existed ∧
    bundle_location o evs = Some location ∧
    evs = before ++
          (if existed : bool then []
           else [Called (reserve_app_id uac u id lang) (Ok tt)]) ++
          upload_of o acc id location path ++
          after ∧
    existsb reserves before = false ∧
    existsb reserves after = false.
Proof.
  cbv zeta. upload_cases W o s0; intros Hres; try discriminate Hres.
  exists (evs1 ++ [Logged LOG (uploading_line v)]).
  eexists. exists (userappclient v), (acc v), (username v), (app_id v),
    (app_language v), (file_location v), remote2, (app_exists v).
  split; [apply Huser|]. split; [apply Hid|]. split; [apply Hex|].
  split; [apply Hloc|]. split; [|split].
  - unfold upload_of. rewrite <- !app_assoc. cbn [app]. reflexivity.
  - rewrite existsb_app, (quiet_no_reserve _ Hquiet). reflexivity.
  - destruct (app_exists v), (created_dir v); reflexivity.
Qed.

(** * Proofs about the three methods *)

Ltac more_unfold :=
  cbv beta iota zeta delta
    [mbind MoreM_bind mret MoreM_ret more_call more_raise more_try_except said
     sys_exit];
  cbn [fst snd].

Ltac more_step :=
  match goal with
  | |- context [answer ?X ?T ?tr ?c] => destruct (answer X T tr c) as [?|?]
  | |- context [match ?p with pair _ _ => _ end] => is_var p; destruct p
  | |- context [match ?x with Some _ => _ | None => _ end] => is_var x; destruct x
  | |- context [if negb ?b then _ else _] => destruct b eqn:?
  | |- context [if ?b then _ else _] => destruct b eqn:?
  end; cbv beta iota zeta; cbn [negb fst snd].

Ltac more_exec := more_unfold; repeat more_step.

Lemma more_new_events (tr evs : list MoreEvent) : drop (length tr) (tr ++ evs) = evs.
Proof. apply drop_app_length. Qed.

(** The loop of [remove_app]: it ends because the application has stopped
    after some rounds, or, with the fuel used up, after as many rounds as
    there was fuel, or by an exception of a poll or of a sleep. *)
Lemma wait_for_shutdown_cases X fuel acc app tr :
  let r := wait_for_shutdown X fuel acc app tr in
  (∃ n, n < fuel ∧ r.1 = Ok (Some tt) ∧
        r.2 = tr ++ rounds n acc app ++ [Did (is_app_running acc app) (Ok false)]) ∨
  (r.1 = Ok None ∧ r.2 = tr ++ rounds fuel acc app) ∨
  (∃ n e, n < fuel ∧ r.1 = Raise e ∧
     (r.2 = tr ++ rounds n acc app ++ [Did (is_app_running acc app) (Raise e)] ∨
      r.2 = tr ++ rounds n acc app ++
            [Did (is_app_running acc app) (Ok true);
             Did (known (time_sleep SLEEP_TIME)) (Raise e)])).
Proof.
  cbv zeta. revert tr. induction fuel as [|fuel IH]; intros tr.
  - right. left. split; [reflexivity|]. symmetry. apply app_nil_r.
  - cbn [wait_for_shutdown]. more_unfold.
    destruct (answer X bool tr (is_app_running acc app)) as [[]|e];
      cbv beta iota zeta; cbn [fst snd].
    + destruct (answer X () (tr ++ [Did (is_app_running acc app) (Ok true)])
                  (known (time_sleep SLEEP_TIME))) as [[]|e];
        cbv beta iota zeta; cbn [fst snd].
      * destruct (IH ((tr ++ [Did (is_app_running acc app) (Ok true)]) ++
                      [Did (known (time_sleep SLEEP_TIME)) (Ok ())]))
          as [(n & Hn & Hr & Ht)|[(Hr & Ht)|(n & e & Hn & Hr & [Ht|Ht])]].
        -- left. exists (S n). split; [lia|]. split; [exact Hr|].
           rewrite Ht, <- !app_assoc. reflexivity.
        -- right. left. split; [exact Hr|]. rewrite Ht, <- !app_assoc. reflexivity.
        -- right. right. exists (S n), e. split; [lia|]. split; [exact Hr|].
           left. rewrite Ht, <- !app_assoc. reflexivity.
        -- right. right. exists (S n), e. split; [lia|]. split; [exact Hr|].
           right. rewrite Ht, <- !app_assoc. reflexivity.
      * right. right. exists 0, e. split; [lia|]. split; [reflexivity|].
        right. rewrite <- app_assoc. reflexivity.
    + left. exists 0. split; [lia|]. split; reflexivity.
    + right. right. exists 0, e. split; [lia|]. split; [reflexivity|].
      left. reflexivity.
Qed.

Lemma wait_for_shutdown_more_fuel X fuel k acc app tr :
  (wait_for_shutdown X fuel acc app tr).1 ≠ Ok None →
  wait_for_shutdown X (fuel + k) acc app tr = wait_for_shutdown X fuel acc app tr.
Proof.
  revert tr. induction fuel as [|fuel IH]; intros tr; [intros []; reflexivity|].
  cbn [wait_for_shutdown Nat.add]. more_unfold.
  destruct (answer X bool tr (is_app_running acc app)) as [[]|e];
    cbv beta iota zeta; cbn [fst snd]; [|reflexivity..].
  destruct (answer X () (tr ++ [Did (is_app_running acc app) (Ok true)])
              (known (time_sleep SLEEP_TIME))) as [[]|e];
    cbv beta iota zeta; cbn [fst snd]; [|reflexivity].
  apply IH.
Qed.

Lemma existsb_rounds f n acc app :
  existsb f (still_running acc app) = false → existsb f (rounds n acc app) = false.
Proof.
  intros H. induction n as [|n IH]; [reflexivity|].
  cbn [rounds]. rewrite existsb_app, H, IH. reflexivity.
Qed.

Lemma added_app (tr evs : list MoreEvent) : added tr (tr ++ evs) = evs.
Proof. apply drop_app_length. Qed.

Lemma added_eq tr tr' evs : tr' = tr ++ evs → added tr tr' = evs.
Proof. intros ->. apply added_app. Qed.

Ltac more_trace_eq := rewrite <- ?app_assoc; reflexivity.

(** X17. Without [confirm], [remove_app] asks the operator and goes on only
    for the answers [y], [yes], [Y] and [YES]: for every other answer it
    raises [AppScaleException] and has called nothing but the question. *)
Theorem remove_app_cancelled X fuel o tr response :
  confirm o = false →
  answer X string tr (raw_input removal_question) = Ok response →
  response ∉ ["y"; "yes"; "Y"; "YES"] →
  remove_app X fuel o tr =
    (Raise (AppScaleException "Cancelled application removal."),
     tr ++ [Did (raw_input removal_question) (Ok response)]).
Proof.
  intros Hc Ha Hn. unfold remove_app. rewrite Hc. cbn [negb]. more_unfold.
  change ("Are you sure you want to remove this " +:+ "application? (Y/N) ")
    with removal_question.
  rewrite Ha. cbv beta iota zeta. cbn [fst snd].
  unfold says_yes. rewrite (bool_decide_eq_false_2 _ Hn). reflexivity.
Qed.

Ltac before_stop_leaf :=
  constructor;
  [ first [ congruence | reflexivity ]
  | first [ congruence
          | intros _; eexists; split; [reflexivity | assumption] ]
  | reflexivity
  | intros; reflexivity ].

Lemma remove_app_outcome X fuel o tr :
  remove_outcome fuel o tr (remove_app X fuel o tr).
Proof.
  unfold remove_app. more_unfold.
  change ("Are you sure you want to remove this " +:+ "application? (Y/N) ")
    with removal_question.
  repeat more_step; destruct_units; subst.
  all: try (eapply ro_early;
            [ first [ more_trace_eq | symmetry; apply app_nil_r ]
            | reflexivity
            | first [ congruence | reflexivity ]
            | first [ discriminate | reflexivity ]
            | discriminate ]).
  all: try match goal with
       | |- remove_outcome _ _ ?tr (Raise _, ?pre_tr ++ [Did (stop_app ?acc _) _]) =>
           assert (∃ pre, pre_tr = tr ++ pre ∧ before_stop o pre) as (pre & -> & Hpre)
             by (eexists; split; [more_trace_eq | before_stop_leaf]);
           eapply (ro_stop_failed _ _ _ pre acc); [exact Hpre | more_trace_eq]
       end.
  all: match goal with
       | |- context [wait_for_shutdown _ _ ?acc ?app ((?pre_tr ++ ?s1) ++ ?s2)] =>
           assert (∃ pre, pre_tr = tr ++ pre ∧ before_stop o pre) as (pre & -> & Hpre)
             by (eexists; split; [more_trace_eq | before_stop_leaf]);
           destruct (wait_for_shutdown_cases X fuel acc app (((tr ++ pre) ++ s1) ++ s2))
             as [(n & Hn & Hr & Ht)|[(Hr & Ht)|(n & e & Hn & Hr & Ht)]];
           destruct (wait_for_shutdown X fuel acc app (((tr ++ pre) ++ s1) ++ s2))
             as [r tr']; cbn [fst snd] in *; subst r; try subst tr'
       end.
  all: try (eapply (ro_done _ _ _ pre); [exact Hpre | exact Hn | more_trace_eq]).
  all: try (eapply (ro_out_of_fuel _ _ _ pre); [exact Hpre | more_trace_eq]).
  all: destruct Ht as [-> | ->];
       (eapply (ro_wait_failed _ _ _ pre); [exact Hpre | exact Hn | | more_trace_eq]);
       [left; reflexivity | right; reflexivity].
Qed.

Ltac remove_cases X fuel o tr :=
  generalize (remove_app_outcome X fuel o tr);
  generalize (remove_app X fuel o tr);
  let r := fresh "r" in
  let H := fresh "H" in
  intros r H;
  destruct H as [e evs tr' Htr Hnostop Hconf Hunknown Hnotknown
                |pre acc e tr' Hpre Htr
                |pre acc n tr' Hpre Hn Htr
                |pre acc tr' Hpre Htr
                |pre acc n e final tr' Hpre Hn Hfinal Htr];
  subst tr'; cbn [fst snd]; rewrite added_app.

(** X18. With [confirm] set, [remove_app] does not ask the operator
    anything. *)
Theorem remove_app_confirmed_never_asks X fuel o tr :
  confirm o = true →
  existsb asks_operator (added tr (remove_app X fuel o tr).2) = false.
Proof.
  remove_cases X fuel o tr; intros Hc; [auto|..];
    destruct Hpre as [Hq _ _ _]; specialize (Hq Hc).
  all: try destruct Hfinal as [-> | ->].
  all: rewrite ?existsb_app, Hq, ?existsb_rounds by reflexivity; reflexivity.
Qed.

(** X19. When the registry does not know the application, [remove_app] raises
    [AppScaleException] and does not call [stop_app]. *)
Theorem remove_app_unknown_app X fuel o tr :
  let res := remove_app X fuel o tr in
  registry_knows_app (added tr res.2) = Some false →
  res.1 = Raise (AppScaleException unknown_app_message) ∧
  existsb stops_app (added tr res.2) = false.
Proof.
  cbv zeta. remove_cases X fuel o tr; intros Hk.
  - rewrite (Hunknown Hk). split; [reflexivity | assumption].
  - destruct Hpre as [_ _ _ Hkn]. rewrite Hkn in Hk. discriminate.
  - destruct Hpre as [_ _ _ Hkn]. rewrite Hkn in Hk. discriminate.
  - destruct Hpre as [_ _ _ Hkn]. rewrite Hkn in Hk. discriminate.
  - destruct Hpre as [_ _ _ Hkn]. rewrite Hkn in Hk. discriminate.
Qed.

(** X20. A run of [remove_app] that returns has told the controller once to
    stop the application, which the registry knows, and has then polled
    [is_app_running], sleeping [SLEEP_TIME] seconds after every poll that
    found the application running, until the poll that found it stopped;
    the line that reports the shutdown comes last. *)
Theorem remove_app_polls_until_stopped X fuel o tr :
  let res := remove_app X fuel o tr in
  let evs := added tr res.2 in
  res.1 = Ok (Some tt) →
  ∃ pre acc n,
    n < fuel ∧
    existsb stops_app pre = false ∧
    registry_knows_app evs = Some true ∧
    evs = pre ++
          [Did (stop_app acc (appname o)) (Ok tt);
           Said LOG "Please wait for your app to shut down."] ++
          rounds n acc (appname o) ++
          [Did (is_app_running acc (appname o)) (Ok false);
           Said SUCCESS ("Done shutting down " +:+ appname o)].
Proof.
  cbv zeta. remove_cases X fuel o tr; intros Hr; try discriminate Hr.
  destruct Hpre as [_ _ Hs Hk]. exists pre, acc, n.
  split; [exact Hn|]. split; [exact Hs|]. split; [apply Hk | reflexivity].
Qed.

(** X21. The fuel matters only while the application keeps running: a run
    that uses up its fuel has seen the application running in every one
    of its polls, and a run that ends in another way ends in the same way
    with any amount of fuel added. *)
Theorem remove_app_enough_fuel X fuel o tr :
  let res := remove_app X fuel o tr in
  (res.1 = Ok None →
   ∃ pre acc,
     added tr res.2 =
       pre ++
       [Did (stop_app acc (appname o)) (Ok tt);
        Said LOG "Please wait for your app to shut down."] ++
       rounds fuel acc (appname o)) ∧
  (res.1 ≠ Ok None → ∀ k, remove_app X (fuel + k) o tr = res).
Proof.
  cbv zeta. split.
  - remove_cases X fuel o tr; intros Hr; try discriminate Hr. eauto.
  - intros Hr k. revert Hr. unfold remove_app. more_unfold.
    repeat more_step; try reflexivity.
    all: match goal with
         | |- context [wait_for_shutdown _ (_ + _) ?acc ?app ?t] =>
             destruct (wait_for_shutdown X fuel acc app t) as [[[[]|]|e] tr'] eqn:E;
             cbn [fst snd]; intros Hr; try (destruct Hr; reflexivity);
             rewrite wait_for_shutdown_more_fuel, E by (rewrite E; discriminate);
             reflexivity
         end.
Qed.

(** ** [reset_password] *)

(** X22. The password that [reset_password] sends to the registry is the
    answer of [encrypt_password] for the credentials that the operator
    gave, and it is sent for the username of those credentials. *)
Theorem reset_password_sends_the_encrypted_password X o tr u sent :
  let res := reset_password X o tr in
  let evs := added tr res.2 in
  first_of password_change evs = Some (u, sent) →
  ∃ clear, first_of credentials_given evs = Some (u, clear) ∧
           first_of encryption evs = Some (u, clear, sent).
Proof.
  cbv zeta. unfold reset_password. more_exec; destruct_units.
  all: rewrite (added_eq tr _ _) by more_trace_eq.
  all: intros H; vm_compute in H; try discriminate H.
  all: injection H as <- <-; eexists; split; reflexivity.
Qed.

(** X23. [reset_password] returns exactly when the registry accepts the
    change, and the line that says so is then the last one.  When the
    registry refuses the change with a subclass of [Exception], the method
    warns with the text of the exception and exits with status 1; what is
    not a subclass of [Exception] ends the method as it is; and so does an
    exception of an earlier call. *)
Theorem reset_password_exits_when_refused X o tr :
  let res := reset_password X o tr in
  let evs := added tr res.2 in
  (∀ e, first_of change_refused evs = Some e → is_Exception e = true →
        res.1 = Raise (SystemExit 1) ∧
        last evs = Some (Said WARN ("Could not change the user's password for the " +:+
                                    "following reason: " +:+ str_exn e))) ∧
  (∀ e, first_of change_refused evs = Some e → is_Exception e = false →
        res.1 = Raise e ∧
        ∃ uac u p, last evs = Some (Did (change_password uac u p) (Raise e))) ∧
  (existsb change_accepted evs = true →
   res.1 = Ok tt ∧
   last evs = Some (Said SUCCESS ("The password was successfully changed for the " +:+
                                  "given user."))) ∧
  (res.1 = Ok tt → existsb change_accepted evs = true) ∧
  (existsb changes_password evs = false →
   ∃ T (c : MoreCall T) e, last evs = Some (Did c (Raise e)) ∧ res.1 = Raise e).
Proof.
  cbv zeta. unfold reset_password. more_exec; destruct_units.
  all: rewrite (added_eq tr _ _) by more_trace_eq.
  all: split; [|split; [|split; [|split]]].
  all: try (intros ? H; vm_compute in H; discriminate H).
  all: try (intros H; vm_compute in H; discriminate H).
  all: try discriminate.
  all: try (intros _; reflexivity).
  all: try (intros _; split; reflexivity).
  all: try (intros _; eexists _, _, _; split; reflexivity).
  all: intros ? [= <-] Hexc; first [congruence | split; [reflexivity|]].
  - reflexivity.
  - eexists _, _, _. reflexivity.
Qed.

(** ** [add_keypair] *)

Lemma more_for_cons {A} (x : A) l (body : A → MoreM unit) tr :
  more_for (x :: l) body tr =
  match body x tr with
  | (Ok _, tr') => more_for l body tr'
  | (Raise e, tr') => (Raise e, tr')
  end.
Proof. reflexivity. Qed.

Lemma add_keypair_host_cases X o pub priv pw ip tr :
  let r := add_keypair_host X o pub priv pw ip tr in
  (r.1 = Ok tt ∧ r.2 = tr ++ host_setup X o pub priv pw ip) ∨
  (∃ e evs, r.1 = Raise e ∧ r.2 = tr ++ evs ∧
            existsb asks_password evs = false ∧
            existsb generates_key evs = false ∧
            existsb more_raised evs = true).
Proof.
  cbv zeta. unfold add_keypair_host, host_setup, copy_id_command.
  more_exec; destruct_units.
  all: first [ left; split; [reflexivity | more_trace_eq]
             | right; eexists _, _; split; [reflexivity|];
               split; [more_trace_eq|]; repeat split ].
Qed.

Lemma existsb_host_setup f X o pub priv pw ips :
  (∀ ip, existsb f (host_setup X o pub priv pw ip) = false) →
  existsb f (flat_map (host_setup X o pub priv pw) ips) = false.
Proof.
  intros H. induction ips as [|ip ips IH]; [reflexivity|].
  cbn [flat_map]. rewrite existsb_app, H, IH. reflexivity.
Qed.

Lemma add_keypair_loop_cases X o pub priv pw ips tr :
  let r := more_for ips (add_keypair_host X o pub priv pw) tr in
  (r.1 = Ok tt ∧ r.2 = tr ++ flat_map (host_setup X o pub priv pw) ips) ∨
  (∃ e evs, r.1 = Raise e ∧ r.2 = tr ++ evs ∧
            existsb asks_password evs = false ∧
            existsb generates_key evs = false ∧
            existsb more_raised evs = true).
Proof.
  cbv zeta. revert tr. induction ips as [|ip ips IH]; intros tr.
  - left. split; [reflexivity|]. symmetry. apply app_nil_r.
  - rewrite more_for_cons.
    destruct (add_keypair_host_cases X o pub priv pw ip tr)
      as [[Hr Ht]|(e & evs & Hr & Ht & Ha & Hg & Hx)];
      destruct (add_keypair_host X o pub priv pw ip tr) as [[[]|e'] tr1];
      cbn [fst snd] in *; try discriminate; subst tr1.
    + destruct (IH (tr ++ host_setup X o pub priv pw ip))
        as [[Hr' Ht']|(e & evs & Hr' & Ht' & Ha & Hg & Hx)].
      * left. split; [exact Hr'|]. rewrite Ht', <- app_assoc. reflexivity.
      * right. exists e, (host_setup X o pub priv pw ip ++ evs).
        split; [exact Hr'|]. split; [rewrite Ht', <- app_assoc; reflexivity|].
        rewrite !existsb_app, Ha, Hg, Hx, orb_true_r. repeat split.
    + right. exists e, evs. injection Hr as ->. repeat split; assumption.
Qed.

Lemma add_keypair_parts X o :
  add_keypair X o = add_keypair_until_hosts X o (add_keypair_hosts X o).
Proof. reflexivity. Qed.

Lemma add_keypair_until_hosts_cases {A} X o
    (k : string → string → string → MoreM A) tr :
  let r := add_keypair_until_hosts X o k tr in
  (∃ e evs, r = (Raise e, tr ++ evs) ∧
     existsb touches_host evs = false ∧
     existsb more_raised evs = true ∧
     (existsb asks_password evs = true →
        auto o = true ∧ root_password o = None) ∧
     (add_to_existing o = true → existsb generates_key evs = false)) ∨
  (∃ pub priv pw,
     r = k pub priv pw
           (tr ++ [Did (require_ssh_commands (auto o) (verbose (common o))) (Ok tt);
                   Did (known make_appscale_directory) (Ok tt)] ++
                  key_events o pub priv ++ password_events o pw) ∧
     (add_to_existing o = true → (pub, priv) = existing_keys X o) ∧
     (auto o = true → ∀ given, root_password o = Some given → pw = given)).
Proof.
  cbv zeta. unfold add_keypair_until_hosts, key_events, password_events,
    existing_keys.
  destruct (root_password o) as [given|] eqn:Hroot.
  all: more_exec; destruct_units.
  all: first
    [ left; eexists _, _; split; [f_equal; more_trace_eq|];
      repeat split; try reflexivity; try discriminate;
      intros H; vm_compute in H; discriminate H
    | right; eexists _, _, _; split; [f_equal; more_trace_eq|];
      split; [intros; try discriminate; reflexivity|];
      intros ? ? ?; congruence ].
Qed.

Lemma add_keypair_hosts_cases X o pub priv pw tr :
  let r := add_keypair_hosts X o pub priv pw tr in
  let layout := NodeLayout (world X) (common o) in
  (is_valid layout = false ∧
   r = (Raise (BadConfigurationException ("There were problems with your " +:+
          "placement strategy: " +:+ errors layout)), tr)) ∨
  (is_valid layout = true ∧
   ((r = (Ok tt, tr ++ flat_map (host_setup X o pub priv pw)
                         (layout_public_ips X o) ++
                       [Said SUCCESS ("Generated a new SSH key for this " +:+
                                      "deployment at " +:+ priv)])) ∨
    (∃ e evs, r = (Raise e, tr ++ evs) ∧
       existsb asks_password evs = false ∧
       existsb generates_key evs = false ∧
       existsb more_raised evs = true))).
Proof.
  cbv zeta. unfold add_keypair_hosts.
  destruct (is_valid (NodeLayout (world X) (common o))) eqn:Hv; cbn [negb].
  - right. split; [reflexivity|]. more_unfold.
    destruct (add_keypair_loop_cases X o pub priv pw (layout_public_ips X o) tr)
      as [[Hr Ht]|(e & evs & Hr & Ht & Ha & Hg & Hx)];
      destruct (more_for (layout_public_ips X o)
                  (add_keypair_host X o pub priv pw) tr) as [[[]|e'] tr1];
      cbn [fst snd] in *; try discriminate; subst tr1.
    + left. rewrite <- app_assoc. reflexivity.
    + right. exists e, evs. injection Hr as ->. repeat split; assumption.
  - left. split; reflexivity.
Qed.

Ltac keypair_cases X o tr :=
  cbv zeta; unfold added; rewrite add_keypair_parts;
  destruct (add_keypair_until_hosts_cases X o (add_keypair_hosts X o) tr)
    as [(e & evs & -> & Hhost & Hx & Hask & Hgen)
       |(pub & priv & pw & -> & Hkeys & Hpw)];
  [|destruct (add_keypair_hosts_cases X o pub priv pw
       (tr ++ [Did (require_ssh_commands (auto o) (verbose (common o))) (Ok tt);
               Did (known make_appscale_directory) (Ok tt)] ++
              key_events o pub priv ++ password_events o pw))
     as [[Hv ->]|[Hv [->|(e & evs & -> & Ha & Hg & Hx)]]]];
  cbn [fst snd]; rewrite <- ?app_assoc, ?more_new_events.

Lemma key_events_touch_no_host o pub priv :
  existsb touches_host (key_events o pub priv) = false.
Proof. unfold key_events. destruct (add_to_existing o); reflexivity. Qed.

Lemma password_events_touch_no_host o pw :
  existsb touches_host (password_events o pw) = false.
Proof.
  unfold password_events. destruct (auto o); [|reflexivity].
  destruct (root_password o); reflexivity.
Qed.

Lemma password_events_ask o pw :
  existsb asks_password (password_events o pw) = true →
  auto o = true ∧ root_password o = None.
Proof.
  unfold password_events. destruct (auto o); [|discriminate].
  destruct (root_password o); [discriminate|]. split; reflexivity.
Qed.

Lemma key_events_ask o pub priv :
  existsb asks_password (key_events o pub priv) = false.
Proof. unfold key_events. destruct (add_to_existing o); reflexivity. Qed.

Lemma key_events_generate o pub priv :
  add_to_existing o = true →
  existsb generates_key (key_events o pub priv) = false.
Proof. unfold key_events. intros ->. reflexivity. Qed.

Lemma password_events_generate o pw :
  existsb generates_key (password_events o pw) = false.
Proof.
  unfold password_events. destruct (auto o); [|reflexivity].
  destruct (root_password o); reflexivity.
Qed.

(** X24. [add_keypair] that returns has done this and nothing else: it
    checked the ssh commands and made the AppScale directory, generated a
    pair of keys unless it adds to an existing deployment, whose keys are
    [LOCAL_APPSCALE_PATH + keyname] and the same with [.pub], came by the
    password when [auto] is set, the given one if there is one, found the
    layout valid, set up every host of the layout, in order, by the copy of
    the identity and the two copies of the keys, and reported the private
    key. *)
Theorem add_keypair_sets_up_every_host X o tr :
  let res := add_keypair X o tr in
  let evs := added tr res.2 in
  res.1 = Ok tt →
  ∃ pub priv pw,
    is_valid (NodeLayout (world X) (common o)) = true ∧
    (add_to_existing o = true → (pub, priv) = existing_keys X o) ∧
    (auto o = true → ∀ given, root_password o = Some given → pw = given) ∧
    evs = [Did (require_ssh_commands (auto o) (verbose (common o))) (Ok tt);
           Did (known make_appscale_directory) (Ok tt)] ++
          key_events o pub priv ++ password_events o pw ++
          flat_map (host_setup X o pub priv pw) (layout_public_ips X o) ++
          [Said SUCCESS ("Generated a new SSH key for this deployment at " +:+
                         priv)].
Proof.
  keypair_cases X o tr; intros Hok; try discriminate Hok.
  exists pub, priv, pw. repeat split; try assumption.
Qed.

(** X25. With a layout that is not valid, [add_keypair] fails, and it has run
    no command on a host and copied nothing to one; if no collaborator
    raised, it has by then generated the keys and come by the password, and
    it raises a [BadConfigurationException] with the errors of the layout. *)
Theorem add_keypair_invalid_layout_touches_no_host X o tr :
  let res := add_keypair X o tr in
  let evs := added tr res.2 in
  let layout := NodeLayout (world X) (common o) in
  is_valid layout = false →
  is_ok res.1 = false ∧
  existsb touches_host evs = false ∧
  (existsb more_raised evs = false →
   res.1 = Raise (BadConfigurationException ("There were problems with your " +:+
             "placement strategy: " +:+ errors layout)) ∧
   ∃ pub priv pw,
     evs = [Did (require_ssh_commands (auto o) (verbose (common o))) (Ok tt);
            Did (known make_appscale_directory) (Ok tt)] ++
           key_events o pub priv ++ password_events o pw).
Proof.
  keypair_cases X o tr; intros Hinv; try congruence.
  - split; [reflexivity|]. split; [assumption|]. intros H. congruence.
  - split; [reflexivity|]. split.
    + rewrite !existsb_app, key_events_touch_no_host,
        password_events_touch_no_host. reflexivity.
    + intros _. split; [reflexivity|]. exists pub, priv, pw. reflexivity.
Qed.

(** X26. [add_keypair] asks for a password only when [auto] is set and the
    options have no [root_password]. *)
Theorem add_keypair_asks_for_a_missing_password_only X o tr :
  let res := add_keypair X o tr in
  let evs := added tr res.2 in
  existsb asks_password evs = true →
  auto o = true ∧ root_password o = None.
Proof.
  keypair_cases X o tr; intros H.
  - auto.
  - rewrite !existsb_app, key_events_ask in H. cbn in H.
    apply (password_events_ask o pw H).
  - rewrite !existsb_app, key_events_ask, (existsb_host_setup asks_password) in H
      by reflexivity.
    cbn in H. rewrite !orb_false_r in H. apply (password_events_ask o pw H).
  - rewrite !existsb_app, key_events_ask, Ha in H.
    cbn in H. rewrite !orb_false_r in H. apply (password_events_ask o pw H).
Qed.

(** X27. [add_keypair] that adds to an existing deployment generates no key,
    whatever else happens. *)
Theorem add_keypair_reuses_existing_keys X o tr :
  let res := add_keypair X o tr in
  let evs := added tr res.2 in
  add_to_existing o = true →
  existsb generates_key evs = false.
Proof.
  keypair_cases X o tr; intros H.
  - auto.
  - rewrite !existsb_app, key_events_generate, password_events_generate by exact H.
    reflexivity.
  - rewrite !existsb_app, key_events_generate, password_events_generate,
      (existsb_host_setup generates_key) by (exact H || reflexivity).
    reflexivity.
  - rewrite !existsb_app, key_events_generate, password_events_generate, Hg
      by exact H.
    reflexivity.
Qed.

(** ** The further properties on examples *)

(** Two nodes are added to a deployment on [xen]: both are probed, in the
    order in which the dict of these options lists their addresses, then
    the request is sent. *)
Lemma add_instances_probes_then_requests_witness :
  paths (add_instances (scenario_world calm) new_nodes_options fresh_state).2 =
    paths fresh_state ∧
  ["192.168.1.5"; "192.168.1.4"] ≡ₚ map snd (map_to_list (ips new_nodes_options)) ∧
  ∃ infra login_ip secret,
    new_events fresh_state
      (add_instances (scenario_world calm) new_nodes_options fresh_state).2 =
      Called (get_from_yaml "appscale" "infrastructure") (Ok infra) ::
      (if String.eqb infra "xen"
       then map (λ ip, Called (ssh ip "appscale" "ls" false) (Ok tt))
              ["192.168.1.5"; "192.168.1.4"]
       else []) ++
      [Logged LOG "Sending request to add instances";
       Called (get_login_host "appscale") (Ok login_ip);
       Called (get_secret_key "appscale") (Ok secret);
       Called (start_roles_on_nodes
                 {| acc_host := login_ip; acc_secret := secret |}
                 (json_dumps (scenario_world calm) (ips new_nodes_options)))
         (Ok tt);
       Logged SUCCESS ("Successfully sent request to add instances " +:+
                       "to this AppScale deployment.")].
Proof.
  apply (add_instances_probes_then_requests (scenario_world calm)
           new_nodes_options fresh_state).
  vm_compute. reflexivity.
Defined.

Lemma add_instances_failed_probe_sends_nothing_witness :
  is_ok (add_instances no_route_world new_nodes_options fresh_state).1 = false ∧
  existsb requests_roles
    (new_events fresh_state
       (add_instances no_route_world new_nodes_options fresh_state).2) = false ∧
  paths (add_instances no_route_world new_nodes_options fresh_state).2 =
    paths fresh_state.
Proof.
  apply (add_instances_failed_probe_sends_nothing no_route_world
           new_nodes_options fresh_state).
  vm_compute. reflexivity.
Defined.

Lemma gather_logs_one_directory_per_node_witness :
  ∃ login_host secret all_ips,
    new_events fresh_state
      (gather_logs (scenario_world calm) some_options fresh_state).2 =
      Called (get_login_host "appscale") (Ok login_host) ::
      Called (get_secret_key "appscale") (Ok secret) ::
      Called (os_mkdir_call "/tmp/logs") (Ok tt) ::
      Called (get_all_public_ips
                {| acc_host := login_host; acc_secret := secret |})
        (Ok all_ips) ::
      flat_map (fetched some_options) all_ips ++
      [Logged SUCCESS ("Successfully copied logs to " +:+ "/tmp/logs")] ∧
    NoDup all_ips ∧
    ("/tmp/logs" ∉ paths fresh_state) ∧
    paths (gather_logs (scenario_world calm) some_options fresh_state).2 =
      list_to_set (map (local_dir some_options) all_ips) ∪
      ({[ "/tmp/logs" ]} ∪ paths fresh_state).
Proof.
  apply (gather_logs_one_directory_per_node (scenario_world calm) some_options
           fresh_state).
  vm_compute. reflexivity.
Defined.

Lemma gather_logs_stops_at_first_failure_witness :
  ∃ T (c : Call T) e,
    last (new_events fresh_state
            (gather_logs (scenario_world no_secret) some_options fresh_state).2) =
      Some (Called c (Raise e)) ∧
    (gather_logs (scenario_world no_secret) some_options fresh_state).1 = Raise e.
Proof.
  apply (gather_logs_stops_at_first_failure (scenario_world no_secret)
           some_options fresh_state).
  vm_compute. reflexivity.
Defined.

Lemma terminate_instances_tears_down_by_infrastructure_witness :
  ∃ infra,
    new_events deployed_state
      (terminate_instances (scenario_world calm) some_options deployed_state).2 =
      [Called (get_infrastructure "appscale") (Ok infra);
       teardown_for (scenario_world calm) some_options infra;
       Called (cleanup_appscale_files "appscale") (Ok tt);
       Logged SUCCESS "Successfully shut down your AppScale deployment."] ∧
    "~/.appscale/locations-appscale.yaml" ∈ paths deployed_state ∧
    paths (terminate_instances (scenario_world calm) some_options
             deployed_state).2 =
      paths deployed_state ∖ {[ "~/.appscale/locations-appscale.yaml" ]}.
Proof.
  destruct (terminate_instances_tears_down_by_infrastructure
              (scenario_world calm) some_options deployed_state) as [H _].
  apply H. vm_compute. reflexivity.
Defined.

Lemma run_instances_rejects_invalid_layout_witness :
  is_ok (run_instances invalid_layout_world some_options fresh_state).1 = false ∧
  existsb starts_head_node
    (new_events fresh_state
       (run_instances invalid_layout_world some_options fresh_state).2) = false ∧
  existsb writes_metadata
    (new_events fresh_state
       (run_instances invalid_layout_world some_options fresh_state).2) = false ∧
  (run_instances invalid_layout_world some_options fresh_state).1 =
    Raise (BadConfigurationException
             (layout_message invalid_layout_world some_options)) ∧
  ∃ id,
    new_events fresh_state
      (run_instances invalid_layout_world some_options fresh_state).2 =
      before_layout invalid_layout_world some_options id.
Proof.
  destruct (run_instances_rejects_invalid_layout invalid_layout_world
              some_options fresh_state) as (H1 & H2 & H3 & H4); [reflexivity|].
  split; [exact H1|]. split; [exact H2|]. split; [exact H3|].
  apply H4. vm_compute. reflexivity.
Defined.

Lemma run_instances_saves_metadata_first_witness :
  "~/.appscale/locations-appscale.yaml" ∈
    paths (run_instances (scenario_world calm) some_options fresh_state).2.
Proof.
  destruct (run_instances_saves_metadata_first (scenario_world calm)
              some_options fresh_state) as [H1 H2].
  apply H2, H1. vm_compute. reflexivity.
Defined.

Lemma run_instances_fails_only_with_a_collaborator_witness :
  (run_instances (scenario_world calm) some_options fresh_state).1 = Ok tt ∧
  existsb warns
    (new_events fresh_state
       (run_instances (scenario_world calm) some_options fresh_state).2) =
    negb (is_supported (NodeLayout (scenario_world calm) some_options)).
Proof.
  destruct (run_instances_fails_only_with_a_collaborator (scenario_world calm)
              some_options fresh_state) as [H _]; [reflexivity|].
  apply H. vm_compute. reflexivity.
Defined.

Lemma run_instances_admin_is_the_created_user_witness :
  granted_admin
    (new_events fresh_state
       (run_instances (scenario_world calm) some_options fresh_state).2) =
    Some "a@a.a".
Proof.
  assert (∃ u', granted_admin
            (new_events fresh_state
               (run_instances (scenario_world calm) some_options
                  fresh_state).2) = Some u') as [u' H].
  { vm_compute. eexists. reflexivity. }
  rewrite H. f_equal.
  apply (run_instances_admin_is_the_created_user (scenario_world calm)
           some_options fresh_state "a@a.a" "aaaaaa" u'); [|exact H].
  vm_compute. reflexivity.
Defined.

Lemma upload_app_username_precedence_witness :
  resolved_username (scenario_world calm) some_options
    (new_events fresh_state
       (upload_app (scenario_world calm) some_options fresh_state).2) =
    Some "a@a.a" ∧
  existsb prompts_username
    (new_events fresh_state
       (upload_app (scenario_world calm) some_options fresh_state).2) = false.
Proof.
  destruct (upload_app_username_precedence (scenario_world calm) some_options
              fresh_state) as [H1 H2].
  split; [apply H1; vm_compute; reflexivity | apply H2; reflexivity].
Defined.

Lemma upload_app_creates_unknown_users_only_witness :
  existsb creates_account
    (new_events fresh_state
       (upload_app (scenario_world calm) some_options fresh_state).2) = false ∧
  existsb prompts_password
    (new_events fresh_state
       (upload_app (scenario_world calm) some_options fresh_state).2) = false.
Proof.
  destruct (upload_app_creates_unknown_users_only (scenario_world calm)
              some_options fresh_state) as [H _].
  apply H. vm_compute. reflexivity.
Defined.

Lemma upload_app_leaves_a_directory_alone_witness :
  paths (upload_app (scenario_world calm) directory_options fresh_state).2 =
    paths fresh_state ∧
  existsb extracts
    (new_events fresh_state
       (upload_app (scenario_world calm) directory_options fresh_state).2) =
    false ∧
  existsb removes_tree
    (new_events fresh_state
       (upload_app (scenario_world calm) directory_options fresh_state).2) =
    false.
Proof.
  apply (upload_app_leaves_a_directory_alone (scenario_world calm)
           directory_options fresh_state).
  vm_compute. reflexivity.
Defined.

Lemma upload_app_reserves_new_applications_only_witness :
  existsb reserves
    (new_events fresh_state
       (upload_app (scenario_world own_app) some_options fresh_state).2) = false.
Proof.
  apply (upload_app_reserves_new_applications_only (scenario_world own_app)
           some_options fresh_state).
  vm_compute. reflexivity.
Defined.

Lemma upload_app_announces_the_copied_bundle_witness :
  ∃ before after uac acc u id lang location path existed,
    resolved_username (scenario_world calm) some_options
      (new_events fresh_state
         (upload_app (scenario_world calm) some_options fresh_state).2) =
      Some u ∧
    app_id_of
      (new_events fresh_state
         (upload_app (scenario_world calm) some_options fresh_state).2) =
      Some id ∧
    app_existed
      (new_events fresh_state
         (upload_app (scenario_world calm) some_options fresh_state).2) =
      Some existed ∧
    bundle_location some_options
      (new_events fresh_state
         (upload_app (scenario_world calm) some_options fresh_state).2) =
      Some location ∧
    new_events fresh_state
      (upload_app (scenario_world calm) some_options fresh_state).2 =
      before ++
      (if existed : bool then []
       else [Called (reserve_app_id uac u id lang) (Ok tt)]) ++
      upload_of some_options acc id location path ++
      after ∧
    existsb reserves before = false ∧
    existsb reserves after = false.
Proof.
  apply (upload_app_announces_the_copied_bundle (scenario_world calm)
           some_options fresh_state ("192.168.1.3", 8080%Z)).
  vm_compute. reflexivity.
Defined.

(** The operator answers [n]. *)
Lemma remove_app_cancelled_witness :
  remove_app (more_world declining (scenario_world calm)) 5
    unconfirmed_options [] =
    (Raise (AppScaleException "Cancelled application removal."),
     [] ++ [Did (raw_input removal_question) (Ok "n")]).
Proof.
  apply (remove_app_cancelled (more_world declining (scenario_world calm)) 5
           unconfirmed_options [] "n").
  - reflexivity.
  - reflexivity.
  - rewrite !elem_of_cons, elem_of_nil.
    intros [H|[H|[H|[H|[]]]]]; discriminate H.
Defined.

Lemma remove_app_confirmed_never_asks_witness :
  existsb asks_operator
    (added []
       (remove_app (more_world agreeable (scenario_world calm)) 5
          more_options []).2) = false.
Proof.
  apply (remove_app_confirmed_never_asks
           (more_world agreeable (scenario_world calm)) 5 more_options []).
  reflexivity.
Defined.

Lemma remove_app_unknown_app_witness :
  (remove_app (more_world unknown_app (scenario_world calm)) 5
     more_options []).1 =
    Raise (AppScaleException unknown_app_message) ∧
  existsb stops_app
    (added []
       (remove_app (more_world unknown_app (scenario_world calm)) 5
          more_options []).2) = false.
Proof.
  apply (remove_app_unknown_app (more_world unknown_app (scenario_world calm))
           5 more_options []).
  vm_compute. reflexivity.
Defined.

(** The application stops after two polls. *)
Lemma remove_app_polls_until_stopped_witness :
  ∃ pre acc n,
    n < 5 ∧
    existsb stops_app pre = false ∧
    registry_knows_app
      (added []
         (remove_app (more_world agreeable (scenario_world calm)) 5
            more_options []).2) = Some true ∧
    added []
      (remove_app (more_world agreeable (scenario_world calm)) 5
         more_options []).2 =
      pre ++
      [Did (stop_app acc "guestbook") (Ok tt);
       Said LOG "Please wait for your app to shut down."] ++
      rounds n acc "guestbook" ++
      [Did (is_app_running acc "guestbook") (Ok false);
       Said SUCCESS ("Done shutting down " +:+ "guestbook")].
Proof.
  apply (remove_app_polls_until_stopped
           (more_world agreeable (scenario_world calm)) 5 more_options []).
  vm_compute. reflexivity.
Defined.

(** One poll of fuel for an application that is found running twice. *)
Lemma remove_app_enough_fuel_witness :
  ∃ pre acc,
    added []
      (remove_app (more_world agreeable (scenario_world calm)) 1
         more_options []).2 =
      pre ++
      [Did (stop_app acc "guestbook") (Ok tt);
       Said LOG "Please wait for your app to shut down."] ++
      rounds 1 acc "guestbook".
Proof.
  destruct (remove_app_enough_fuel
              (more_world agreeable (scenario_world calm)) 1 more_options [])
    as [H _].
  apply H. vm_compute. reflexivity.
Defined.

Lemma reset_password_sends_the_encrypted_password_witness :
  ∃ clear,
    first_of credentials_given
      (added []
         (reset_password (more_world agreeable (scenario_world calm))
            more_options []).2) = Some ("user@example.com", clear) ∧
    first_of encryption
      (added []
         (reset_password (more_world agreeable (scenario_world calm))
            more_options []).2) =
      Some ("user@example.com", clear, "sha1:user@example.comnew-password").
Proof.
  apply (reset_password_sends_the_encrypted_password
           (more_world agreeable (scenario_world calm)) more_options []).
  vm_compute. reflexivity.
Defined.

Lemma reset_password_exits_when_refused_witness :
  (reset_password (more_world refusing (scenario_world calm))
     more_options []).1 = Raise (SystemExit 1) ∧
  last (added []
          (reset_password (more_world refusing (scenario_world calm))
             more_options []).2) =
    Some (Said WARN ("Could not change the user's password for the " +:+
                     "following reason: " +:+
                     str_exn (AppScaleException "The given user does not exist."))).
Proof.
  destruct (reset_password_exits_when_refused
              (more_world refusing (scenario_world calm)) more_options [])
    as [H _].
  apply H; [vm_compute; reflexivity | reflexivity].
Defined.

(** Two hosts, a generated pair of keys and a password that is asked for. *)
Lemma add_keypair_sets_up_every_host_witness :
  ∃ pub priv pw,
    is_valid (NodeLayout (scenario_world calm) some_options) = true ∧
    (add_to_existing more_options = true →
     (pub, priv) =
       existing_keys (more_world agreeable (scenario_world calm)) more_options) ∧
    (auto more_options = true →
     ∀ given, root_password more_options = Some given → pw = given) ∧
    added []
      (add_keypair (more_world agreeable (scenario_world calm))
         more_options []).2 =
      [Did (require_ssh_commands true false) (Ok tt);
       Did (known make_appscale_directory) (Ok tt)] ++
      key_events more_options pub priv ++ password_events more_options pw ++
      flat_map
        (host_setup (more_world agreeable (scenario_world calm)) more_options
           pub priv pw)
        ["192.168.1.1"; "192.168.1.2"] ++
      [Said SUCCESS ("Generated a new SSH key for this deployment at " +:+
                     priv)].
Proof.
  apply (add_keypair_sets_up_every_host
           (more_world agreeable (scenario_world calm)) more_options []).
  vm_compute. reflexivity.
Defined.

Lemma add_keypair_invalid_layout_touches_no_host_witness :
  is_ok (add_keypair (more_world agreeable invalid_layout_world)
           more_options []).1 = false ∧
  existsb touches_host
    (added []
       (add_keypair (more_world agreeable invalid_layout_world)
          more_options []).2) = false ∧
  (add_keypair (more_world agreeable invalid_layout_world)
     more_options []).1 =
    Raise (BadConfigurationException
             ("There were problems with your " +:+ "placement strategy: " +:+
              "['No master was specified']")).
Proof.
  destruct (add_keypair_invalid_layout_touches_no_host
              (more_world agreeable invalid_layout_world) more_options [])
    as (H1 & H2 & H3); [reflexivity|].
  split; [exact H1|]. split; [exact H2|].
  apply H3. vm_compute. reflexivity.
Defined.

Lemma add_keypair_asks_for_a_missing_password_only_witness :
  auto more_options = true ∧ root_password more_options = None.
Proof.
  apply (add_keypair_asks_for_a_missing_password_only
           (more_world agreeable (scenario_world calm)) more_options []).
  vm_compute. reflexivity.
Defined.

Lemma add_keypair_reuses_existing_keys_witness :
  existsb generates_key
    (added []
       (add_keypair (more_world agreeable (scenario_world calm))
          existing_options []).2) = false.
Proof.
  apply (add_keypair_reuses_existing_keys
           (more_world agreeable (scenario_world calm)) existing_options []).
  reflexivity.
Defined.
